(** * openpave-gcal: the Google Calendar command-line client (src/index.js)

    A shallow embedding of the argument parser, the query-string builder,
    the calendar service client, the event formatter and the command
    handlers, followed by the properties of the specification that were
    checked against them.

    Conventions of the embedding.
    - JavaScript strings are Rocq strings holding the UTF-8 bytes of the
      text; lengths and padding count UTF-16 code units, as the engine does.
    - JavaScript numbers are exact integers or NaN.  Every number the
      program computes comes from [parseInt], a list length or a JSON
      literal; fractions and magnitudes above 2^53 are outside the model.
    - A JavaScript object is the list of its own properties in the order
      [Object.entries] reports them.
    - The two host capabilities ([hasToken], [authenticatedFetch]), the
      clock and the locale-dependent date functions are fields of a [Host]
      record; every output and every call of a capability is appended to a
      trace. *)

From Stdlib Require Import String Ascii List ZArith NArith Lia Bool Arith.
From Stdlib Require Import Numbers.DecimalString.
Import ListNotations.
Open Scope list_scope.
Open Scope string_scope.

(* ===================================================================== *)
(** ** Strings *)
(* ===================================================================== *)

Module Str.

(** [s.startsWith(p)] *)
Definition startsWith (s p : string) : bool := String.prefix p s.

(** [s.slice(n)] for [0 <= n] *)
Fixpoint slice (s : string) (n : nat) {struct n} : string :=
  match n, s with
  | O, _ => s
  | S _, EmptyString => EmptyString
  | S n', String _ s' => slice s' n'
  end.

(** The pieces of [s] between the occurrences of the character [sep]:
    [s.split(sep)] for a one-character separator.  The accumulator holds
    the piece being read. *)
Fixpoint split_acc (sep : ascii) (s : string) (acc : string) : list string :=
  match s with
  | EmptyString => [acc]
  | String c s' =>
      if Ascii.eqb c sep then acc :: split_acc sep s' EmptyString
      else split_acc sep s' (acc ++ String c EmptyString)
  end.

(** [s.split(sep, limit)]: split at every separator, keep the first
    [limit] pieces. *)
Definition split (sep : ascii) (s : string) (limit : nat) : list string :=
  firstn limit (split_acc sep s EmptyString).

(** [hay.includes(needle)] *)
Fixpoint includes (hay needle : string) : bool :=
  if String.prefix needle hay then true
  else match hay with
       | EmptyString => false
       | String _ hay' => includes hay' needle
       end.

(** [parts.join(sep)] *)
Definition join (sep : string) (parts : list string) : string :=
  String.concat sep parts.

(** Number of UTF-16 code units of a UTF-8 encoded text: one per code
    point, two for the code points encoded on four bytes. *)
Definition utf16_units (c : ascii) : nat :=
  let n := nat_of_ascii c in
  if (n <? 128)%nat then 1            (* ASCII *)
  else if (n <? 192)%nat then 0       (* continuation byte *)
  else if (n <? 240)%nat then 1       (* lead of a 2- or 3-byte sequence *)
  else 2.                             (* lead of a 4-byte sequence *)

Fixpoint js_length (s : string) : nat :=
  match s with
  | EmptyString => 0
  | String c s' => utf16_units c + js_length s'
  end.

Fixpoint spaces (n : nat) : string :=
  match n with
  | O => EmptyString
  | S n' => String " " (spaces n')
  end.

(** [s.padEnd(n)] *)
Definition padEnd (s : string) (n : nat) : string :=
  s ++ spaces (n - js_length s).

(** The text made of the given bytes. *)
Definition of_bytes (l : list nat) : string :=
  string_of_list_ascii (map ascii_of_nat l).

Definition nl : string := of_bytes [10].
Definition dquote : string := of_bytes [34].

(** The code points of a UTF-8 text, each as its own string: the order in
    which [for ... of] visits a string. *)
Fixpoint code_points (s : string) : list string :=
  match s with
  | EmptyString => []
  | String c s' =>
      match code_points s' with
      | p :: ps =>
          match s' with
          | String c' _ =>
              let n' := nat_of_ascii c' in
              if (128 <=? n')%nat && (n' <? 192)%nat
              then String c p :: ps
              else String c EmptyString :: p :: ps
          | EmptyString => String c EmptyString :: p :: ps
          end
      | [] => [String c EmptyString]
      end
  end.

(** Decimal text of an integer, as [String(n)] prints it. *)
Definition of_Z (z : Z) : string := NilZero.string_of_int (Z.to_int z).

End Str.

(* ===================================================================== *)
(** ** JavaScript values *)
(* ===================================================================== *)

(** A number: NaN or an exact integer. *)
Inductive JSNum : Type :=
| NaN
| Int (z : Z).

#[warnings="-register-all"]
Inductive JSValue : Type :=
| VUndefined
| VNull
| VBool (b : bool)
| VNum (n : JSNum)
| VStr (s : string)
| VArr (items : list JSValue)
| VObj (props : list (string * JSValue)).

Definition JSObject := list (string * JSValue).

(** ToBoolean *)
Definition truthy (v : JSValue) : bool :=
  match v with
  | VUndefined | VNull | VNum NaN => false
  | VBool b => b
  | VNum (Int z) => negb (z =? 0)%Z
  | VStr s => negb (String.eqb s "")
  | VArr _ | VObj _ => true
  end.

(** [a || b] *)
Definition js_or (a b : JSValue) : JSValue := if truthy a then a else b.

(** [v === null || v === undefined] *)
Definition nullish (v : JSValue) : bool :=
  match v with
  | VUndefined | VNull => true
  | _ => false
  end.

(** ToString.  An element of an array that is null or undefined prints as
    the empty text; an object prints as [[object Object]]. *)
Fixpoint to_string (v : JSValue) : string :=
  match v with
  | VUndefined => "undefined"
  | VNull => "null"
  | VBool true => "true"
  | VBool false => "false"
  | VNum NaN => "NaN"
  | VNum (Int z) => Str.of_Z z
  | VStr s => s
  | VArr items =>
      Str.join ","
        (map (fun x => if nullish x then "" else to_string x) items)
  | VObj _ => "[object Object]"
  end.

(** *** Objects *)

Module Obj.

Fixpoint lookup (k : string) (o : JSObject) : option JSValue :=
  match o with
  | [] => None
  | (k', v) :: o' => if String.eqb k k' then Some v else lookup k o'
  end.

(** Reading a property of an object: [o.k], undefined when absent. *)
Definition get (o : JSObject) (k : string) : JSValue :=
  match lookup k o with
  | Some v => v
  | None => VUndefined
  end.

Definition is_digit (c : ascii) : bool :=
  let n := nat_of_ascii c in ((48 <=? n) && (n <=? 57))%nat.

Fixpoint digits_value (s : string) (acc : N) : option N :=
  match s with
  | EmptyString => Some acc
  | String c s' =>
      if is_digit c
      then digits_value s' (10 * acc + N.of_nat (nat_of_ascii c - 48))%N
      else None
  end.

(** A property key is an array index when it is the canonical decimal
    text of an integer between 0 and 2^32 - 2. *)
Definition array_index (k : string) : option N :=
  match k with
  | EmptyString => None
  | String c rest =>
      if Ascii.eqb c "0" && negb (String.eqb rest "") then None
      else match digits_value k 0 with
           | Some n => if (n <=? 4294967294)%N then Some n else None
           | None => None
           end
  end.

Fixpoint replace (k : string) (v : JSValue) (o : JSObject) : JSObject :=
  match o with
  | [] => []
  | (k', v') :: o' =>
      if String.eqb k k' then (k', v) :: o' else (k', v') :: replace k v o'
  end.

(** Place of a new array-index key: before the first key that is not an
    array index or is a larger one. *)
Fixpoint insert_index (n : N) (k : string) (v : JSValue) (o : JSObject)
  : JSObject :=
  match o with
  | [] => [(k, v)]
  | (k', v') :: o' =>
      match array_index k' with
      | Some n' =>
          if (n' <? n)%N then (k', v') :: insert_index n k v o'
          else (k, v) :: o
      | None => (k, v) :: o
      end
  end.

(** Defining the own property [k] (an entry of an object literal, a
    spread, or an assignment to a key other than [__proto__]).  An
    existing key keeps its place; a new array index goes among the array
    indices in ascending order, ahead of all other keys; any other new
    key goes last. *)
Definition set (k : string) (v : JSValue) (o : JSObject) : JSObject :=
  match lookup k o with
  | Some _ => replace k v o
  | None =>
      match array_index k with
      | Some n => insert_index n k v o
      | None => (o ++ [(k, v)])%list
      end
  end.

(** The object literal [{k1: v1, ..., kn: vn}]. *)
Definition literal (kvs : list (string * JSValue)) : JSObject :=
  fold_left (fun o kv => set (fst kv) (snd kv) o) kvs [].

(** [{...a, ...b}] continued from the properties already in [o]. *)
Definition spread (o : JSObject) (src : JSObject) : JSObject :=
  fold_left (fun o kv => set (fst kv) (snd kv) o) src o.

(** [Object.entries(o)] *)
Definition entries (o : JSObject) : list (string * JSValue) := o.

End Obj.

(** Reading a property of any value that is neither null nor undefined.
    None of the keys the program reads ([id], [start], [dateTime],
    [items], ...) is inherited from a prototype, bar [length]. *)
Definition get_prop (v : JSValue) (k : string) : JSValue :=
  match v with
  | VObj o => Obj.get o k
  | VArr items =>
      if String.eqb k "length" then VNum (Int (Z.of_nat (length items)))
      else VUndefined
  | VStr s =>
      if String.eqb k "length" then VNum (Int (Z.of_nat (Str.js_length s)))
      else VUndefined
  | _ => VUndefined
  end.

(** [v?.k] *)
Definition get_opt (v : JSValue) (k : string) : JSValue :=
  if nullish v then VUndefined else get_prop v k.

(* ===================================================================== *)
(** ** Argument parser (index.js, parseArgs) *)
(* ===================================================================== *)

Record ParsedArguments : Type := mkParsed {
  command : option string;          (* null until the first plain token *)
  positional : list string;
  options : JSObject
}.

(** [parsed.options[key] = value].  The value is a string or [true]; with
    the key [__proto__] the assignment reaches the prototype setter, which
    ignores a value that is not an object, so no property is created. *)
Definition set_option (parsed : ParsedArguments) (key : string) (value : JSValue)
  : ParsedArguments :=
  if String.eqb key "__proto__" then parsed
  else mkParsed (command parsed) (positional parsed)
                (Obj.set key value (options parsed)).

(** The [else] branch of the loop: the first plain token is the command,
    the later ones are positional. *)
Definition add_plain (parsed : ParsedArguments) (arg : string) : ParsedArguments :=
  match command parsed with
  | None => mkParsed (Some arg) (positional parsed) (options parsed)
  | Some _ => mkParsed (command parsed) (positional parsed ++ [arg]) (options parsed)
  end.

(** [const [key, value] = arg.slice(2).split('=', 2)] *)
Definition long_key_value (arg : string) : string * option string :=
  match Str.split "=" (Str.slice arg 2) 2 with
  | [] => ("", None)
  | [key] => (key, None)
  | key :: value :: _ => (key, Some value)
  end.

(** The loop of [parseArgs] from the token at the head of [args]; a
    consumed value token is skipped by recursing on the tail's tail. *)
Fixpoint parseArgs_loop (args : list string) (parsed : ParsedArguments)
  : ParsedArguments :=
  match args with
  | [] => parsed
  | arg :: rest =>
      if Str.startsWith arg "-" then
        if Str.startsWith arg "--" then
          let (key, value) := long_key_value arg in
          match value with
          | Some v => parseArgs_loop rest (set_option parsed key (VStr v))
          | None =>
              match rest with
              | next :: rest' =>
                  if negb (Str.startsWith next "-")
                  then parseArgs_loop rest' (set_option parsed key (VStr next))
                  else parseArgs_loop rest (set_option parsed key (VBool true))
              | [] => parseArgs_loop rest (set_option parsed key (VBool true))
              end
          end
        else
          let flag := Str.slice arg 1 in
          match rest with
          | next :: rest' =>
              if negb (Str.startsWith next "-")
              then parseArgs_loop rest' (set_option parsed flag (VStr next))
              else parseArgs_loop rest (set_option parsed flag (VBool true))
          | [] => parseArgs_loop rest (set_option parsed flag (VBool true))
          end
      else parseArgs_loop rest (add_plain parsed arg)
  end.

Definition parseArgs (args : list string) : ParsedArguments :=
  parseArgs_loop args (mkParsed None [] []).

(* ===================================================================== *)
(** ** parseInt *)
(* ===================================================================== *)

Module ParseInt.

(** WhiteSpace and LineTerminator code points, as UTF-8. *)
Definition whitespace : list string :=
  map Str.of_bytes
    [ [9]; [10]; [11]; [12]; [13]; [32];
      [194; 160]; [225; 154; 128];
      [226; 128; 128]; [226; 128; 129]; [226; 128; 130]; [226; 128; 131];
      [226; 128; 132]; [226; 128; 133]; [226; 128; 134]; [226; 128; 135];
      [226; 128; 136]; [226; 128; 137]; [226; 128; 138];
      [226; 128; 168]; [226; 128; 169]; [226; 128; 175];
      [226; 129; 159]; [227; 128; 128]; [239; 187; 191] ].

Definition leading_ws (s : string) : option string :=
  find (fun w => String.prefix w s) whitespace.

Fixpoint trim_start (fuel : nat) (s : string) : string :=
  match fuel with
  | O => s
  | S fuel' =>
      match leading_ws s with
      | Some w => trim_start fuel' (Str.slice s (String.length w))
      | None => s
      end
  end.

Definition digit_of (radix : Z) (c : ascii) : option Z :=
  let n := Z.of_nat (nat_of_ascii c) in
  let d :=
    if ((48 <=? n) && (n <=? 57))%Z then Some (n - 48)%Z
    else if ((97 <=? n) && (n <=? 122))%Z then Some (n - 87)%Z
    else if ((65 <=? n) && (n <=? 90))%Z then Some (n - 55)%Z
    else None in
  match d with
  | Some v => if (v <? radix)%Z then Some v else None
  | None => None
  end.

(** The longest prefix of digits of the radix; [None] when it is empty. *)
Fixpoint digits (radix : Z) (s : string) (acc : option Z) : option Z :=
  match s with
  | EmptyString => acc
  | String c s' =>
      match digit_of radix c with
      | Some d =>
          digits radix s'
            (Some (radix * match acc with Some a => a | None => 0%Z end + d)%Z)
      | None => acc
      end
  end.

Definition unsigned (s : string) : option Z :=
  if String.prefix "0x" s || String.prefix "0X" s
  then digits 16 (Str.slice s 2) None
  else digits 10 s None.

(** [parseInt(v)] with no radix argument. *)
Definition parseInt (v : JSValue) : JSNum :=
  let s := to_string v in
  let s := trim_start (String.length s) s in
  let (neg, body) :=
    match s with
    | String "-" s' => (true, s')
    | String "+" s' => (false, s')
    | _ => (false, s)
    end in
  match unsigned body with
  | Some z => Int (if neg then - z else z)%Z
  | None => NaN
  end.

End ParseInt.

Definition parseInt := ParseInt.parseInt.

(* ===================================================================== *)
(** ** Query string builder (index.js, buildQueryString) *)
(* ===================================================================== *)

Module Uri.

(** Characters [encodeURIComponent] leaves alone:
    letters, digits and [- _ . ! ~ * ' ( )]. *)
Definition unreserved (c : ascii) : bool :=
  let n := nat_of_ascii c in
  ((48 <=? n) && (n <=? 57) || (65 <=? n) && (n <=? 90)
   || (97 <=? n) && (n <=? 122))%nat
  || existsb (Ascii.eqb c) ["-"; "_"; "."; "!"; "~"; "*"; "'"; "("; ")"]%char.

Definition hex_digit (n : nat) : ascii :=
  if (n <? 10)%nat then ascii_of_nat (48 + n) else ascii_of_nat (55 + n).

Definition percent (c : ascii) : string :=
  let n := nat_of_ascii c in
  String "%" (String (hex_digit (n / 16)) (String (hex_digit (n mod 16)) "")).

Fixpoint encode (s : string) : string :=
  match s with
  | EmptyString => EmptyString
  | String c s' =>
      (if unreserved c then String c EmptyString else percent c) ++ encode s'
  end.

(** [encodeURIComponent(v)] *)
Definition encodeURIComponent (v : JSValue) : string := encode (to_string v).

End Uri.

Definition encodeURIComponent := Uri.encodeURIComponent.

(** One [key=value] part. *)
Definition query_part (key : string) (value : JSValue) : string :=
  encodeURIComponent (VStr key) ++ "=" ++ encodeURIComponent value.

(** The body of the loop: [parts.push(...)] under the null/undefined test. *)
Definition push_part (parts : list string) (entry : string * JSValue)
  : list string :=
  let (key, value) := entry in
  if negb (nullish value) then parts ++ [query_part key value] else parts.

(** The array [parts] when the loop ends. *)
Definition query_parts (params : JSObject) : list string :=
  fold_left push_part (Obj.entries params) [].

Definition buildQueryString (params : JSObject) : string :=
  Str.join "&" (query_parts params).

(** The query string as the specification words it: the entries that are
    neither null nor undefined, each percent-encoded, in the given order. *)
Definition query_of_entries (entries : list (string * JSValue)) : string :=
  Str.join "&"
    (map (fun kv => query_part (fst kv) (snd kv))
         (filter (fun kv => negb (nullish (snd kv))) entries)).

(* ===================================================================== *)
(** ** The host, effects and control flow *)
(* ===================================================================== *)

(** An [Error] object with the fields [request] attaches to it. *)
Record JSError : Type := mkError {
  message : string;
  err_status : JSValue;
  err_code : JSValue;
  err_data : JSValue
}.

(** [new Error(msg)] *)
Definition new_Error (msg : string) : JSError :=
  mkError msg VUndefined VUndefined VUndefined.

(** The TypeError of reading property [k] of null or undefined (V8's text). *)
Definition TypeError_read (v : JSValue) (k : string) : JSError :=
  new_Error ("Cannot read properties of " ++ to_string v
             ++ " (reading '" ++ k ++ "')").

(** What [authenticatedFetch] returns; [json] is the outcome of
    [response.json()]. *)
Record Response : Type := mkResponse {
  ok : bool;
  status : Z;
  statusText : string;
  json : JSError + JSValue
}.

Record Host : Type := mkHost {
  (** [typeof hasToken !== 'undefined'] *)
  token_system : bool;
  hasToken : string -> bool;
  (** credential name, URL; either throws or returns a response *)
  authenticatedFetch : string -> string -> JSError + Response;
  (** the time read by the n-th [new Date()], in milliseconds *)
  clock : nat -> Z;
  (** [process.env.DEBUG] is set *)
  env_DEBUG : bool;
  (** [toISOString] of a valid date *)
  iso_text : Z -> string;
  (** [new Date(v)]: the time value, [None] for an invalid date *)
  date_of : JSValue -> option Z;
  (** [new Date(y, m, d)] and [new Date(y, m, d + 1)] for the local
      calendar day of a time *)
  local_day_start : Z -> Z;
  local_day_end : Z -> Z;
  (** [new Date(v).toLocaleTimeString('en-US', {hour, minute, hour12})] *)
  time_text : JSValue -> string;
  (** [new Date(v).toLocaleDateString('en-US', {weekday, month, day, year})] *)
  date_text : JSValue -> string;
  (** [new Date(v).toLocaleString()] *)
  datetime_text : JSValue -> string;
  (** [error.stack] *)
  stack_text : JSError -> string
}.

(** What the process does to the outside, in order. *)
Inductive Effect : Type :=
| Log (line : string)                 (* console.log *)
| LogJson (v : JSValue)               (* console.log(JSON.stringify(v, null, 2)) *)
| Err (line : string)                 (* console.error *)
| ErrJson (v : JSValue)               (* console.error(JSON.stringify(v, null, 2)) *)
| CallHasToken (name : string)
| CallFetch (name url : string) (timeout : Z).

Record World : Type := mkWorld {
  trace : list Effect;
  clock_reads : nat
}.

Definition start_world : World := mkWorld [] 0.

(** How a piece of code ends: it returns, throws, ends the process with
    [process.exit], or leaves the modelled fragment of the language (a
    numeric comparison whose operand is a string, an array or an object). *)
Inductive Outcome (A : Type) : Type :=
| Returned (a : A)
| Thrown (e : JSError)
| Exited (code : Z)
| Unmodelled.
Arguments Returned {A} a.
Arguments Thrown {A} e.
Arguments Exited {A} code.
Arguments Unmodelled {A}.

Definition M (A : Type) : Type := World -> Outcome A * World.

Definition ret {A} (a : A) : M A := fun w => (Returned a, w).

Definition bind {A B} (m : M A) (k : A -> M B) : M B :=
  fun w =>
    match m w with
    | (Returned a, w') => k a w'
    | (Thrown e, w') => (Thrown e, w')
    | (Exited c, w') => (Exited c, w')
    | (Unmodelled, w') => (Unmodelled, w')
    end.

Notation "x <- m ;; k" := (bind m (fun x => k))
  (at level 61, m at next level, right associativity).
Notation "m ;; k" := (bind m (fun _ => k))
  (at level 61, right associativity).

Definition throw {A} (e : JSError) : M A := fun w => (Thrown e, w).

(** [process.exit(code)]: the process ends there; nothing after it runs
    and no [catch] block sees it. *)
Definition process_exit {A} (code : Z) : M A := fun w => (Exited code, w).

Definition unmodelled {A} : M A := fun w => (Unmodelled, w).

(** [try { m } catch (error) { handler error }] *)
Definition try_catch {A} (m : M A) (handler : JSError -> M A) : M A :=
  fun w =>
    match m w with
    | (Thrown e, w') => handler e w'
    | r => r
    end.

Definition emit (e : Effect) : M unit :=
  fun w => (Returned tt, mkWorld (trace w ++ [e]) (clock_reads w)).

Definition console_log (line : string) : M unit := emit (Log line).
Definition console_error (line : string) : M unit := emit (Err line).

(** Reading property [k] of [v]: a TypeError on null and undefined. *)
Definition prop (v : JSValue) (k : string) : M JSValue :=
  if nullish v then throw (TypeError_read v k) else ret (get_prop v k).

(** [v > n] for a number [n]. *)
Definition gt (v : JSValue) (n : Z) : M bool :=
  match v with
  | VNum (Int z) => ret (n <? z)%Z
  | VNum NaN | VUndefined => ret false
  | VNull => ret (n <? 0)%Z
  | VBool b => ret (n <? (if b then 1 else 0))%Z
  | VStr _ | VArr _ | VObj _ => unmodelled
  end.

(** The elements [for (const x of v)] visits; a TypeError when [v] is not
    iterable. *)
Definition iterate (v : JSValue) (expr : string) : M (list JSValue) :=
  match v with
  | VArr items => ret items
  | VStr s => ret (map VStr (Str.code_points s))
  | _ => throw (new_Error (expr ++ " is not iterable"))
  end.

(** [TimeClip]: a time value is a date only within 8.64e15 ms of the epoch. *)
Definition time_clip (t : JSNum) : option Z :=
  match t with
  | Int z => if (Z.abs z <=? 8640000000000000)%Z then Some z else None
  | NaN => None
  end.

(* ===================================================================== *)
(** ** Calendar API client (index.js, class CalendarClient) *)
(* ===================================================================== *)

Record Client : Type := mkClient { baseUrl : string }.

Definition token_help : string :=
  Str.join Str.nl
    [ "tokens:";
      "  google-calendar:";
      "    env: GOOGLE_CALENDAR_ACCESS_TOKEN";
      "    type: oauth";
      "    domains:";
      "      - www.googleapis.com";
      "      - " ++ Str.dquote ++ "*.googleapis.com" ++ Str.dquote;
      "    placement:";
      "      type: header";
      "      name: Authorization";
      "      format: " ++ Str.dquote ++ "Bearer {token}" ++ Str.dquote;
      "    refreshEnv: GOOGLE_CALENDAR_REFRESH_TOKEN";
      "    refreshUrl: https://oauth2.googleapis.com/token";
      "    clientIdEnv: GOOGLE_CALENDAR_CLIENT_ID";
      "    clientSecretEnv: GOOGLE_CALENDAR_CLIENT_SECRET" ].

Module CalendarClient.
Section WithHost.

Variable h : Host.

(** [new Date()] *)
Definition now : M Z :=
  fun w => (Returned (clock h (clock_reads w)),
            mkWorld (trace w) (S (clock_reads w))).

(** [d.toISOString()]: a RangeError on an invalid date. *)
Definition toISOString (d : option Z) : M string :=
  match d with
  | Some t => ret (iso_text h t)
  | None => throw (new_Error "Invalid time value")
  end.

(** [new CalendarClient()] *)
Definition constructor : M Client :=
  if negb (token_system h) then
    throw (new_Error "Secure token system not available. Use: pave-run gcal.js")
  else
    emit (CallHasToken "google-calendar") ;;
    if negb (hasToken h "google-calendar") then
      console_error "Google Calendar token not configured." ;;
      console_error "" ;;
      console_error "Add to ~/.pave/permissions.yaml:" ;;
      console_error token_help ;;
      console_error "" ;;
      console_error "Then set environment variables:" ;;
      console_error "  GOOGLE_CALENDAR_CLIENT_ID, GOOGLE_CALENDAR_CLIENT_SECRET, GOOGLE_CALENDAR_REFRESH_TOKEN" ;;
      throw (new_Error "Google Calendar token not configured")
    else ret (mkClient "https://www.googleapis.com/calendar/v3").

(** [response.json()] *)
Definition response_json (response : Response) : M JSValue :=
  match json response with
  | inl e => throw e
  | inr v => ret v
  end.

Definition request (c : Client) (endpoint : string) : M JSValue :=
  let url := baseUrl c ++ endpoint in
  try_catch
    (emit (CallFetch "google-calendar" url 15000) ;;
     match authenticatedFetch h "google-calendar" url with
     | inl e => throw e
     | inr response =>
         if negb (ok response) then
           error <- response_json response ;;
           inner <- prop error "error" ;;
           let msg :=
             js_or (get_opt inner "message")
                   (VStr ("HTTP " ++ Str.of_Z (status response) ++ ": "
                          ++ statusText response)) in
           throw (mkError (to_string msg)
                          (VNum (Int (status response)))
                          (get_opt inner "code")
                          error)
         else response_json response
     end)
    (fun error =>
       if Str.includes (message error) "Network permission denied"
       then throw (new_Error "Network permission required: --allow-network=googleapis.com")
       else throw error).

(** A parameter with a default value: [x = d] in a parameter list. *)
Definition default_arg (x d : JSValue) : JSValue :=
  match x with
  | VUndefined => d
  | _ => x
  end.

Definition listCalendars_params (options : JSObject) : JSObject :=
  Obj.literal
    [ ("maxResults", js_or (Obj.get options "maxResults") (VNum (Int 250)));
      ("showDeleted", js_or (Obj.get options "showDeleted") (VBool false));
      ("showHidden", js_or (Obj.get options "showHidden") (VBool false)) ].

Definition listCalendars (c : Client) (options : JSObject) : M JSValue :=
  let params := buildQueryString (listCalendars_params options) in
  request c ("/users/me/calendarList?" ++ params).

Definition getCalendar (c : Client) (calendarId : JSValue) : M JSValue :=
  request c ("/calendars/" ++ encodeURIComponent calendarId).

(** [options.singleEvents !== false] *)
Definition not_false (v : JSValue) : bool :=
  match v with
  | VBool false => false
  | _ => true
  end.

Definition listEvents_params (options : JSObject) : JSObject :=
  Obj.literal
    [ ("timeMin", Obj.get options "timeMin");
      ("timeMax", Obj.get options "timeMax");
      ("q", Obj.get options "query");
      ("maxResults", js_or (Obj.get options "maxResults") (VNum (Int 250)));
      ("singleEvents", VBool (not_false (Obj.get options "singleEvents")));
      ("orderBy", js_or (Obj.get options "orderBy") (VStr "startTime"));
      ("showDeleted", js_or (Obj.get options "showDeleted") (VBool false)) ].

Definition listEvents (c : Client) (calendarId : JSValue)
  (options : JSObject) : M JSValue :=
  let calendarId := default_arg calendarId (VStr "primary") in
  let params := buildQueryString (listEvents_params options) in
  request c ("/calendars/" ++ encodeURIComponent calendarId
             ++ "/events?" ++ params).

Definition getEvent (c : Client) (calendarId eventId : JSValue)
  : M JSValue :=
  request c ("/calendars/" ++ encodeURIComponent calendarId
             ++ "/events/" ++ encodeURIComponent eventId).

(** The options [getTodayEvents] hands to [listEvents]: the literal's own
    entries first, then the spread of the caller's options over them. *)
Definition getTodayEvents_options (timeMin timeMax : string)
  (options : JSObject) : JSObject :=
  Obj.spread
    (Obj.literal
       [ ("timeMin", VStr timeMin);
         ("timeMax", VStr timeMax);
         ("maxResults", js_or (Obj.get options "maxResults") (VNum (Int 50))) ])
    options.

Definition getTodayEvents (c : Client) (calendarId : JSValue)
  (options : JSObject) : M JSValue :=
  let calendarId := default_arg calendarId (VStr "primary") in
  t <- now ;;
  let startOfDay := time_clip (Int (local_day_start h t)) in
  let endOfDay := time_clip (Int (local_day_end h t)) in
  timeMin <- toISOString startOfDay ;;
  timeMax <- toISOString endOfDay ;;
  listEvents c calendarId (getTodayEvents_options timeMin timeMax options).

(** [now.getTime() + days * 24 * 60 * 60 * 1000] *)
Definition days_after (t : Z) (days : JSNum) : JSNum :=
  match days with
  | Int d => Int (t + d * 24 * 60 * 60 * 1000)
  | NaN => NaN
  end.

Definition getUpcomingEvents_options (timeMin timeMax : string)
  (options : JSObject) : JSObject :=
  Obj.spread
    (Obj.literal
       [ ("timeMin", VStr timeMin);
         ("timeMax", VStr timeMax);
         ("maxResults", js_or (Obj.get options "maxResults") (VNum (Int 100))) ])
    options.

Definition getUpcomingEvents (c : Client) (days : JSNum)
  (calendarId : JSValue) (options : JSObject) : M JSValue :=
  let calendarId := default_arg calendarId (VStr "primary") in
  t <- now ;;
  let endDate := time_clip (days_after t days) in
  timeMin <- toISOString (time_clip (Int t)) ;;
  timeMax <- toISOString endDate ;;
  listEvents c calendarId (getUpcomingEvents_options timeMin timeMax options).

Definition searchEvents_options (query : JSValue) (options : JSObject)
  : JSObject :=
  Obj.spread
    (Obj.literal
       [ ("q", query);
         ("timeMin", Obj.get options "timeMin");
         ("timeMax", Obj.get options "timeMax");
         ("maxResults", js_or (Obj.get options "maxResults") (VNum (Int 50))) ])
    options.

Definition searchEvents (c : Client) (query : JSValue)
  (options : JSObject) : M JSValue :=
  let calendarId := js_or (Obj.get options "calendar") (VStr "primary") in
  listEvents c calendarId (searchEvents_options query options).

End WithHost.
End CalendarClient.

(* ===================================================================== *)
(** ** Event formatting (index.js, formatTime, formatDate, EventFormatter) *)
(* ===================================================================== *)

(** The pictograms of the messages, byte for byte as index.js has them. *)
Module Mark.
Definition calendar : string := Str.of_bytes [239; 163; 191; 195; 188; 195; 172; 195; 150].
Definition pin : string := Str.of_bytes [239; 163; 191; 195; 188; 195; 172; 195; 167].
Definition people : string := Str.of_bytes [239; 163; 191; 195; 188; 195; 171; 226; 128; 162].
Definition warning : string :=
  Str.of_bytes [226; 128; 154; 195; 182; 226; 128; 160; 195; 148; 226; 136; 143; 195; 168].
Definition check : string := Str.of_bytes [226; 128; 154; 195; 186; 195; 150].
Definition lock : string := Str.of_bytes [239; 163; 191; 195; 188; 195; 174; 195; 170].
Definition mail : string := Str.of_bytes [239; 163; 191; 195; 188; 195; 172; 195; 159].
Definition cross : string := Str.of_bytes [226; 128; 154; 195; 185; 195; 165].
Definition bulb : string := Str.of_bytes [239; 163; 191; 195; 188; 195; 173; 194; 176].
Definition clock : string := Str.of_bytes [226; 128; 154; 195; 168; 226; 136; 158].
Definition lens : string := Str.of_bytes [239; 163; 191; 195; 188; 195; 174; 195; 167].
End Mark.

(** [v !== s] for a string literal [s] *)
Definition strict_ne (v : JSValue) (s : string) : bool :=
  match v with
  | VStr t => negb (String.eqb t s)
  | _ => true
  end.

(** [v - n] for a number [n] *)
Definition minus (v : JSValue) (n : Z) : M JSNum :=
  match v with
  | VNum (Int z) => ret (Int (z - n))
  | VNum NaN | VUndefined => ret NaN
  | VNull => ret (Int (0 - n))
  | VBool b => ret (Int ((if b then 1 else 0) - n))
  | VStr _ | VArr _ | VObj _ => unmodelled
  end.

Fixpoint for_each {A} (l : list A) (body : A -> M unit) : M unit :=
  match l with
  | [] => ret tt
  | x :: l' => body x ;; for_each l' body
  end.

Section Formatting.

Variable h : Host.

Definition formatTime (dateTimeStr : JSValue) : string :=
  if negb (truthy dateTimeStr) then "" else time_text h dateTimeStr.

Definition formatDate (dateTimeStr : JSValue) : string :=
  if negb (truthy dateTimeStr) then "" else date_text h dateTimeStr.

End Formatting.

Module EventFormatter.
Section WithHost.

Variable h : Host.

(** The object [format] returns, for an event that is neither null nor
    undefined. *)
Definition format_fields (event : JSValue) : JSObject :=
  let start := js_or (get_opt (get_prop event "start") "dateTime")
                     (get_opt (get_prop event "start") "date") in
  let end_ := js_or (get_opt (get_prop event "end") "dateTime")
                    (get_opt (get_prop event "end") "date") in
  let isAllDay := negb (truthy (get_opt (get_prop event "start") "dateTime")) in
  Obj.literal
    [ ("id", get_prop event "id");
      ("summary", js_or (get_prop event "summary") (VStr "(No title)"));
      ("description", js_or (get_prop event "description") (VStr ""));
      ("location", js_or (get_prop event "location") (VStr ""));
      ("start", start);
      ("end", end_);
      ("isAllDay", VBool isAllDay);
      ("status", get_prop event "status");
      ("created", get_prop event "created");
      ("updated", get_prop event "updated");
      ("htmlLink", get_prop event "htmlLink");
      ("attendees", js_or (get_prop event "attendees") (VArr []));
      ("attendeeCount",
         get_prop (js_or (get_prop event "attendees") (VArr [])) "length");
      ("organizer", get_prop event "organizer");
      ("recurrence", get_prop event "recurrence");
      ("reminders", get_prop event "reminders") ].

(** [EventFormatter.format(event)]; reading [event.start] is the first
    thing it does. *)
Definition format (event : JSValue) : M JSValue :=
  if nullish event then throw (TypeError_read event "start")
  else ret (VObj (format_fields event)).

Definition formatTimeRange (event : JSValue) : M string :=
  formatted <- format event ;;
  if truthy (get_prop formatted "isAllDay") then ret "All day"
  else
    let startTime := formatTime h (get_prop formatted "start") in
    let endTime := formatTime h (get_prop formatted "end") in
    ret (startTime ++ " - " ++ endTime).

(** [options.flag && test], the test evaluated only under the flag *)
Definition and_then (flag : JSValue) (test : M bool) : M bool :=
  if truthy flag then test else ret false.

Definition formatSummary (event : JSValue)
  (showLocation showAttendees showStatus : JSValue) : M string :=
  formatted <- format event ;;
  timeRange <- formatTimeRange event ;;
  let summary :=
    Str.padEnd timeRange 20 ++ " " ++ to_string (get_prop formatted "summary") in
  let summary :=
    if truthy showLocation && truthy (get_prop formatted "location")
    then summary ++ Str.nl ++ Str.padEnd "" 22 ++ " " ++ Mark.pin ++ " "
         ++ to_string (get_prop formatted "location")
    else summary in
  many <- and_then showAttendees (gt (get_prop formatted "attendeeCount") 0) ;;
  let summary :=
    if many
    then summary ++ Str.nl ++ Str.padEnd "" 22 ++ " " ++ Mark.people ++ " "
         ++ to_string (get_prop formatted "attendeeCount") ++ " attendee(s)"
    else summary in
  let summary :=
    if truthy showStatus && strict_ne (get_prop formatted "status") "confirmed"
    then summary ++ Str.nl ++ Str.padEnd "" 22 ++ " " ++ Mark.warning ++ "  "
         ++ to_string (get_prop formatted "status")
    else summary in
  ret summary.

End WithHost.
End EventFormatter.

(* ===================================================================== *)
(** ** Command handlers (index.js, printHelp ... showToday) *)
(* ===================================================================== *)

Section Handlers.

Variable h : Host.

Definition help_text : string :=
  Str.join Str.nl
  [
    "";
    Mark.calendar ++ " Google Calendar CLI - Secure Token Version";
    "";
    "USAGE:";
    "  node gcal.js <command> [options]";
    "";
    "COMMANDS:";
    "  auth                     Show authentication status";
    "  calendars               List all calendars";
    "  today                   Show today's events";
    "  upcoming [days]         Show upcoming events (default: 7 days)";
    "  list [calendar]         List events from specific calendar";
    "  search <query>          Search events";
    "  event <eventId>         Get specific event details";
    "";
    "OPTIONS:";
    "  -c, --calendar <id>     Calendar ID (default: primary)";
    "  -n, --max <count>       Maximum results (default: varies by command)";
    "  -q, --query <query>     Search query";
    "  -f, --from <date>       Start date (YYYY-MM-DD)";
    "  -t, --to <date>         End date (YYYY-MM-DD)";
    "  -d, --days <number>     Number of days for upcoming events";
    "  --summary               Show brief summary only";
    "  --full                  Show full event details";
    "  --json                  Output raw JSON";
    "";
    "EXAMPLES:";
    "  node gcal.js today --summary";
    "  node gcal.js upcoming 14 --calendar primary";
    "  node gcal.js search " ++ Str.dquote ++ "meeting" ++ Str.dquote ++ " --from 2026-01-01 --to 2026-01-31";
    "  node gcal.js calendars --json";
    "  node gcal.js list primary --max 20";
    "";
    "TOKEN SETUP:";
    "  Tokens are configured in ~/.pave/permissions.yaml";
    "  Environment variables needed:";
    "    GOOGLE_CALENDAR_CLIENT_ID       - OAuth client ID";
    "    GOOGLE_CALENDAR_CLIENT_SECRET   - OAuth client secret  ";
    "    GOOGLE_CALENDAR_REFRESH_TOKEN   - OAuth refresh token";
    "    GOOGLE_CALENDAR_ACCESS_TOKEN    - (optional) Current access token";
    "" ].

Definition printHelp : M unit := console_log help_text.

(** [args.options.k] *)
Definition opt (args : ParsedArguments) (k : string) : JSValue :=
  Obj.get (options args) k.

(** [args.options.max ? parseInt(args.options.max) : d] *)
Definition max_or (args : ParsedArguments) (d : Z) : JSValue :=
  if truthy (opt args "max") then VNum (parseInt (opt args "max"))
  else VNum (Int d).

(** [args.options.calendar || args.options.c || 'primary'] *)
Definition calendar_of (args : ParsedArguments) : JSValue :=
  js_or (js_or (opt args "calendar") (opt args "c")) (VStr "primary").

(** [items && items.length > 0] *)
Definition non_empty (items : JSValue) : M bool :=
  EventFormatter.and_then items (gt (get_prop items "length") 0).

(** [items.find(x => x.k)]: the first element whose property [k] is
    truthy, undefined when there is none. *)
Fixpoint find_with (k : string) (l : list JSValue) : M JSValue :=
  match l with
  | [] => ret VUndefined
  | x :: l' =>
      p <- prop x k ;;
      if truthy p then ret x else find_with k l'
  end.

Definition array_find (items : JSValue) (expr k : string) : M JSValue :=
  match items with
  | VArr l => find_with k l
  | _ => throw (new_Error (expr ++ ".find is not a function"))
  end.

Definition checkAuth : M unit :=
  try_catch
    (client <- CalendarClient.constructor h ;;
     calendars <- CalendarClient.listCalendars h client
                    (Obj.literal [("maxResults", VNum (Int 1))]) ;;
     console_log (Mark.check ++ " Authentication successful") ;;
     items <- prop calendars "items" ;;
     console_log (Mark.calendar ++ " Access to "
                  ++ to_string (js_or (get_opt items "length") (VNum (Int 0)))
                  ++ " calendar(s) confirmed") ;;
     console_log (Mark.lock ++ " Using secure token system (credentials not exposed to sandbox)") ;;
     some <- non_empty items ;;
     if some then
       primary <- array_find items "calendars.items" "primary" ;;
       if truthy primary
       then console_log (Mark.mail ++ " Primary calendar: "
                         ++ to_string (get_prop primary "summary"))
       else ret tt
     else ret tt)
    (fun error =>
       console_error (Mark.cross ++ " Authentication failed: " ++ message error) ;;
       (if Str.includes (message error) "not configured"
        then console_error (Mark.bulb ++ " Configure google-calendar token in ~/.pave/permissions.yaml")
        else ret tt) ;;
       process_exit 1).

(** The body of the loop over [calendars.items] *)
Definition print_calendar (args : ParsedArguments) (cal : JSValue) : M unit :=
  isPrimary <- prop cal "primary" ;;
  let primary := if truthy isPrimary then " (PRIMARY)" else "" in
  let access :=
    if truthy (get_prop cal "accessRole")
    then " [" ++ to_string (get_prop cal "accessRole") ++ "]" else "" in
  console_log (Mark.calendar ++ " " ++ to_string (get_prop cal "summary")
               ++ primary ++ access) ;;
  if negb (truthy (opt args "summary")) then
    console_log ("   ID: " ++ to_string (get_prop cal "id")) ;;
    (if truthy (get_prop cal "description")
     then console_log ("   Description: " ++ to_string (get_prop cal "description"))
     else ret tt) ;;
    (if truthy (get_prop cal "timeZone")
     then console_log ("   Timezone: " ++ to_string (get_prop cal "timeZone"))
     else ret tt) ;;
    console_log ""
  else ret tt.

Definition listCalendars (args : ParsedArguments) : M unit :=
  try_catch
    (client <- CalendarClient.constructor h ;;
     let options := Obj.literal [("maxResults", max_or args 250)] in
     calendars <- CalendarClient.listCalendars h client options ;;
     if truthy (opt args "json") then emit (LogJson calendars)
     else
       items <- prop calendars "items" ;;
       console_log (Mark.calendar ++ " Found "
                    ++ to_string (js_or (get_opt items "length") (VNum (Int 0)))
                    ++ " calendar(s):" ++ Str.nl) ;;
       some <- non_empty items ;;
       if some then
         cals <- iterate items "calendars.items" ;;
         for_each cals (print_calendar args)
       else ret tt)
    (fun error =>
       console_error (Mark.cross ++ " Failed to list calendars: " ++ message error) ;;
       process_exit 1).

(** The options every event listing passes to [formatSummary]:
    [showLocation: !args.options.summary], [showAttendees] and
    [showStatus: args.options.full]; the line is printed after the clock
    pictogram. *)
Definition print_event (args : ParsedArguments) (event : JSValue) : M unit :=
  summary <- EventFormatter.formatSummary h event
               (VBool (negb (truthy (opt args "summary"))))
               (opt args "full") (opt args "full") ;;
  console_log (Mark.clock ++ " " ++ summary ++ Str.nl).

Definition showToday (args : ParsedArguments) : M unit :=
  try_catch
    (client <- CalendarClient.constructor h ;;
     let calendarId := calendar_of args in
     events <- CalendarClient.getTodayEvents h client calendarId
                 (Obj.literal [("maxResults", max_or args 50)]) ;;
     if truthy (opt args "json") then emit (LogJson events)
     else
       t <- CalendarClient.now h ;;
       text <- CalendarClient.toISOString h (time_clip (Int t)) ;;
       let today := formatDate h (VStr text) in
       console_log (Mark.calendar ++ " Events for " ++ today ++ ":" ++ Str.nl) ;;
       items <- prop events "items" ;;
       some <- non_empty items ;;
       if some then
         evs <- iterate items "events.items" ;;
         for_each evs (print_event args)
       else console_log (Mark.calendar ++ " No events scheduled for today"))
    (fun error =>
       console_error (Mark.cross ++ " Failed to get today's events: " ++ message error) ;;
       process_exit 1).

(** [args.positional && args.positional[0]] *)
Definition positional0 (args : ParsedArguments) : JSValue :=
  match positional args with
  | [] => VUndefined
  | x :: _ => VStr x
  end.

(** The day count of [showUpcoming]: the first positional argument, else
    [--days], else [-d], else 7. *)
Definition days_of (args : ParsedArguments) : JSNum :=
  if truthy (positional0 args) then parseInt (positional0 args)
  else if truthy (opt args "days") then parseInt (opt args "days")
  else if truthy (opt args "d") then parseInt (opt args "d")
  else Int 7.

Definition maxDisplay_of (args : ParsedArguments) : Z :=
  if truthy (opt args "summary") then 10 else 50.

(** The loop of [showUpcoming] over the remaining events, with its two
    variables [currentDate] and [count]. *)
Fixpoint upcoming_loop (args : ParsedArguments) (events : list JSValue)
  (currentDate : string) (count : Z) : M unit :=
  match events with
  | [] => ret tt
  | event :: rest =>
      if (maxDisplay_of args <=? count)%Z then ret tt
      else
        start_ <- prop event "start" ;;
        let start := js_or (get_opt start_ "dateTime") (get_opt start_ "date") in
        let eventDate := formatDate h start in
        (if negb (String.eqb eventDate currentDate)
         then console_log ("--- " ++ eventDate ++ " ---")
         else ret tt) ;;
        print_event args event ;;
        upcoming_loop args rest eventDate (count + 1)
  end.

Definition showUpcoming (args : ParsedArguments) : M unit :=
  try_catch
    (client <- CalendarClient.constructor h ;;
     let days := days_of args in
     let calendarId := calendar_of args in
     events <- CalendarClient.getUpcomingEvents h client days calendarId
                 (Obj.literal [("maxResults", max_or args 100)]) ;;
     if truthy (opt args "json") then emit (LogJson events)
     else
       console_log (Mark.calendar ++ " Upcoming events (next "
                    ++ to_string (VNum days) ++ " days):" ++ Str.nl) ;;
       items <- prop events "items" ;;
       some <- non_empty items ;;
       if some then
         let maxDisplay := maxDisplay_of args in
         evs <- iterate items "events.items" ;;
         upcoming_loop args evs "" 0 ;;
         more <- gt (get_prop items "length") maxDisplay ;;
         if more then
           rest <- minus (get_prop items "length") maxDisplay ;;
           console_log ("... and " ++ to_string (VNum rest) ++ " more events") ;;
           console_log (Mark.bulb ++ " Use --max to increase limit or remove --summary for more details")
         else ret tt
       else console_log (Mark.calendar ++ " No upcoming events in the next "
                         ++ to_string (VNum days) ++ " days"))
    (fun error =>
       console_error (Mark.cross ++ " Failed to get upcoming events: " ++ message error) ;;
       process_exit 1).

(** [options.k = new Date(v).toISOString()] when [v] is truthy *)
Definition set_time (k : string) (v : JSValue) (options : JSObject) : M JSObject :=
  if truthy v then
    text <- CalendarClient.toISOString h (date_of h v) ;;
    ret (Obj.set k (VStr text) options)
  else ret options.

Definition print_match (args : ParsedArguments) (event : JSValue) : M unit :=
  start_ <- prop event "start" ;;
  let start := js_or (get_opt start_ "dateTime") (get_opt start_ "date") in
  let eventDate := formatDate h start in
  summary <- EventFormatter.formatSummary h event
               (VBool (negb (truthy (opt args "summary"))))
               (opt args "full") (opt args "full") ;;
  console_log (Mark.calendar ++ " " ++ eventDate) ;;
  console_log (Mark.clock ++ " " ++ summary ++ Str.nl).

Definition searchEvents (args : ParsedArguments) : M unit :=
  try_catch
    (match positional args with
     | [] =>
         console_error (Mark.cross ++ " Search query required") ;;
         console_error ("Usage: node gcal.js search " ++ Str.dquote ++ "meeting" ++ Str.dquote) ;;
         process_exit 1
     | query :: _ =>
         client <- CalendarClient.constructor h ;;
         let calendarId := calendar_of args in
         let options := Obj.literal [("calendar", calendarId);
                                     ("maxResults", max_or args 50)] in
         options <- set_time "timeMin" (js_or (opt args "from") (opt args "f")) options ;;
         options <- set_time "timeMax" (js_or (opt args "to") (opt args "t")) options ;;
         events <- CalendarClient.searchEvents h client (VStr query) options ;;
         if truthy (opt args "json") then emit (LogJson events)
         else
           console_log (Mark.lens ++ " Search results for " ++ Str.dquote ++ query
                        ++ Str.dquote ++ ":" ++ Str.nl) ;;
           items <- prop events "items" ;;
           some <- non_empty items ;;
           if some then
             evs <- iterate items "events.items" ;;
             for_each evs (print_match args)
           else console_log (Mark.calendar ++ " No events found matching "
                             ++ Str.dquote ++ query ++ Str.dquote)
     end)
    (fun error =>
       console_error (Mark.cross ++ " Search failed: " ++ message error) ;;
       process_exit 1).

(** [attendees.slice(0, 10)], for the loop over it *)
Definition slice10 (attendees : JSValue) : M (list JSValue) :=
  match attendees with
  | VArr l => ret (firstn 10 l)
  | VStr _ => unmodelled
  | _ => throw (new_Error "formatted.attendees.slice is not a function")
  end.

Definition print_attendee (attendee : JSValue) : M unit :=
  displayName <- prop attendee "displayName" ;;
  let name := js_or displayName (get_prop attendee "email") in
  let status := js_or (get_prop attendee "responseStatus") (VStr "unknown") in
  console_log ("  - " ++ to_string name ++ " (" ++ to_string status ++ ")").

Definition showEvent (args : ParsedArguments) : M unit :=
  try_catch
    (match positional args with
     | [] =>
         console_error (Mark.cross ++ " Event ID required") ;;
         console_error "Usage: node gcal.js event <eventId>" ;;
         process_exit 1
     | eventId :: _ =>
         client <- CalendarClient.constructor h ;;
         let calendarId := calendar_of args in
         event <- CalendarClient.getEvent h client calendarId (VStr eventId) ;;
         if truthy (opt args "json") then emit (LogJson event)
         else
           formatted <- EventFormatter.format event ;;
           console_log (Mark.calendar ++ " Event Details:" ++ Str.nl) ;;
           console_log ("Title: " ++ to_string (get_prop formatted "summary")) ;;
           timeRange <- EventFormatter.formatTimeRange h event ;;
           console_log ("Time: " ++ timeRange) ;;
           console_log ("Date: " ++ formatDate h (get_prop formatted "start")) ;;
           (if truthy (get_prop formatted "location")
            then console_log ("Location: " ++ to_string (get_prop formatted "location"))
            else ret tt) ;;
           (if truthy (get_prop formatted "description")
            then console_log ("Description: " ++ to_string (get_prop formatted "description"))
            else ret tt) ;;
           let attendees := get_prop formatted "attendees" in
           some <- gt (get_prop attendees "length") 0 ;;
           (if some then
              console_log (Str.nl ++ "Attendees ("
                           ++ to_string (get_prop attendees "length") ++ "):") ;;
              shown <- slice10 attendees ;;
              for_each shown print_attendee ;;
              more <- gt (get_prop attendees "length") 10 ;;
              if more then
                rest <- minus (get_prop attendees "length") 10 ;;
                console_log ("  ... and " ++ to_string (VNum rest) ++ " more")
              else ret tt
            else ret tt) ;;
           console_log (Str.nl ++ "Status: " ++ to_string (get_prop formatted "status")) ;;
           console_log ("Created: " ++ datetime_text h (get_prop formatted "created")) ;;
           console_log ("Updated: " ++ datetime_text h (get_prop formatted "updated")) ;;
           if truthy (get_prop formatted "htmlLink")
           then console_log ("Link: " ++ to_string (get_prop formatted "htmlLink"))
           else ret tt
     end)
    (fun error =>
       console_error (Mark.cross ++ " Failed to get event: " ++ message error) ;;
       process_exit 1).

(** [parsed.command === name] *)
Definition command_is (parsed : ParsedArguments) (name : string) : bool :=
  match command parsed with
  | Some c => String.eqb c name
  | None => false
  end.

(** [!parsed.command] *)
Definition no_command (parsed : ParsedArguments) : bool :=
  match command parsed with
  | Some c => String.eqb c ""
  | None => true
  end.

(** [parsed.options.days = '365'] *)
Definition force_year (parsed : ParsedArguments) : ParsedArguments :=
  mkParsed (command parsed) (positional parsed)
           (Obj.set "days" (VStr "365") (options parsed)).

(** The [switch] of [main]. *)
Definition dispatch (parsed : ParsedArguments) : M unit :=
  if command_is parsed "auth" then checkAuth
  else if command_is parsed "calendars" then listCalendars parsed
  else if command_is parsed "today" then showToday parsed
  else if command_is parsed "upcoming" then showUpcoming parsed
  else if command_is parsed "search" then searchEvents parsed
  else if command_is parsed "event" then showEvent parsed
  else if command_is parsed "list" then showUpcoming (force_year parsed)
  else
    console_error (Mark.cross ++ " Unknown command: "
                   ++ match command parsed with Some c => c | None => "null" end) ;;
    console_error (Mark.bulb ++ " Run: node gcal.js help") ;;
    process_exit 1.

(** The object [main] prints for a failure under [--json]. *)
Definition error_envelope (error : JSError) : JSValue :=
  VObj (Obj.literal [("error", VStr (message error));
                     ("status", err_status error);
                     ("data", err_data error)]).

Definition main (argv : list string) : M unit :=
  let parsed := parseArgs argv in
  if no_command parsed || command_is parsed "help" || truthy (opt parsed "help")
  then printHelp
  else
    try_catch (dispatch parsed)
      (fun error =>
         console_error (Mark.cross ++ " Execution failed: " ++ message error) ;;
         (if Str.includes (message error) "Secure token system"
          then console_error (Mark.bulb ++ " This script must run in sandbox: pave-run gcal.js")
          else ret tt) ;;
         (if truthy (opt parsed "json") then emit (ErrJson (error_envelope error))
          else if env_DEBUG h then console_error ("Stack trace: " ++ stack_text h error)
          else ret tt) ;;
         process_exit 1).

(** The whole process on an argument list: how it ends and what it did. *)
Definition run (argv : list string) : Outcome unit * list Effect :=
  let (o, w) := main argv start_world in (o, trace w).

End Handlers.

(** The exit status of the process: 0 when [main] returns, the argument of
    [process.exit], 1 for an uncaught exception. *)
Definition exit_status (o : Outcome unit) : option Z :=
  match o with
  | Returned _ => Some 0%Z
  | Exited code => Some code
  | Thrown _ => Some 1%Z
  | Unmodelled => None
  end.

(* ===================================================================== *)
(** ** A concrete host, for running the program on examples *)
(* ===================================================================== *)

Module Demo.

(** A successful response with the given body. *)
Definition ok_response (body : JSValue) : JSError + Response :=
  inr (mkResponse true 200 "OK" (inr body)).

(** A failure response with the error body the service sends. *)
Definition error_response (code : Z) (text msg : string) : JSError + Response :=
  inr (mkResponse false code text
         (inr (VObj [("error", VObj [("code", VNum (Int code));
                                     ("message", VStr msg)])]))).

(** The clock starts on 2026-01-01T00:00:00Z and advances one millisecond
    per reading; the day is the UTC day; dates print as their source
    text, and [toISOString] as the millisecond count after [@]. *)
Definition host (fetch : string -> JSError + Response) : Host :=
  {| token_system := true;
     hasToken := fun _ => true;
     authenticatedFetch := fun _ url => fetch url;
     clock := fun n => (1767225600000 + Z.of_nat n)%Z;
     env_DEBUG := false;
     iso_text := fun t => "@" ++ Str.of_Z t;
     date_of := fun _ => None;
     local_day_start := fun t => (t - t mod 86400000)%Z;
     local_day_end := fun t => (t - t mod 86400000 + 86400000)%Z;
     time_text := to_string;
     date_text := to_string;
     datetime_text := to_string;
     stack_text := message |}.

(** A timed event with the given identifier, title and status. *)
Definition event (id title : string) (status : JSValue) : JSValue :=
  VObj [("id", VStr id); ("summary", VStr title);
        ("start", VObj [("dateTime", VStr "2026-01-02T10:00:00Z")]);
        ("end", VObj [("dateTime", VStr "2026-01-02T11:00:00Z")]);
        ("status", status)].

Definition meeting : JSValue := event "e1" "Standup" (VStr "confirmed").

(** An all-day event whose record carries no status. *)
Definition lunch : JSValue :=
  VObj [("id", VStr "e2"); ("summary", VStr "Lunch");
        ("start", VObj [("date", VStr "2026-01-02")]);
        ("end", VObj [("date", VStr "2026-01-03")])].

(** [n] copies of one confirmed event. *)
Definition events (n : nat) : JSValue :=
  VObj [("items", VArr (repeat (event "e" "Standup" (VStr "confirmed")) n))].

(** A mapping built by inserting [b], then the array index [1]. *)
Definition index_key_params : list (string * JSValue) :=
  [("b", VNum (Int 1)); ("1", VNum (Int 2))].

(** The host of the scenario: the service returns 23 events. *)
Definition busy : Host := host (fun _ => ok_response (events 23)).

(** [upcoming 14 --summary] *)
Definition busy_args : ParsedArguments :=
  parseArgs ["upcoming"; "14"; "--summary"].

(** The state once the 23 events are fetched. *)
Definition busy_fetched : World :=
  mkWorld
    [ CallHasToken "google-calendar";
      CallFetch "google-calendar"
        ("https://www.googleapis.com/calendar/v3/calendars/primary/events"
         ++ "?timeMin=%401767225600000&timeMax=%401768435200000"
         ++ "&maxResults=100&singleEvents=true&orderBy=startTime&showDeleted=false")
        15000 ]
    1.

(** The options of a caller that asks for no results at all. *)
Definition zero_max : JSObject := Obj.literal [("maxResults", VNum (Int 0))].

Definition plain_key_params : list (string * JSValue) :=
  [("timeMin", VUndefined); ("q", VStr "a=b c");
   ("maxResults", VNum (Int 0)); ("showDeleted", VBool false);
   ("pageToken", VNull)].

End Demo.

(* ===================================================================== *)
(** ** Vocabulary of the specification *)
(* ===================================================================== *)

Definition keys (o : JSObject) : list string := map fst o.

(** The value of an option: a string or boolean [true]. *)
Definition option_value (v : JSValue) : Prop :=
  v = VBool true \/ exists s, v = VStr s.

(** A token that is neither a long nor a short option. *)
Definition plain (x : string) : Prop := Str.startsWith x "-" = false.

(** A well-formed ParsedArguments over the argument list [args]: the option
    mapping sends distinct keys to strings or [true]; the command and the
    positional arguments are plain tokens of [args]. *)
Definition well_formed (args : list string) (p : ParsedArguments) : Prop :=
  Forall option_value (map snd (options p))
  /\ NoDup (keys (options p))
  /\ (forall c, command p = Some c -> In c args /\ plain c)
  /\ Forall (fun x => In x args /\ plain x) (positional p).

(** The character [c] occurs in [s]. *)
Fixpoint has_char (c : ascii) (s : string) : bool :=
  match s with
  | EmptyString => false
  | String c' s' => Ascii.eqb c' c || has_char c s'
  end.

(** The shapes of the data model (spec, section 3).  A start or end is
    absent or an object whose [dateTime] and [date] are texts or absent;
    the attendees are absent or a sequence. *)
Definition text_or_absent (v : JSValue) : bool :=
  match v with
  | VStr _ | VUndefined => true
  | _ => false
  end.

Definition time_ref (v : JSValue) : bool :=
  match v with
  | VUndefined => true
  | VObj o => text_or_absent (Obj.get o "dateTime") && text_or_absent (Obj.get o "date")
  | _ => false
  end.

Definition attendee_list (v : JSValue) : bool :=
  match v with
  | VUndefined | VArr _ => true
  | _ => false
  end.

Definition EventRecord (e : JSValue) : bool :=
  match e with
  | VObj o =>
      time_ref (Obj.get o "start") && time_ref (Obj.get o "end")
      && attendee_list (Obj.get o "attendees")
  | _ => false
  end.

(** A NormalizedEvent with its [start] and [end] emptied and marked
    all-day: what normalizing a NormalizedEvent yields. *)
Definition without_times (n : JSObject) : JSObject :=
  Obj.set "isAllDay" (VBool true)
    (Obj.set "end" VUndefined (Obj.set "start" VUndefined n)).

(** The JSON-compatible shape of an object: [JSON.stringify] leaves out the
    properties whose value is undefined. *)
Definition json_shape (o : JSObject) : JSObject :=
  filter (fun kv => match snd kv with VUndefined => false | _ => true end) o.

Fixpoint distinct (l : list string) : bool :=
  match l with
  | [] => true
  | x :: l' => negb (existsb (String.eqb x) l') && distinct l'
  end.

(** The request parameters carry the limit 250, and so does the query
    string built from them. *)
Definition sends_250 (params : JSObject) : Prop :=
  Obj.get params "maxResults" = VNum (Int 250)
  /\ In "maxResults=250" (query_parts params).

(** The two lines [search] prints when the query is missing. *)
Definition search_usage : list Effect :=
  [ Err (Mark.cross ++ " Search query required");
    Err ("Usage: node gcal.js search " ++ Str.dquote ++ "meeting" ++ Str.dquote) ].

(** An effect that reaches outside the process: a call of one of the two
    host capabilities. *)
Definition capability_call (e : Effect) : bool :=
  match e with
  | CallHasToken _ | CallFetch _ _ _ => true
  | _ => false
  end.

(** What [list <calendar>] does when the calendar name is not a number. *)
Definition list_failure : list Effect :=
  [ CallHasToken "google-calendar";
    Err (Mark.cross ++ " Failed to get upcoming events: Invalid time value") ].

(** The JSON error envelope of [main] is an [ErrJson] effect. *)
Definition is_envelope (e : Effect) : bool :=
  match e with
  | ErrJson _ => true
  | _ => false
  end.

(** The address [event abc] fetches. *)
Definition event_abc_url : string :=
  "https://www.googleapis.com/calendar/v3/calendars/primary/events/abc".

(** What [event abc] does when the request fails with [error]. *)
Definition event_failure (error : JSError) : list Effect :=
  [ CallHasToken "google-calendar";
    CallFetch "google-calendar" event_abc_url 15000;
    Err (Mark.cross ++ " Failed to get event: " ++ message error) ].

(** The display of [upcoming]: an event is displayed by one [console.log]
    that starts with the clock pictogram; the notice of undisplayed events
    starts with [... and]. *)
Definition is_event_line (e : Effect) : bool :=
  match e with
  | Log line => String.prefix (Mark.clock ++ " ") line
  | _ => false
  end.

Definition displayed (out : list Effect) : nat :=
  length (filter is_event_line out).

Definition is_notice (e : Effect) : bool :=
  match e with
  | Log line => String.prefix "... and " line
  | _ => false
  end.

Definition more_notice (n : Z) : Effect :=
  Log ("... and " ++ Str.of_Z n ++ " more events").

(** The continuation line that shows a status. *)
Definition status_line (status : JSValue) : string :=
  Str.nl ++ Str.padEnd "" 22 ++ " " ++ Mark.warning ++ "  " ++ to_string status.

(** Number of occurrences of a character in a text. *)
Fixpoint count_char (c : ascii) (s : string) : nat :=
  match s with
  | EmptyString => 0
  | String c' s' => (if Ascii.eqb c' c then 1 else 0) + count_char c s'
  end.

(** The entries of a mapping that [buildQueryString] keeps. *)
Definition sent_entries (params : JSObject) : list (string * JSValue) :=
  filter (fun kv => negb (nullish (snd kv))) (Obj.entries params).

(** Reading percent-encoding back: [%XY] is the byte with the hexadecimal
    digits [X] and [Y], any other character is itself.  The program has no
    decoder; this one states what a receiver of the query string reads. *)
Definition hex_value (c : ascii) : nat :=
  let n := nat_of_ascii c in
  if (n <? 58)%nat then n - 48 else n - 55.

Fixpoint percent_decode (s : string) : string :=
  match s with
  | EmptyString => EmptyString
  | String c s' =>
      if Ascii.eqb c "%" then
        match s' with
        | String x (String y s'') =>
            String (ascii_of_nat (16 * hex_value x + hex_value y)) (percent_decode s'')
        | _ => String c (percent_decode s')
        end
      else String c (percent_decode s')
  end.

(** The one call [request] makes for an endpoint. *)
Definition fetch_of (c : Client) (endpoint : string) : Effect :=
  CallFetch "google-calendar" (baseUrl c ++ endpoint) 15000.

(** The message [request] falls back on when the error body names none. *)
Definition http_message (response : Response) : string :=
  "HTTP " ++ Str.of_Z (status response) ++ ": " ++ statusText response.


(** The four parameters every event listing carries. *)
Definition listing_defaults : list string :=
  ["maxResults"; "singleEvents"; "orderBy"; "showDeleted"].

(** The keys of a NormalizedEvent, in the order [format] writes them. *)
Definition normalized_keys : list string :=
  [ "id"; "summary"; "description"; "location"; "start"; "end"; "isAllDay";
    "status"; "created"; "updated"; "htmlLink"; "attendees"; "attendeeCount";
    "organizer"; "recurrence"; "reminders" ].

(** The continuation lines of [formatSummary]. *)
Definition location_line (location : JSValue) : string :=
  Str.nl ++ Str.padEnd "" 22 ++ " " ++ Mark.pin ++ " " ++ to_string location.

Definition attendees_line (count : JSValue) : string :=
  Str.nl ++ Str.padEnd "" 22 ++ " " ++ Mark.people ++ " " ++ to_string count
  ++ " attendee(s)".

(** The attendees of an event record: its list, empty when absent. *)
Definition attendees_of (event : JSValue) : list JSValue :=
  match get_prop event "attendees" with
  | VArr l => l
  | _ => []
  end.

(** *** Disciplines of a computation

    What a piece of the program may add to the trace, and how it may end.
    Each discipline is kept by sequencing, so it is proved once per
    function and carried up to [main]. *)

Definition is_err (e : Effect) : bool :=
  match e with
  | Err _ => true
  | _ => false
  end.

Definition is_fetch (e : Effect) : bool :=
  match e with
  | CallFetch _ _ _ => true
  | _ => false
  end.

(** A computation that only appends to the trace; when it returns it has
    printed nothing on standard error, when it ends the process the
    status is 1 and it has printed on standard error; it never prints the
    JSON error envelope. *)
Definition orderly {A} (m : M A) : Prop :=
  forall w, exists out,
    trace (snd (m w)) = (trace w ++ out)%list
    /\ forallb (fun e => negb (is_envelope e)) out = true
    /\ match fst (m w) with
       | Returned _ => existsb is_err out = false
       | Exited code => code = 1%Z /\ existsb is_err out = true
       | _ => True
       end.

(** An orderly computation that never returns. *)
Definition fails {A} (m : M A) : Prop :=
  forall w, exists out,
    trace (snd (m w)) = (trace w ++ out)%list
    /\ forallb (fun e => negb (is_envelope e)) out = true
    /\ match fst (m w) with
       | Returned _ => False
       | Exited code => code = 1%Z /\ existsb is_err out = true
       | _ => True
       end.

(** The rest of a failure, after its first line on standard error: it
    never returns, and ends the process with status 1 only. *)
Definition stops {A} (m : M A) : Prop :=
  forall w, exists out,
    trace (snd (m w)) = (trace w ++ out)%list
    /\ forallb (fun e => negb (is_envelope e)) out = true
    /\ match fst (m w) with
       | Returned _ => False
       | Exited code => code = 1%Z
       | _ => True
       end.

(** A step inside a failure: it may print anything but the envelope. *)
Definition framed {A} (m : M A) : Prop :=
  forall w, exists out,
    trace (snd (m w)) = (trace w ++ out)%list
    /\ forallb (fun e => negb (is_envelope e)) out = true
    /\ match fst (m w) with
       | Exited code => code = 1%Z
       | _ => True
       end.

(** A computation that calls neither host capability. *)
Definition offline {A} (m : M A) : Prop :=
  forall w, exists out,
    trace (snd (m w)) = (trace w ++ out)%list
    /\ existsb capability_call out = false.

(** A computation out of which no exception comes. *)
Definition caught {A} (m : M A) : Prop :=
  forall w e, fst (m w) <> Thrown e.

Definition is_token_check (e : Effect) : bool :=
  match e with
  | CallHasToken _ => true
  | _ => false
  end.

(** A computation that makes at most one request and does not ask for
    the credential. *)
Definition single {A} (m : M A) : Prop :=
  forall w, exists out,
    trace (snd (m w)) = (trace w ++ out)%list
    /\ existsb is_token_check out = false
    /\ length (filter is_fetch out) <= 1.

(** The order of the capability calls in a list of effects: at most one
    [hasToken], then at most one [authenticatedFetch], which is made only
    when the token system is there and has the credential. *)
Definition credential_first (h : Host) (out : list Effect) : Prop :=
  exists before after : list Effect,
    out = (before ++ after)%list
    /\ existsb is_fetch before = false
    /\ length (filter is_token_check before) <= 1
    /\ existsb is_token_check after = false
    /\ length (filter is_fetch after) <= 1
    /\ (existsb is_fetch after = true ->
        token_system h = true /\ hasToken h "google-calendar" = true
        /\ existsb is_token_check before = true).

Definition net_discipline (h : Host) {A} (m : M A) : Prop :=
  forall w, exists out,
    trace (snd (m w)) = (trace w ++ out)%list /\ credential_first h out.

(** The delimiters of a request path: how many [/], [?] and [#] it
    holds. *)
Definition delimiters (s : string) : nat * nat * nat :=
  (count_char "/" s, count_char "?" s, count_char "#" s).

(** ** Standard output under [--json] *)

Definition is_stdout (e : Effect) : bool :=
  match e with
  | Log _ | LogJson _ => true
  | _ => false
  end.

(** The commands that print a listing or an event: all but [auth] and
    [help]. *)
Definition listing_command (parsed : ParsedArguments) : bool :=
  existsb (command_is parsed)
          ["calendars"; "today"; "upcoming"; "search"; "event"; "list"].

(** [body] is the decoded body of the successful response to the request
    for [endpoint]. *)
Definition body_of_fetch (h : Host) (c : Client) (endpoint : string)
  (body : JSValue) : Prop :=
  exists response,
    authenticatedFetch h "google-calendar" (baseUrl c ++ endpoint) = inr response
    /\ ok response = true /\ json response = inr body.

(** A computation that adds nothing to the trace. *)
Definition silent {A} (m : M A) : Prop :=
  forall w, trace (snd (m w)) = trace w.

(** A result after which standard output is as it was. *)
Definition mute_from {A} (w : World) (r : Outcome A * World) : Prop :=
  exists out,
    trace (snd r) = (trace w ++ out)%list /\ existsb is_stdout out = false.

(** A computation that never returns and leaves standard output alone. *)
Definition mute_fail {A} (m : M A) : Prop :=
  forall w, mute_from w (m w) /\ forall a, fst (m w) <> Returned a.

(** A client operation: when it returns, it has made one request and
    returns the body of the response. *)
Definition delivers (h : Host) (m : M JSValue) : Prop :=
  forall w,
    match fst (m w) with
    | Returned body =>
        exists c endpoint,
          trace (snd (m w)) = (trace w ++ [fetch_of c endpoint])%list
          /\ body_of_fetch h c endpoint body
    | _ => mute_from w (m w)
    end.

(** The rest of a handler once it has its client. *)
Definition prints_body (h : Host) (m : M unit) : Prop :=
  forall w,
    match fst (m w) with
    | Returned _ =>
        exists c endpoint body,
          trace (snd (m w)) = (trace w ++ [fetch_of c endpoint; LogJson body])%list
          /\ body_of_fetch h c endpoint body
    | _ => mute_from w (m w)
    end.

(** A handler under [--json]. *)
Definition json_only (h : Host) (m : M unit) : Prop :=
  forall w,
    match fst (m w) with
    | Returned _ =>
        exists c endpoint body,
          trace (snd (m w))
          = (trace w ++ [CallHasToken "google-calendar"; fetch_of c endpoint;
                         LogJson body])%list
          /\ body_of_fetch h c endpoint body
    | _ => mute_from w (m w)
    end.

(** ** The attendees of [event] *)

(** The line [showEvent] prints for one attendee. *)
Definition attendee_line (attendee : JSValue) : Effect :=
  Log ("  - "
       ++ to_string (js_or (get_prop attendee "displayName") (get_prop attendee "email"))
       ++ " ("
       ++ to_string (js_or (get_prop attendee "responseStatus") (VStr "unknown"))
       ++ ")").

Definition is_attendee_line (e : Effect) : bool :=
  match e with
  | Log line => String.prefix "  - " line
  | _ => false
  end.

(** The line that stands for the attendees that are not shown. *)
Definition attendees_notice (n : Z) : Effect :=
  Log ("  ... and " ++ to_string (VNum (Int n)) ++ " more").

Definition is_attendees_notice (e : Effect) : bool :=
  match e with
  | Log line => String.prefix "  ... and " line
  | _ => false
  end.

(** A computation that returns [a] after adding [lines] to the trace,
    whatever the state it starts in. *)
Definition prints {A} (m : M A) (a : A) (lines : list Effect) : Prop :=
  forall w,
    fst (m w) = Returned a
    /\ trace (snd (m w)) = (trace w ++ lines)%list
    /\ clock_reads (snd (m w)) = clock_reads w.

(** An event with twelve attendees, and a host whose service returns
    it. *)
Definition crowded_event : JSValue :=
  VObj [("id", VStr "p1"); ("summary", VStr "Review");
        ("start", VObj [("dateTime", VStr "2026-01-02T10:00:00Z")]);
        ("end", VObj [("dateTime", VStr "2026-01-02T11:00:00Z")]);
        ("attendees", VArr (repeat (VObj [("email", VStr "guest@example.com")]) 12))].

Definition crowded : Host := Demo.host (fun _ => Demo.ok_response crowded_event).

(** Two bodies of one [try] block after which the same requests have
    been made. *)
Definition same_requests {A} (m m' : M A) (handler : JSError -> M A) : Prop :=
  forall w,
    filter is_fetch (trace (snd (try_catch m handler w)))
    = filter is_fetch (trace (snd (try_catch m' handler w))).

(* ===================================================================== *)
(** * Properties *)
(* ===================================================================== *)

(** ** Objects: keys and values under [Obj.set] *)

Lemma lookup_None (k : string) (o : JSObject) :
  Obj.lookup k o = None <-> ~ In k (keys o).
Proof.
  induction o as [|[k' v] o IH]; simpl.
  - tauto.
  - destruct (String.eqb_spec k k') as [->|Hne].
    + split; [discriminate | intros H; exfalso; apply H; now left].
    + rewrite IH. split.
      * intros H [E|I]; [congruence | tauto].
      * intros H I. apply H. now right.
Qed.

Lemma keys_replace (k : string) (v : JSValue) (o : JSObject) :
  keys (Obj.replace k v o) = keys o.
Proof.
  induction o as [|[k' v'] o IH]; simpl; [reflexivity|].
  destruct (String.eqb k k'); simpl; [reflexivity | now rewrite IH].
Qed.

Lemma values_replace (P : JSValue -> Prop) (k : string) (v : JSValue) (o : JSObject) :
  P v -> Forall P (map snd o) -> Forall P (map snd (Obj.replace k v o)).
Proof.
  intros Hv. induction o as [|[k' v'] o IH]; simpl; intros H; [constructor|].
  inversion H; subst.
  destruct (String.eqb k k'); simpl; constructor; auto.
Qed.

Lemma In_keys_insert_index (n : N) (k x : string) (v : JSValue) (o : JSObject) :
  In x (keys (Obj.insert_index n k v o)) <-> x = k \/ In x (keys o).
Proof.
  induction o as [|[k' v'] o IH]; simpl.
  - intuition congruence.
  - destruct (Obj.array_index k') as [n'|]; [destruct (n' <? n)%N|]; simpl;
      try rewrite IH; intuition congruence.
Qed.

Lemma NoDup_insert_index (n : N) (k : string) (v : JSValue) (o : JSObject) :
  ~ In k (keys o) -> NoDup (keys o) -> NoDup (keys (Obj.insert_index n k v o)).
Proof.
  induction o as [|[k' v'] o IH]; simpl; intros Hk Hnd.
  - constructor; [tauto | constructor].
  - assert (Hcons : NoDup (k :: k' :: keys o)) by (constructor; [simpl; tauto | assumption]).
    destruct (Obj.array_index k') as [n'|]; [destruct (n' <? n)%N|]; simpl; try exact Hcons.
    inversion Hnd; subst. constructor.
    + rewrite In_keys_insert_index. intros [E|I]; [subst; tauto | contradiction].
    + apply IH; tauto.
Qed.

Lemma values_insert_index (P : JSValue -> Prop) (n : N) (k : string) (v : JSValue)
  (o : JSObject) :
  P v -> Forall P (map snd o) -> Forall P (map snd (Obj.insert_index n k v o)).
Proof.
  intros Hv. induction o as [|[k' v'] o IH]; simpl; intros H.
  - constructor; auto.
  - inversion H; subst.
    destruct (Obj.array_index k') as [n'|]; [destruct (n' <? n)%N|]; simpl;
      repeat constructor; auto.
Qed.

Lemma NoDup_set (k : string) (v : JSValue) (o : JSObject) :
  NoDup (keys o) -> NoDup (keys (Obj.set k v o)).
Proof.
  intros Hnd. unfold Obj.set.
  destruct (Obj.lookup k o) eqn:E.
  - now rewrite keys_replace.
  - apply lookup_None in E.
    destruct (Obj.array_index k).
    + now apply NoDup_insert_index.
    + unfold keys. rewrite map_app. simpl.
      apply NoDup_app; [assumption | repeat constructor; simpl; tauto |].
      intros x Hx [<-|[]]. contradiction.
Qed.

Lemma values_set (P : JSValue -> Prop) (k : string) (v : JSValue) (o : JSObject) :
  P v -> Forall P (map snd o) -> Forall P (map snd (Obj.set k v o)).
Proof.
  intros Hv Ho. unfold Obj.set.
  destruct (Obj.lookup k o).
  - now apply values_replace.
  - destruct (Obj.array_index k).
    + now apply values_insert_index.
    + rewrite map_app. apply Forall_app. split; [assumption | repeat constructor; assumption].
Qed.

Lemma lookup_replace_same (k : string) (v : JSValue) (o : JSObject) :
  In k (keys o) -> Obj.lookup k (Obj.replace k v o) = Some v.
Proof.
  induction o as [|[k' v'] o IH]; simpl; [tauto|]. intros Hin.
  destruct (String.eqb_spec k k') as [->|Hne]; simpl.
  - now rewrite String.eqb_refl.
  - apply String.eqb_neq in Hne as Hne'. rewrite Hne'.
    apply IH. destruct Hin; [congruence | assumption].
Qed.

Lemma lookup_replace_other (k k' : string) (v : JSValue) (o : JSObject) :
  k <> k' -> Obj.lookup k (Obj.replace k' v o) = Obj.lookup k o.
Proof.
  intros Hne. induction o as [|[k1 v1] o IH]; simpl; [reflexivity|].
  destruct (String.eqb_spec k' k1) as [->|Hne1]; simpl.
  - apply String.eqb_neq in Hne. now rewrite Hne.
  - now rewrite IH.
Qed.

Lemma lookup_insert_index (n : N) (k k' : string) (v : JSValue) (o : JSObject) :
  Obj.lookup k' o = None ->
  Obj.lookup k (Obj.insert_index n k' v o)
  = if String.eqb k k' then Some v else Obj.lookup k o.
Proof.
  induction o as [|[k1 v1] o IH]; simpl; [reflexivity|]. intros Hfresh.
  destruct (String.eqb_spec k' k1) as [->|Hne1]; [discriminate|].
  specialize (IH Hfresh).
  destruct (Obj.array_index k1) as [n1|]; [destruct (n1 <? n)%N|]; simpl;
    try rewrite IH; destruct (String.eqb_spec k k') as [->|Hne];
    try reflexivity.
  apply String.eqb_neq in Hne1. now rewrite Hne1.
Qed.

Lemma lookup_app (k : string) (o o' : JSObject) :
  Obj.lookup k (o ++ o')%list
  = match Obj.lookup k o with Some x => Some x | None => Obj.lookup k o' end.
Proof.
  induction o as [|[k1 v1] o IH]; simpl; [reflexivity|].
  now destruct (String.eqb k k1).
Qed.

Lemma get_set_same (k : string) (v : JSValue) (o : JSObject) :
  Obj.get (Obj.set k v o) k = v.
Proof.
  unfold Obj.get, Obj.set. destruct (Obj.lookup k o) eqn:E.
  - rewrite lookup_replace_same; [reflexivity|].
    destruct (in_dec string_dec k (keys o)) as [Hin|Hout]; [assumption|].
    apply lookup_None in Hout. congruence.
  - destruct (Obj.array_index k).
    + now rewrite lookup_insert_index, String.eqb_refl.
    + rewrite lookup_app, E. simpl. now rewrite String.eqb_refl.
Qed.

Lemma get_set_other (k k' : string) (v : JSValue) (o : JSObject) :
  k <> k' -> Obj.get (Obj.set k' v o) k = Obj.get o k.
Proof.
  intros Hne. apply String.eqb_neq in Hne as Hneb.
  unfold Obj.get, Obj.set. destruct (Obj.lookup k' o) eqn:E.
  - now rewrite lookup_replace_other.
  - destruct (Obj.array_index k').
    + now rewrite lookup_insert_index, Hneb.
    + rewrite lookup_app. simpl. rewrite Hneb. now destruct (Obj.lookup k o).
Qed.

Lemma get_spread_absent (k : string) (src o : JSObject) :
  ~ In k (keys src) -> Obj.get (Obj.spread o src) k = Obj.get o k.
Proof.
  revert o. induction src as [|[k1 v1] src IH]; intros o Hout; [reflexivity|].
  unfold Obj.spread in *. simpl in *.
  rewrite IH by tauto. apply get_set_other. intros ->. tauto.
Qed.

(** A spread overrides the properties written before it. *)
Lemma get_spread_present (k : string) (v : JSValue) (src o : JSObject) :
  NoDup (keys src) -> Obj.lookup k src = Some v ->
  Obj.get (Obj.spread o src) k = v.
Proof.
  revert o. induction src as [|[k1 v1] src IH]; intros o Hnd Hk; [discriminate|].
  inversion Hnd as [|? ? Hfresh Hnd']; subst.
  unfold Obj.spread in *. simpl in *.
  destruct (String.eqb_spec k k1) as [->|Hne].
  - injection Hk as ->.
    change (Obj.get (Obj.spread (Obj.set k1 v o) src) k1 = v).
    rewrite get_spread_absent by assumption. apply get_set_same.
  - now apply IH.
Qed.

(** ** Examples *)


Example parse_abc : parseArgs ["--a=b=c"] = mkParsed None [] [("a", VStr "b")].
Proof. reflexivity. Qed.

Example parse_demo :
  parseArgs ["upcoming"; "14"; "--summary"; "-c"; "work"; "--max=5"]
  = mkParsed (Some "upcoming") ["14"]
      [("summary", VBool true); ("c", VStr "work"); ("max", VStr "5")].
Proof. reflexivity. Qed.

Example parseInt_samples :
  parseInt (VStr "14") = Int 14 /\ parseInt (VStr "primary") = NaN /\
  parseInt (VStr "  -7days") = Int (-7) /\ parseInt (VStr "0x1f") = Int 31 /\
  parseInt (VBool true) = NaN /\ parseInt (VStr "0") = Int 0.
Proof. repeat split; reflexivity. Qed.

Example query_samples :
  buildQueryString
    (Obj.literal [("timeMin", VUndefined); ("q", VStr "a b&c");
                  ("maxResults", VNum (Int 0)); ("showDeleted", VBool false)])
  = "q=a%20b%26c&maxResults=0&showDeleted=false"
  /\ buildQueryString (Obj.literal [("b", VNum (Int 1)); ("1", VNum (Int 2))])
     = "1=2&b=1".
Proof. split; reflexivity. Qed.

(** ** The argument parser *)

Lemma set_option_well_formed (all : list string) (p : ParsedArguments)
  (key : string) (v : JSValue) :
  option_value v -> well_formed all p -> well_formed all (set_option p key v).
Proof.
  intros Hv (Hvals & Hnd & Hc & Hp). unfold set_option.
  destruct (String.eqb key "__proto__").
  - unfold well_formed. auto.
  - unfold well_formed. simpl. auto using values_set, NoDup_set.
Qed.

Lemma add_plain_well_formed (all : list string) (p : ParsedArguments) (arg : string) :
  In arg all -> plain arg -> well_formed all p -> well_formed all (add_plain p arg).
Proof.
  intros Hin Hpl (Hvals & Hnd & Hc & Hp). unfold add_plain.
  destruct (command p) as [c|] eqn:E; unfold well_formed; simpl;
    (split; [assumption | split; [assumption | split]]).
  - intros c' [= <-]. now apply Hc.
  - apply Forall_app. split; [assumption | repeat constructor; assumption].
  - intros c' [= <-]. now split.
  - assumption.
Qed.

Lemma parseArgs_loop_well_formed (all : list string) :
  forall (n : nat) (args : list string) (p : ParsedArguments),
    length args <= n -> incl args all -> well_formed all p ->
    well_formed all (parseArgs_loop args p).
Proof.
  assert (Htrue : option_value (VBool true)) by (now left).
  assert (Hstr : forall s, option_value (VStr s)) by (intros s; right; now exists s).
  induction n as [|n IH]; intros [|arg rest] p Hlen Hincl Hwf;
    try assumption; try (simpl in Hlen; lia).
  assert (Hrest : incl rest all) by (intros x Hx; apply Hincl; now right).
  assert (Hlen' : length rest <= n) by (simpl in Hlen; lia).
  assert (Hskip : forall next rest' q,
             rest = next :: rest' -> well_formed all q ->
             well_formed all (parseArgs_loop rest' q)).
  { intros next rest' q -> Hq. apply IH; [simpl in Hlen'; lia | | assumption].
    intros x Hx. apply Hrest. now right. }
  cbn [parseArgs_loop].
  destruct (Str.startsWith arg "-") eqn:Hdash.
  - destruct (Str.startsWith arg "--").
    + destruct (long_key_value arg) as [key [v|]].
      * apply IH; auto using set_option_well_formed.
      * destruct rest as [|next rest'] eqn:Erest;
          [apply IH; auto using set_option_well_formed|].
        destruct (Str.startsWith next "-"); cbn [negb].
        -- apply IH; auto using set_option_well_formed.
        -- eapply Hskip; eauto using set_option_well_formed.
    + destruct rest as [|next rest'] eqn:Erest;
        [apply IH; auto using set_option_well_formed|].
      destruct (Str.startsWith next "-"); cbn [negb].
      * apply IH; auto using set_option_well_formed.
      * eapply Hskip; eauto using set_option_well_formed.
  - apply IH; auto. apply add_plain_well_formed; auto. apply Hincl. now left.
Qed.

(** C8.  For every argument list, the empty one included, [parseArgs]
    returns a well-formed ParsedArguments: the command is null or a plain
    token of the list, the positional arguments are plain tokens of the
    list, and the options map distinct keys to strings or boolean [true].
    No step of the parser can throw (its argument tokens are strings), so
    the embedding is a total function. *)
Theorem parseArgs_well_formed :
  forall args : list string,
    well_formed args (parseArgs args)
    /\ parseArgs [] = mkParsed None [] [].
Proof.
  intros args. split; [|reflexivity].
  apply (parseArgs_loop_well_formed args (length args)).
  - lia.
  - apply incl_refl.
  - unfold well_formed. simpl.
    split; [constructor|]. split; [constructor|].
    split; [discriminate | constructor].
Qed.

Lemma length_append (a b : string) :
  String.length (a ++ b) = String.length a + String.length b.
Proof. induction a; simpl; congruence. Qed.

Lemma prefix_empty (s : string) : String.prefix "" s = true.
Proof. destruct s; reflexivity. Qed.

Lemma split_acc_until (sep : ascii) (a b acc : string) :
  has_char sep a = false ->
  Str.split_acc sep (a ++ String sep b) acc
  = (acc ++ a) :: Str.split_acc sep b EmptyString.
Proof.
  revert acc. induction a as [|c a IH]; intros acc Hno; simpl in *.
  - rewrite Ascii.eqb_refl. f_equal.
    clear. induction acc; simpl; congruence.
  - apply orb_false_iff in Hno as [Hc Ha]. rewrite Hc.
    rewrite IH by assumption. f_equal.
    clear. induction acc; simpl; congruence.
Qed.

Lemma split_acc_nonempty (sep : ascii) (s acc : string) :
  Str.split_acc sep s acc <> [].
Proof.
  revert acc. induction s as [|c s IH]; intros acc; simpl; [discriminate|].
  destruct (Ascii.eqb c sep); [discriminate | apply IH].
Qed.

(** C5 (the code departs from the claim).  A long option whose text has a
    second [=] loses everything from that second [=] on: for a key and a
    first piece free of [=], the token [--key=piece=rest] sets the option
    [key] to [piece], not to [piece=rest]. *)
Theorem long_option_value_stops_at_second_equals :
  forall key piece rest : string,
    has_char "=" key = false -> has_char "=" piece = false ->
    String.eqb key "__proto__" = false ->
    let token := "--" ++ key ++ "=" ++ piece ++ "=" ++ rest in
    long_key_value token = (key, Some piece)
    /\ Obj.get (options (parseArgs [token])) key = VStr piece
    /\ VStr piece <> VStr (piece ++ "=" ++ rest).
Proof.
  intros key piece rest Hk Hp Hproto token.
  assert (Hkv : long_key_value token = (key, Some piece)).
  { unfold long_key_value, token, Str.split. cbn [Str.slice append].
    change (key ++ "=" ++ piece ++ "=" ++ rest)
      with (key ++ String "=" (piece ++ String "=" rest)).
    rewrite split_acc_until by assumption.
    rewrite split_acc_until by assumption.
    reflexivity. }
  split; [exact Hkv|]. split.
  - unfold parseArgs. cbn [parseArgs_loop].
    replace (Str.startsWith token "-") with true by reflexivity.
    replace (Str.startsWith token "--") with true
      by (unfold Str.startsWith, token; simpl; now rewrite prefix_empty).
    rewrite Hkv. unfold set_option. rewrite Hproto. cbn.
    destruct (Obj.array_index key); unfold Obj.get; simpl;
      now rewrite String.eqb_refl.
  - intros [= E]. apply (f_equal String.length) in E.
    rewrite length_append in E. simpl in E. lia.
Qed.

Lemma long_option_value_stops_at_second_equals_witness :
  long_key_value "--a=b=c" = ("a", Some "b")
  /\ Obj.get (options (parseArgs ["--a=b=c"])) "a" = VStr "b"
  /\ VStr "b" <> VStr "b=c".
Proof.
  apply (long_option_value_stops_at_second_equals "a" "b" "c"); reflexivity.
Defined.

(** ** The query string builder *)

Lemma fold_push_part (entries : list (string * JSValue)) (parts : list string) :
  fold_left push_part entries parts
  = (parts ++ map (fun kv => query_part (fst kv) (snd kv))
                  (filter (fun kv => negb (nullish (snd kv))) entries))%list.
Proof.
  revert parts. induction entries as [|[k v] entries IH]; intros parts; simpl.
  - now rewrite app_nil_r.
  - rewrite IH. destruct (nullish v); simpl; [reflexivity|].
    now rewrite <- app_assoc.
Qed.

Lemma buildQueryString_iteration_order (params : JSObject) :
  buildQueryString params = query_of_entries (Obj.entries params).
Proof.
  unfold buildQueryString, query_parts, query_of_entries.
  now rewrite fold_push_part.
Qed.

(** Keys that are not array indices, inserted one after the other and each
    once, stay in the order of their insertion. *)
Lemma spread_plain_keys (src o : JSObject) :
  NoDup (keys o ++ keys src) ->
  Forall (fun k => Obj.array_index k = None) (keys src) ->
  Obj.spread o src = (o ++ src)%list.
Proof.
  revert o. induction src as [|[k v] src IH]; intros o Hnd Hplain; simpl.
  - now rewrite app_nil_r.
  - inversion Hplain as [|? ? Hk Hrest]; subst. simpl in Hk.
    unfold Obj.spread in *. simpl.
    assert (Hfresh : Obj.lookup k o = None).
    { apply lookup_None. intros Hin.
      apply NoDup_remove_2 in Hnd. apply Hnd. simpl.
      apply in_or_app. now left. }
    unfold Obj.set at 2. rewrite Hfresh, Hk.
    rewrite IH.
    + now rewrite <- app_assoc.
    + unfold keys in *. rewrite map_app. simpl. rewrite <- app_assoc. exact Hnd.
    + assumption.
Qed.

Lemma literal_plain_keys (ins : list (string * JSValue)) :
  NoDup (keys ins) ->
  Forall (fun k => Obj.array_index k = None) (keys ins) ->
  Obj.literal ins = ins.
Proof.
  intros Hnd Hplain. apply (spread_plain_keys ins []); assumption.
Qed.

(** C9, as the claim has it, fails on a mapping with an array-index key:
    the key [1], inserted after [b], is serialized before it. *)
Lemma buildQueryString_not_insertion_order :
  NoDup (keys Demo.index_key_params)
  /\ buildQueryString (Obj.literal Demo.index_key_params) = "1=2&b=1"
  /\ query_of_entries Demo.index_key_params = "b=1&1=2"
  /\ buildQueryString (Obj.literal Demo.index_key_params)
     <> query_of_entries Demo.index_key_params.
Proof.
  split.
  - repeat constructor; simpl; intuition discriminate.
  - repeat split; try reflexivity. discriminate.
Qed.

(** C9, amended.  For every parameter mapping, [buildQueryString] joins
    with [&] exactly the entries whose value is neither null nor undefined
    (boolean [false] and numeric [0] included), keys and values
    percent-encoded, in the order in which the mapping enumerates its own
    properties; that order is the insertion order whenever no key is an
    array index. *)
Theorem buildQueryString_entries :
  (forall params : JSObject,
      query_parts params
      = map (fun kv => query_part (fst kv) (snd kv))
            (filter (fun kv => negb (nullish (snd kv))) (Obj.entries params))
      /\ buildQueryString params = Str.join "&" (query_parts params))
  /\ nullish (VBool false) = false /\ nullish (VNum (Int 0)) = false
  /\ (forall ins : list (string * JSValue),
        NoDup (keys ins) ->
        Forall (fun k => Obj.array_index k = None) (keys ins) ->
        Obj.entries (Obj.literal ins) = ins
        /\ buildQueryString (Obj.literal ins) = query_of_entries ins).
Proof.
  split; [|split; [reflexivity | split; [reflexivity|]]].
  - intros params. split; [|reflexivity].
    unfold query_parts. now rewrite fold_push_part.
  - intros ins Hnd Hplain. split.
    + now apply literal_plain_keys.
    + rewrite buildQueryString_iteration_order.
      unfold Obj.entries. now rewrite literal_plain_keys.
Qed.

Lemma buildQueryString_entries_witness :
  Obj.entries (Obj.literal Demo.plain_key_params) = Demo.plain_key_params
  /\ buildQueryString (Obj.literal Demo.plain_key_params)
     = query_of_entries Demo.plain_key_params
  /\ query_of_entries Demo.plain_key_params
     = "q=a%3Db%20c&maxResults=0&showDeleted=false".
Proof.
  destruct buildQueryString_entries as (_ & _ & _ & H).
  split; [|split; [|reflexivity]].
  - apply H.
    + repeat constructor; simpl; intuition discriminate.
    + repeat constructor.
  - apply H.
    + repeat constructor; simpl; intuition discriminate.
    + repeat constructor.
Defined.

(** ** Event normalization *)

Lemma js_or_again (a b : JSValue) : js_or (js_or a b) b = js_or a b.
Proof.
  unfold js_or. destruct (truthy a) eqn:Ea.
  - now rewrite Ea.
  - now destruct (truthy b).
Qed.

Lemma time_ref_start (v : JSValue) :
  time_ref v = true ->
  text_or_absent (js_or (get_opt v "dateTime") (get_opt v "date")) = true.
Proof.
  destruct v; try discriminate; [reflexivity|].
  cbn. intros [H1 H2]%andb_true_iff. unfold js_or.
  destruct (truthy (Obj.get props "dateTime")); assumption.
Qed.

Lemma text_has_no_fields (v : JSValue) (k : string) :
  text_or_absent v = true -> String.eqb k "length" = false ->
  get_opt v k = VUndefined.
Proof.
  destruct v; try discriminate; intros _ Hk; [reflexivity|].
  cbn. now rewrite Hk.
Qed.

(** Reading back a field of a NormalizedEvent. *)
Ltac read_normalized e k v :=
  change (get_prop (VObj (EventFormatter.format_fields e)) k) with v.

Lemma format_fields_again (e : JSValue) :
  text_or_absent (js_or (get_opt (get_prop e "start") "dateTime")
                        (get_opt (get_prop e "start") "date")) = true ->
  text_or_absent (js_or (get_opt (get_prop e "end") "dateTime")
                        (get_opt (get_prop e "end") "date")) = true ->
  EventFormatter.format_fields (VObj (EventFormatter.format_fields e))
  = without_times (EventFormatter.format_fields e).
Proof.
  intros Hs He.
  unfold EventFormatter.format_fields at 1.
  read_normalized e "id" (get_prop e "id").
  read_normalized e "summary" (js_or (get_prop e "summary") (VStr "(No title)")).
  read_normalized e "description" (js_or (get_prop e "description") (VStr "")).
  read_normalized e "location" (js_or (get_prop e "location") (VStr "")).
  read_normalized e "start"
    (js_or (get_opt (get_prop e "start") "dateTime") (get_opt (get_prop e "start") "date")).
  read_normalized e "end"
    (js_or (get_opt (get_prop e "end") "dateTime") (get_opt (get_prop e "end") "date")).
  read_normalized e "status" (get_prop e "status").
  read_normalized e "created" (get_prop e "created").
  read_normalized e "updated" (get_prop e "updated").
  read_normalized e "htmlLink" (get_prop e "htmlLink").
  read_normalized e "attendees" (js_or (get_prop e "attendees") (VArr [])).
  read_normalized e "organizer" (get_prop e "organizer").
  read_normalized e "recurrence" (get_prop e "recurrence").
  read_normalized e "reminders" (get_prop e "reminders").
  rewrite !js_or_again.
  rewrite !(text_has_no_fields _ "dateTime" Hs), !(text_has_no_fields _ "date" Hs),
    !(text_has_no_fields _ "dateTime" He), !(text_has_no_fields _ "date" He)
    by reflexivity.
  reflexivity.
Qed.

(** C3, as the claim has it, fails on any event with a start: the second
    normalization loses the start and the end and marks the event all-day. *)
Lemma format_not_idempotent :
  EventRecord Demo.meeting = true
  /\ EventFormatter.format Demo.meeting start_world
     = (Returned (VObj (EventFormatter.format_fields Demo.meeting)), start_world)
  /\ get_prop (VObj (EventFormatter.format_fields Demo.meeting)) "start"
     = VStr "2026-01-02T10:00:00Z"
  /\ EventFormatter.format (VObj (EventFormatter.format_fields Demo.meeting)) start_world
     <> (Returned (VObj (EventFormatter.format_fields Demo.meeting)), start_world).
Proof.
  repeat split; try reflexivity. vm_compute. discriminate.
Qed.

Lemma distinct_NoDup (l : list string) : distinct l = true -> NoDup l.
Proof.
  induction l as [|x l IH]; simpl; intros H; constructor.
  - apply andb_true_iff in H as [H _]. intros Hin.
    apply negb_true_iff in H. rewrite <- not_true_iff_false in H. apply H.
    apply existsb_exists. exists x. split; [assumption | apply String.eqb_refl].
  - apply IH. now apply andb_true_iff in H as [_ H].
Qed.

Lemma get_json_shape (o : JSObject) (k : string) :
  NoDup (keys o) -> Obj.get (json_shape o) k = Obj.get o k.
Proof.
  unfold Obj.get. induction o as [|[k' v] o IH]; intros Hnd; [reflexivity|].
  inversion Hnd as [|? ? Hfresh Hnd']; subst. specialize (IH Hnd').
  assert (Hdrop : String.eqb k k' = true ->
                  Obj.lookup k (json_shape o) = None).
  { intros ->%String.eqb_eq. apply lookup_None. intros Hin. apply Hfresh.
    unfold keys, json_shape in *. apply in_map_iff in Hin as ([k1 v1] & <- & Hin).
    apply filter_In in Hin as [Hin _]. apply in_map_iff. now exists (k1, v1). }
  simpl. destruct v; simpl; destruct (String.eqb k k') eqn:E;
    try reflexivity; try exact IH.
  now rewrite Hdrop.
Qed.

Lemma format_fields_json_shape (e : JSValue) :
  EventFormatter.format_fields (VObj (json_shape (EventFormatter.format_fields e)))
  = EventFormatter.format_fields (VObj (EventFormatter.format_fields e)).
Proof.
  unfold EventFormatter.format_fields at 1 3. cbn [get_prop].
  rewrite !get_json_shape by (apply distinct_NoDup; reflexivity).
  reflexivity.
Qed.

(** C3, amended.  Normalization is total: on every well-formed EventRecord
    [EventFormatter.format] returns, in every state and without any effect.
    Applied again to the NormalizedEvent it produced (as the object itself
    or in its JSON-compatible shape), it keeps every field except [start],
    [end] and [isAllDay], which become undefined, undefined and [true];
    from that second result on it is idempotent. *)
Theorem format_total_and_stable_after_one_step :
  forall (e : JSValue) (w : World),
    EventRecord e = true ->
    exists n : JSObject,
      EventFormatter.format e w = (Returned (VObj n), w)
      /\ EventFormatter.format (VObj n) w = (Returned (VObj (without_times n)), w)
      /\ EventFormatter.format (VObj (json_shape n)) w
         = (Returned (VObj (without_times n)), w)
      /\ EventFormatter.format (VObj (without_times n)) w
         = (Returned (VObj (without_times n)), w).
Proof.
  intros e w Hwf. destruct e as [| | | | | |o]; try discriminate.
  set (e := VObj o). set (n := EventFormatter.format_fields e).
  cbn in Hwf. apply andb_true_iff in Hwf as [[Hs He]%andb_true_iff _].
  apply time_ref_start in Hs, He.
  change (Obj.get o "start") with (get_prop e "start") in Hs.
  change (Obj.get o "end") with (get_prop e "end") in He.
  assert (H2 : EventFormatter.format_fields (VObj n) = without_times n)
    by now apply format_fields_again.
  assert (H3 : EventFormatter.format_fields (VObj (without_times n)) = without_times n).
  { rewrite <- H2 at 1. rewrite format_fields_again.
    - rewrite H2. reflexivity.
    - unfold n.
      read_normalized e "start"
        (js_or (get_opt (get_prop e "start") "dateTime")
               (get_opt (get_prop e "start") "date")).
      now rewrite !(text_has_no_fields _ "dateTime" Hs),
        !(text_has_no_fields _ "date" Hs) by reflexivity.
    - unfold n.
      read_normalized e "end"
        (js_or (get_opt (get_prop e "end") "dateTime")
               (get_opt (get_prop e "end") "date")).
      now rewrite !(text_has_no_fields _ "dateTime" He),
        !(text_has_no_fields _ "date" He) by reflexivity. }
  assert (H4 : EventFormatter.format_fields (VObj (json_shape n)) = without_times n)
    by (unfold n; rewrite format_fields_json_shape; exact H2).
  exists n. unfold EventFormatter.format, ret. cbn [nullish].
  rewrite H2, H3, H4. repeat split.
Qed.

Lemma format_total_and_stable_after_one_step_witness :
  exists n : JSObject,
    EventFormatter.format Demo.meeting start_world = (Returned (VObj n), start_world)
    /\ EventFormatter.format (VObj n) start_world
       = (Returned (VObj (without_times n)), start_world)
    /\ EventFormatter.format (VObj (json_shape n)) start_world
       = (Returned (VObj (without_times n)), start_world)
    /\ EventFormatter.format (VObj (without_times n)) start_world
       = (Returned (VObj (without_times n)), start_world).
Proof.
  apply (format_total_and_stable_after_one_step Demo.meeting start_world).
  reflexivity.
Defined.

(** ** The summary line *)

(** C4 (the code departs from the claim).  With the status flag set, an
    event record that has no [status] field does get a status line, and
    the line reads [undefined]: the test is [formatted.status !==
    'confirmed'] alone, without the presence test the location line has. *)
Theorem formatSummary_status_line_without_status :
  forall (h : Host) (event showLocation showAttendees showStatus : JSValue)
         (w : World),
    EventRecord event = true ->
    get_prop event "status" = VUndefined ->
    truthy showStatus = true ->
    exists body : string,
      EventFormatter.formatSummary h event showLocation showAttendees showStatus w
      = (Returned (body ++ status_line VUndefined), w).
Proof.
  intros h event showLocation showAttendees showStatus w Hwf Hst Hflag.
  destruct event as [| | | | | |o]; try discriminate.
  cbn in Hwf. apply andb_true_iff in Hwf as [_ Hatt].
  set (e := VObj o) in *.
  unfold EventFormatter.formatSummary, EventFormatter.formatTimeRange,
    EventFormatter.format, bind, ret. cbn [nullish e].
  read_normalized e "status" (get_prop e "status").
  read_normalized e "attendeeCount"
    (get_prop (js_or (get_prop e "attendees") (VArr [])) "length").
  rewrite Hst, Hflag. cbn [strict_ne andb].
  assert (Hcount : exists b,
            EventFormatter.and_then showAttendees
              (gt (get_prop (js_or (get_prop e "attendees") (VArr [])) "length") 0) w
            = (Returned b, w)).
  { unfold EventFormatter.and_then. destruct (truthy showAttendees); [|now exists false].
    change (get_prop e "attendees") with (Obj.get o "attendees").
    destruct (Obj.get o "attendees"); try discriminate; cbn; unfold ret; eauto. }
  destruct Hcount as [b Hcount].
  destruct (truthy (get_prop (VObj (EventFormatter.format_fields e)) "isAllDay"));
    rewrite Hcount; eexists; unfold status_line; reflexivity.
Qed.

Lemma formatSummary_status_line_without_status_witness :
  exists body : string,
    EventFormatter.formatSummary (Demo.host (fun _ => Demo.ok_response VNull))
      Demo.lunch (VBool true) (VBool true) (VBool true) start_world
    = (Returned (body ++ status_line VUndefined), start_world).
Proof.
  apply formatSummary_status_line_without_status; reflexivity.
Defined.

Example formatSummary_lunch :
  EventFormatter.formatSummary (Demo.host (fun _ => Demo.ok_response VNull))
    Demo.lunch (VBool false) (VBool false) (VBool true) start_world
  = (Returned ("All day              Lunch" ++ Str.nl
               ++ "                       " ++ Mark.warning ++ "  undefined"),
     start_world).
Proof. reflexivity. Qed.

(** ** Result limits of the service client *)

Lemma truthy_not_nullish (v : JSValue) : truthy v = true -> nullish v = false.
Proof. now destruct v. Qed.

Lemma js_or_not_nullish (a b : JSValue) :
  nullish b = false -> nullish (js_or a b) = false.
Proof.
  intros Hb. unfold js_or. destruct (truthy a) eqn:E; [|assumption].
  now apply truthy_not_nullish.
Qed.

Lemma query_parts_member (k : string) (v : JSValue) (params : JSObject) :
  In (k, v) (Obj.entries params) -> nullish v = false ->
  In (query_part k v) (query_parts params).
Proof.
  intros Hin Hv. unfold query_parts. rewrite fold_push_part. simpl.
  apply in_map_iff. exists (k, v). split; [reflexivity|].
  apply filter_In. split; [assumption | simpl; now rewrite Hv].
Qed.

Lemma listCalendars_sends (options : JSObject) :
  Obj.get options "maxResults" = VNum (Int 0) ->
  sends_250 (CalendarClient.listCalendars_params options).
Proof.
  intros Hzero. split.
  - change (js_or (Obj.get options "maxResults") (VNum (Int 250)) = VNum (Int 250)).
    now rewrite Hzero.
  - change "maxResults=250" with (query_part "maxResults" (VNum (Int 250))).
    apply query_parts_member; [|reflexivity].
    unfold CalendarClient.listCalendars_params. rewrite Hzero. now left.
Qed.

Lemma listEvents_sends (options : JSObject) :
  Obj.get options "maxResults" = VNum (Int 0) ->
  sends_250 (CalendarClient.listEvents_params options).
Proof.
  intros Hzero. split.
  - change (js_or (Obj.get options "maxResults") (VNum (Int 250)) = VNum (Int 250)).
    now rewrite Hzero.
  - change "maxResults=250" with (query_part "maxResults" (VNum (Int 250))).
    apply query_parts_member; [|reflexivity].
    unfold CalendarClient.listEvents_params. rewrite Hzero.
    do 3 right. now left.
Qed.

(** C10 (the code departs from the claim).  A caller-supplied [maxResults]
    of 0 is never sent: [listCalendars] and [listEvents] send 250 in its
    place.  The three operations that delegate to [listEvents] send 250 as
    well, not their own limits 50, 100 and 50: the spread of the caller's
    options puts the 0 back over the limit just computed, and [listEvents]
    then replaces it by its own 250. *)
Theorem zero_maxResults_is_sent_as_250 :
  forall (options : JSObject) (timeMin timeMax : string) (query : JSValue),
    NoDup (keys options) ->
    Obj.lookup "maxResults" options = Some (VNum (Int 0)) ->
    sends_250 (CalendarClient.listCalendars_params options)
    /\ sends_250 (CalendarClient.listEvents_params options)
    /\ sends_250 (CalendarClient.listEvents_params
                    (CalendarClient.getTodayEvents_options timeMin timeMax options))
    /\ sends_250 (CalendarClient.listEvents_params
                    (CalendarClient.getUpcomingEvents_options timeMin timeMax options))
    /\ sends_250 (CalendarClient.listEvents_params
                    (CalendarClient.searchEvents_options query options)).
Proof.
  intros options timeMin timeMax query Hnd Hzero.
  assert (Hget : Obj.get options "maxResults" = VNum (Int 0))
    by (unfold Obj.get; now rewrite Hzero).
  split; [now apply listCalendars_sends|].
  split; [now apply listEvents_sends|].
  split; [|split]; apply listEvents_sends;
    unfold CalendarClient.getTodayEvents_options,
      CalendarClient.getUpcomingEvents_options,
      CalendarClient.searchEvents_options;
    now apply get_spread_present.
Qed.

Lemma zero_maxResults_is_sent_as_250_witness :
  sends_250 (CalendarClient.listCalendars_params Demo.zero_max)
  /\ sends_250 (CalendarClient.listEvents_params Demo.zero_max)
  /\ sends_250 (CalendarClient.listEvents_params
                  (CalendarClient.getTodayEvents_options "a" "b" Demo.zero_max))
  /\ sends_250 (CalendarClient.listEvents_params
                  (CalendarClient.getUpcomingEvents_options "a" "b" Demo.zero_max))
  /\ sends_250 (CalendarClient.listEvents_params
                  (CalendarClient.searchEvents_options (VStr "q") Demo.zero_max)).
Proof.
  apply (zero_maxResults_is_sent_as_250 Demo.zero_max "a" "b" (VStr "q")).
  - repeat constructor. simpl. tauto.
  - reflexivity.
Defined.

(** The request of [today --max 0] on the wire. *)
Example today_max_zero :
  run (Demo.host (fun _ => Demo.ok_response (Demo.events 0)))
      ["today"; "--max"; "0"; "--json"]
  = (Returned tt,
     [ CallHasToken "google-calendar";
       CallFetch "google-calendar"
         ("https://www.googleapis.com/calendar/v3/calendars/primary/events"
          ++ "?timeMin=%401767225600000&timeMax=%401767312000000"
          ++ "&maxResults=250&singleEvents=true&orderBy=startTime&showDeleted=false")
         15000;
       LogJson (Demo.events 0) ]).
Proof. reflexivity. Qed.

(** ** Control flow *)

Lemma bind_returned {A B} (m : M A) (k : A -> M B) (w w' : World) (a : A) :
  m w = (Returned a, w') -> bind m k w = k a w'.
Proof. unfold bind. now intros ->. Qed.

Lemma bind_thrown {A B} (m : M A) (k : A -> M B) (w w' : World) (e : JSError) :
  m w = (Thrown e, w') -> bind m k w = (Thrown e, w').
Proof. unfold bind. now intros ->. Qed.

Lemma try_catch_returned {A} (m : M A) (handler : JSError -> M A)
  (w w' : World) (a : A) :
  m w = (Returned a, w') -> try_catch m handler w = (Returned a, w').
Proof. unfold try_catch. now intros ->. Qed.

Lemma try_catch_thrown {A} (m : M A) (handler : JSError -> M A)
  (w w' : World) (e : JSError) :
  m w = (Thrown e, w') -> try_catch m handler w = handler e w'.
Proof. unfold try_catch. now intros ->. Qed.

Lemma try_catch_exited {A} (m : M A) (handler : JSError -> M A)
  (w w' : World) (code : Z) :
  m w = (Exited code, w') -> try_catch m handler w = (Exited code, w').
Proof. unfold try_catch. now intros ->. Qed.

(** ** [search] without a query *)

Lemma searchEvents_without_query (h : Host) (args : ParsedArguments) (w : World) :
  positional args = [] ->
  searchEvents h args w
  = (Exited 1, mkWorld (trace w ++ search_usage) (clock_reads w)).
Proof.
  intros Hpos. unfold searchEvents. rewrite Hpos.
  unfold try_catch, bind, console_error, emit, process_exit. simpl.
  now rewrite <- app_assoc.
Qed.

(** C6.  When the [search] command is invoked with no query positional
    argument, the handler prints the two usage lines on standard error and
    exits with status 1, in whatever state it starts; nothing else
    happens: the client is not constructed, so neither [hasToken] nor
    [authenticatedFetch] is called.  For the whole process: on every
    command line that [main] dispatches to [search] (the parsed command is
    [search] and help was not asked for), these two lines are all it does
    before exiting with status 1. *)
Theorem search_without_query_exits_1 :
  forall (h : Host) (args : ParsedArguments),
    positional args = [] ->
    (forall w : World,
        searchEvents h args w
        = (Exited 1, mkWorld (trace w ++ search_usage) (clock_reads w)))
    /\ existsb capability_call search_usage = false
    /\ (forall argv : list string,
          parseArgs argv = args ->
          command args = Some "search" ->
          truthy (opt args "help") = false ->
          run h argv = (Exited 1, search_usage)
          /\ exit_status (fst (run h argv)) = Some 1%Z).
Proof.
  intros h args Hpos.
  split; [intros w; now apply searchEvents_without_query|].
  split; [reflexivity|].
  intros argv <- Hcmd Hhelp.
  assert (Hmain : main h argv start_world = (Exited 1, mkWorld search_usage 0)).
  { unfold main.
    replace (no_command (parseArgs argv)) with false
      by (unfold no_command; now rewrite Hcmd).
    replace (command_is (parseArgs argv) "help") with false
      by (unfold command_is; now rewrite Hcmd).
    rewrite Hhelp. cbn [orb].
    apply try_catch_exited.
    unfold dispatch, command_is. rewrite Hcmd. cbn.
    now rewrite searchEvents_without_query. }
  unfold run. rewrite Hmain. split; reflexivity.
Qed.

Lemma search_without_query_exits_1_witness :
  (forall w : World,
      searchEvents (Demo.host (fun _ => Demo.ok_response (Demo.events 3)))
        (parseArgs ["search"; "--max"; "5"; "--json"]) w
      = (Exited 1, mkWorld (trace w ++ search_usage) (clock_reads w)))
  /\ run (Demo.host (fun _ => Demo.ok_response (Demo.events 3)))
         ["search"; "--max"; "5"; "--json"]
     = (Exited 1, search_usage).
Proof.
  destruct (search_without_query_exits_1
              (Demo.host (fun _ => Demo.ok_response (Demo.events 3)))
              (parseArgs ["search"; "--max"; "5"; "--json"]) eq_refl)
    as (Hhandler & _ & Hprocess).
  split; [exact Hhandler|].
  apply (Hprocess ["search"; "--max"; "5"; "--json"]); reflexivity.
Defined.

(** ** The client, when the credential is configured *)

Lemma constructor_ok (h : Host) (w : World) :
  token_system h = true -> hasToken h "google-calendar" = true ->
  CalendarClient.constructor h w
  = (Returned (mkClient "https://www.googleapis.com/calendar/v3"),
     mkWorld (trace w ++ [CallHasToken "google-calendar"]) (clock_reads w)).
Proof.
  intros Hsys Htok. unfold CalendarClient.constructor.
  rewrite Hsys. cbn [negb]. unfold bind, emit. now rewrite Htok.
Qed.

Lemma getUpcomingEvents_invalid_days (h : Host) (c : Client)
  (calendarId : JSValue) (options : JSObject) (w : World) :
  CalendarClient.getUpcomingEvents h c NaN calendarId options w
  = (Thrown (new_Error "Invalid time value"),
     mkWorld (trace w) (S (clock_reads w))).
Proof.
  unfold CalendarClient.getUpcomingEvents, bind, CalendarClient.now,
    CalendarClient.toISOString.
  cbn [CalendarClient.days_after time_clip].
  now destruct (Z.abs (clock h (clock_reads w)) <=? 8640000000000000)%Z.
Qed.

(** ** The [list] command *)

Lemma showUpcoming_invalid_days (h : Host) (args : ParsedArguments) (w : World) :
  token_system h = true -> hasToken h "google-calendar" = true ->
  days_of args = NaN ->
  showUpcoming h args w
  = (Exited 1, mkWorld (trace w ++ list_failure) (S (clock_reads w))).
Proof.
  intros Hsys Htok Hdays. unfold showUpcoming.
  erewrite try_catch_thrown.
  2:{ erewrite bind_returned by (now apply constructor_ok).
      cbv zeta. rewrite Hdays.
      apply bind_thrown. apply getUpcomingEvents_invalid_days. }
  unfold bind, console_error, emit, process_exit. simpl.
  now rewrite <- app_assoc.
Qed.

Lemma parse_list_positional (cal : string) :
  plain cal ->
  parseArgs ["list"; cal] = mkParsed (Some "list") [cal] [].
Proof.
  intros Hplain. unfold parseArgs. cbn [parseArgs_loop].
  replace (Str.startsWith "list" "-") with false by reflexivity.
  unfold plain in Hplain. now rewrite Hplain.
Qed.

(** Without a positional argument [list] does ask for 365 days. *)
Lemma list_without_positional (argv : list string) :
  positional (parseArgs argv) = [] ->
  days_of (force_year (parseArgs argv)) = Int 365.
Proof.
  intros Hpos. unfold days_of, positional0, force_year, opt. simpl.
  rewrite Hpos. cbn [truthy]. now rewrite get_set_same.
Qed.

(** C1 (the code departs from the claim).  The positional argument of
    [list] does not select the calendar: [showUpcoming] reads it as the
    day count, ahead of the forced [days = '365'], and the calendar still
    comes from [--calendar], [-c] or the default [primary].  With a name
    that [parseInt] cannot read, such as the [primary] of the help text's
    own example, the window has no end: [toISOString] throws, nothing is
    fetched and the process exits with status 1. *)
Theorem list_positional_is_read_as_days :
  forall (h : Host) (cal : string),
    plain cal -> cal <> "" ->
    token_system h = true -> hasToken h "google-calendar" = true ->
    parseInt (VStr cal) = NaN ->
    days_of (force_year (parseArgs ["list"; cal])) = NaN
    /\ calendar_of (force_year (parseArgs ["list"; cal])) = VStr "primary"
    /\ run h ["list"; cal] = (Exited 1, list_failure).
Proof.
  intros h cal Hplain Hne Hsys Htok Hnan.
  rewrite (parse_list_positional cal Hplain).
  assert (Hdays : days_of (force_year (mkParsed (Some "list") [cal] [])) = NaN).
  { unfold days_of, positional0. cbn [force_year positional truthy].
    apply String.eqb_neq in Hne. now rewrite Hne. }
  split; [exact Hdays | split; [reflexivity|]].
  assert (Hmain : main h ["list"; cal] start_world
                  = (Exited 1, mkWorld list_failure 1)).
  { unfold main. rewrite (parse_list_positional cal Hplain).
    cbn [no_command command_is command String.eqb Ascii.eqb Bool.eqb orb opt
         options Obj.get Obj.lookup truthy].
    apply try_catch_exited.
    unfold dispatch, command_is. cbn [command String.eqb Ascii.eqb Bool.eqb].
    now rewrite showUpcoming_invalid_days. }
  unfold run. now rewrite Hmain.
Qed.

Lemma list_positional_is_read_as_days_witness :
  days_of (force_year (parseArgs ["list"; "primary"])) = NaN
  /\ calendar_of (force_year (parseArgs ["list"; "primary"])) = VStr "primary"
  /\ run (Demo.host (fun _ => Demo.ok_response (Demo.events 3))) ["list"; "primary"]
     = (Exited 1, list_failure).
Proof.
  apply (list_positional_is_read_as_days
           (Demo.host (fun _ => Demo.ok_response (Demo.events 3))) "primary");
    try reflexivity.
  discriminate.
Defined.

(** [list] alone: one request, for the window from now (1767225600000 ms)
    to 365 days later, on the primary calendar. *)
Example list_alone :
  run (Demo.host (fun _ => Demo.ok_response (Demo.events 0))) ["list"; "--json"]
  = (Returned tt,
     [ CallHasToken "google-calendar";
       CallFetch "google-calendar"
         ("https://www.googleapis.com/calendar/v3/calendars/primary/events"
          ++ "?timeMin=%401767225600000&timeMax=%401798761600000"
          ++ "&maxResults=100&singleEvents=true&orderBy=startTime&showDeleted=false")
         15000;
       LogJson (Demo.events 0) ])
  /\ (1767225600000 + 365 * 24 * 60 * 60 * 1000 = 1798761600000)%Z.
Proof. split; vm_compute; reflexivity. Qed.

(** A numeric calendar name is taken for the number of days. *)
Example list_30 :
  days_of (force_year (parseArgs ["list"; "30"])) = Int 30.
Proof. reflexivity. Qed.

(** ** Remote errors *)

(** A response that is not [ok] makes [request] throw, whatever its body. *)
Lemma request_not_ok (h : Host) (c : Client) (endpoint : string)
  (response : Response) (w : World) :
  authenticatedFetch h "google-calendar" (baseUrl c ++ endpoint) = inr response ->
  ok response = false ->
  exists error : JSError,
    CalendarClient.request h c endpoint w
    = (Thrown error,
       mkWorld (trace w ++ [CallFetch "google-calendar" (baseUrl c ++ endpoint) 15000])
               (clock_reads w)).
Proof.
  intros Hfetch Hok. unfold CalendarClient.request, try_catch, bind, emit.
  cbv zeta. rewrite Hfetch, Hok. cbn [negb].
  unfold CalendarClient.response_json.
  destruct (json response) as [e|body]; unfold throw, ret.
  - destruct (Str.includes (message e) "Network permission denied"); eauto.
  - unfold prop. destruct (nullish body); unfold throw, ret.
    + destruct (Str.includes _ "Network permission denied"); eauto.
    + destruct (Str.includes _ "Network permission denied"); eauto.
Qed.

(** The error [request] throws for a failure response with a JSON body
    that names its message, as the service sends it. *)
Lemma request_remote_error (h : Host) (c : Client) (endpoint : string)
  (code : Z) (text msg : string) (w : World) :
  authenticatedFetch h "google-calendar" (baseUrl c ++ endpoint)
  = Demo.error_response code text msg ->
  msg <> "" -> Str.includes msg "Network permission denied" = false ->
  exists data : JSValue,
    CalendarClient.request h c endpoint w
    = (Thrown (mkError msg (VNum (Int code)) (VNum (Int code)) data),
       mkWorld (trace w ++ [CallFetch "google-calendar" (baseUrl c ++ endpoint) 15000])
               (clock_reads w)).
Proof.
  intros Hfetch Hmsg Hnet. unfold CalendarClient.request, try_catch, bind, emit.
  cbv zeta. rewrite Hfetch. apply String.eqb_neq in Hmsg.
  cbn. unfold js_or. cbn. rewrite Hmsg. cbn. rewrite Hnet. unfold throw. eauto.
Qed.

(** C2 (the code departs from the claim).  When [event abc --json] gets a
    failure response, the process does exit with status 1, but no JSON
    error envelope is written: [showEvent] catches the error itself,
    prints the plain message and exits, so the [catch] of [main], which
    would print the envelope with the status, is never entered. *)
Theorem event_remote_error_prints_no_envelope :
  forall (h : Host) (response : Response),
    token_system h = true -> hasToken h "google-calendar" = true ->
    authenticatedFetch h "google-calendar" event_abc_url = inr response ->
    ok response = false ->
    exists error : JSError,
      run h ["event"; "abc"; "--json"] = (Exited 1, event_failure error)
      /\ exit_status (fst (run h ["event"; "abc"; "--json"])) = Some 1%Z
      /\ existsb is_envelope (snd (run h ["event"; "abc"; "--json"])) = false.
Proof.
  intros h response Hsys Htok Hfetch Hok.
  set (c := mkClient "https://www.googleapis.com/calendar/v3").
  destruct (request_not_ok h c "/calendars/primary/events/abc" response
              (mkWorld [CallHasToken "google-calendar"] 0) Hfetch Hok)
    as [error Hreq].
  exists error.
  assert (Hshow : showEvent h (parseArgs ["event"; "abc"; "--json"]) start_world
                  = (Exited 1, mkWorld (event_failure error) 0)).
  { unfold showEvent.
    change (positional (parseArgs ["event"; "abc"; "--json"])) with ["abc"].
    erewrite try_catch_thrown.
    2:{ erewrite bind_returned by (now apply constructor_ok).
        cbv zeta. apply bind_thrown. exact Hreq. }
    reflexivity. }
  assert (Hmain : main h ["event"; "abc"; "--json"] start_world
                  = (Exited 1, mkWorld (event_failure error) 0)).
  { unfold main.
    change (parseArgs ["event"; "abc"; "--json"])
      with (mkParsed (Some "event") ["abc"] [("json", VBool true)]) in *.
    cbn [no_command command_is command String.eqb Ascii.eqb Bool.eqb orb opt
         options Obj.get Obj.lookup truthy].
    apply try_catch_exited.
    unfold dispatch, command_is. cbn [command String.eqb Ascii.eqb Bool.eqb].
    exact Hshow. }
  unfold run. rewrite Hmain. repeat split.
Qed.

Lemma event_remote_error_prints_no_envelope_witness :
  exists error : JSError,
    run (Demo.host (fun _ => Demo.error_response 404 "Not Found" "Not Found"))
        ["event"; "abc"; "--json"]
    = (Exited 1, event_failure error)
    /\ exit_status (fst (run (Demo.host (fun _ => Demo.error_response 404 "Not Found" "Not Found"))
                             ["event"; "abc"; "--json"])) = Some 1%Z
    /\ existsb is_envelope
         (snd (run (Demo.host (fun _ => Demo.error_response 404 "Not Found" "Not Found"))
                   ["event"; "abc"; "--json"])) = false.
Proof.
  apply (event_remote_error_prints_no_envelope
           (Demo.host (fun _ => Demo.error_response 404 "Not Found" "Not Found"))
           (mkResponse false 404 "Not Found"
              (inr (VObj [("error", VObj [("code", VNum (Int 404));
                                          ("message", VStr "Not Found")])]))));
    reflexivity.
Defined.

(** The scenario of the specification, run: the error carries the status
    404, and only its message is printed. *)
Example event_404 :
  run (Demo.host (fun _ => Demo.error_response 404 "Not Found" "Not Found"))
      ["event"; "abc"; "--json"]
  = (Exited 1,
     [ CallHasToken "google-calendar";
       CallFetch "google-calendar" event_abc_url 15000;
       Err (Mark.cross ++ " Failed to get event: Not Found") ]).
Proof. reflexivity. Qed.

(** ** The display limit of [upcoming] *)

Lemma prefix_append (a b : string) : String.prefix a (a ++ b) = true.
Proof.
  induction a as [|c a IH]; simpl; [apply prefix_empty|].
  destruct (ascii_dec c c); [exact IH | congruence].
Qed.

Lemma event_line_is_displayed (summary : string) :
  is_event_line (Log (Mark.clock ++ " " ++ summary ++ Str.nl)) = true
  /\ is_notice (Log (Mark.clock ++ " " ++ summary ++ Str.nl)) = false.
Proof.
  split; [|reflexivity].
  unfold is_event_line.
  change (Mark.clock ++ " " ++ summary ++ Str.nl)
    with ((Mark.clock ++ " ") ++ summary ++ Str.nl).
  apply prefix_append.
Qed.

Lemma date_line_is_not_displayed (date : string) :
  is_event_line (Log ("--- " ++ date ++ " ---")) = false
  /\ is_notice (Log ("--- " ++ date ++ " ---")) = false.
Proof. split; reflexivity. Qed.

(** On a well-formed event record [formatSummary] returns, whatever the
    display options. *)
Lemma formatSummary_returns (h : Host) (event a b c : JSValue) (w : World) :
  EventRecord event = true ->
  exists summary : string,
    EventFormatter.formatSummary h event a b c w = (Returned summary, w).
Proof.
  intros Hwf. destruct event as [| | | | | |o]; try discriminate.
  cbn in Hwf. apply andb_true_iff in Hwf as [_ Hatt].
  set (e := VObj o) in *.
  unfold EventFormatter.formatSummary, EventFormatter.formatTimeRange,
    EventFormatter.format, bind, ret. cbn [nullish e].
  read_normalized e "attendeeCount"
    (get_prop (js_or (get_prop e "attendees") (VArr [])) "length").
  assert (Hcount : exists n,
            EventFormatter.and_then b
              (gt (get_prop (js_or (get_prop e "attendees") (VArr [])) "length") 0) w
            = (Returned n, w)).
  { unfold EventFormatter.and_then. destruct (truthy b); [|now exists false].
    change (get_prop e "attendees") with (Obj.get o "attendees").
    destruct (Obj.get o "attendees"); try discriminate; cbn; unfold ret; eauto. }
  destruct Hcount as [n Hcount].
  destruct (truthy (get_prop (VObj (EventFormatter.format_fields e)) "isAllDay"));
    rewrite Hcount; eauto.
Qed.

Lemma print_event_returns (h : Host) (args : ParsedArguments) (event : JSValue)
  (w : World) :
  EventRecord event = true ->
  exists summary : string,
    print_event h args event w
    = (Returned tt,
       mkWorld (trace w ++ [Log (Mark.clock ++ " " ++ summary ++ Str.nl)])
               (clock_reads w)).
Proof.
  intros Hwf. unfold print_event.
  destruct (formatSummary_returns h event
              (VBool (negb (truthy (opt args "summary"))))
              (opt args "full") (opt args "full") w Hwf) as [summary Hsum].
  exists summary. now rewrite (bind_returned _ _ _ _ _ Hsum).
Qed.

Lemma displayed_app (a b : list Effect) :
  displayed (a ++ b) = displayed a + displayed b.
Proof. unfold displayed. now rewrite filter_app, length_app. Qed.

(** The loop displays the events one by one until the limit is reached,
    and prints nothing that looks like the notice. *)
Lemma upcoming_loop_displays (h : Host) (args : ParsedArguments) :
  forall (events : list JSValue) (currentDate : string) (count : Z) (w : World),
    Forall (fun ev => EventRecord ev = true) events ->
    (0 <= count)%Z ->
    exists out : list Effect,
      upcoming_loop h args events currentDate count w
      = (Returned tt, mkWorld (trace w ++ out) (clock_reads w))
      /\ displayed out
         = Nat.min (length events) (Z.to_nat (maxDisplay_of args - count))
      /\ existsb is_notice out = false.
Proof.
  induction events as [|event rest IH]; intros currentDate count w Hwf Hcount.
  - exists []. cbn. unfold ret. rewrite app_nil_r. destruct w. repeat split.
  - inversion Hwf as [|? ? Hev Hrest]; subst. cbn [upcoming_loop].
    destruct (Z.leb_spec (maxDisplay_of args) count) as [Hfull|Hroom].
    + exists []. unfold ret. rewrite app_nil_r. destruct w.
      repeat split. cbn [length displayed filter].
      replace (Z.to_nat (maxDisplay_of args - count)) with 0 by lia.
      now rewrite Nat.min_0_r.
    + assert (Hobj : nullish event = false) by (now destruct event).
      unfold prop. rewrite Hobj.
      set (start := js_or (get_opt (get_prop event "start") "dateTime")
                          (get_opt (get_prop event "start") "date")).
      set (date := formatDate h start).
      assert (Hhead : exists head,
                (if negb (String.eqb date currentDate)
                 then console_log ("--- " ++ date ++ " ---") else ret tt) w
                = (Returned tt, mkWorld (trace w ++ head) (clock_reads w))
                /\ displayed head = 0 /\ existsb is_notice head = false).
      { destruct (negb (String.eqb date currentDate)).
        - exists [Log ("--- " ++ date ++ " ---")]. repeat split.
        - exists []. unfold ret. rewrite app_nil_r. destruct w. repeat split. }
      destruct Hhead as (head & Hhead & Hhead0 & Hheadn).
      set (w1 := mkWorld (trace w ++ head) (clock_reads w)) in *.
      destruct (print_event_returns h args event w1 Hev) as [summary Hprint].
      set (line := Log (Mark.clock ++ " " ++ summary ++ Str.nl)) in *.
      set (w2 := mkWorld (trace w1 ++ [line]) (clock_reads w1)) in *.
      destruct (IH date (count + 1)%Z w2 Hrest ltac:(lia)) as (out & Hloop & Hshown & Hnone).
      exists (head ++ [line] ++ out)%list.
      destruct (event_line_is_displayed summary) as [Hline Hlinen].
      change (is_event_line line = true) in Hline.
      change (is_notice line = false) in Hlinen.
      split; [|split].
      * rewrite (bind_returned _ _ _ _ _ (eq_refl : ret _ w = (Returned _, w))).
        fold start. fold date.
        rewrite (bind_returned _ _ _ _ _ Hhead).
        rewrite (bind_returned _ _ _ _ _ Hprint).
        rewrite Hloop. unfold w2, w1. cbn [trace clock_reads].
        now rewrite <- !app_assoc.
      * rewrite !displayed_app, Hhead0, Hshown.
        unfold displayed at 1. cbn [filter]. rewrite Hline.
        cbn [length]. lia.
      * rewrite !existsb_app, Hheadn, Hnone. cbn [existsb].
        now rewrite Hlinen.
Qed.

(** C7, as the claim has it, fails under [--json]: all 23 fetched events
    are printed, as one JSON value, and there is no notice, although
    [--summary] is set. *)
Lemma upcoming_json_is_not_truncated :
  exists url : string,
    run Demo.busy ["upcoming"; "14"; "--summary"; "--json"]
    = (Returned tt,
       [ CallHasToken "google-calendar";
         CallFetch "google-calendar" url 15000;
         LogJson (Demo.events 23) ])
    /\ get_prop (get_prop (Demo.events 23) "items") "length" = VNum (Int 23)
    /\ truthy (opt (parseArgs ["upcoming"; "14"; "--summary"; "--json"]) "summary") = true
    /\ existsb is_notice (snd (run Demo.busy ["upcoming"; "14"; "--summary"; "--json"]))
       = false.
Proof. eexists. repeat split. Qed.

(** C7, amended.  For every fetched list of event records, when [--json]
    is not set, [upcoming] displays the first 10 events of the list when
    [--summary] is set and the first 50 otherwise, whatever [--max] says,
    and when the list is longer than that it prints the notice with the
    exact number of undisplayed events; a list within the limit gets no
    notice. *)
Theorem upcoming_display_limit :
  forall (h : Host) (args : ParsedArguments) (client : Client)
         (events : JSValue) (evs : list JSValue) (w0 w1 w2 : World),
    truthy (opt args "json") = false ->
    CalendarClient.constructor h w0 = (Returned client, w1) ->
    CalendarClient.getUpcomingEvents h client (days_of args) (calendar_of args)
      (Obj.literal [("maxResults", max_or args 100)]) w1
    = (Returned events, w2) ->
    get_prop events "items" = VArr evs ->
    Forall (fun ev => EventRecord ev = true) evs ->
    exists out : list Effect,
      showUpcoming h args w0
      = (Returned tt, mkWorld (trace w2 ++ out) (clock_reads w2))
      /\ maxDisplay_of args = (if truthy (opt args "summary") then 10 else 50)%Z
      /\ displayed out = Nat.min (length evs) (Z.to_nat (maxDisplay_of args))
      /\ ((maxDisplay_of args < Z.of_nat (length evs))%Z ->
          In (more_notice (Z.of_nat (length evs) - maxDisplay_of args)) out)
      /\ ((Z.of_nat (length evs) <= maxDisplay_of args)%Z ->
          existsb is_notice out = false).
Proof.
  intros h args client events evs w0 w1 w2 Hjson Hnew Hfetch Hitems Hwf.
  assert (Hobj : nullish events = false).
  { destruct events; try reflexivity; discriminate. }
  set (header := Log (Mark.calendar ++ " Upcoming events (next "
                      ++ to_string (VNum (days_of args)) ++ " days):" ++ Str.nl)).
  set (w3 := mkWorld (trace w2 ++ [header]) (clock_reads w2)).
  assert (Hbody : exists tail,
    (some <- non_empty (VArr evs) ;;
     if some then
       let maxDisplay := maxDisplay_of args in
       evs' <- iterate (VArr evs) "events.items" ;;
       upcoming_loop h args evs' "" 0 ;;
       more <- gt (get_prop (VArr evs) "length") maxDisplay ;;
       if more then
         rest <- minus (get_prop (VArr evs) "length") maxDisplay ;;
         console_log ("... and " ++ to_string (VNum rest) ++ " more events") ;;
         console_log (Mark.bulb ++ " Use --max to increase limit or remove --summary for more details")
       else ret tt
     else console_log (Mark.calendar ++ " No upcoming events in the next "
                       ++ to_string (VNum (days_of args)) ++ " days")) w3
    = (Returned tt, mkWorld (trace w3 ++ tail) (clock_reads w3))
    /\ displayed tail = Nat.min (length evs) (Z.to_nat (maxDisplay_of args))
    /\ ((maxDisplay_of args < Z.of_nat (length evs))%Z ->
        In (more_notice (Z.of_nat (length evs) - maxDisplay_of args)) tail)
    /\ ((Z.of_nat (length evs) <= maxDisplay_of args)%Z ->
        existsb is_notice tail = false)).
  { unfold non_empty, EventFormatter.and_then. cbn [truthy get_prop String.eqb Ascii.eqb Bool.eqb gt].
    rewrite (bind_returned _ _ _ _ _ (eq_refl : ret _ w3 = (Returned _, w3))).
    assert (Hmax : (0 < maxDisplay_of args)%Z)
      by (unfold maxDisplay_of; destruct (truthy (opt args "summary")); lia).
    destruct (Z.ltb_spec 0 (Z.of_nat (length evs))) as [Hsome|Hnone].
    - cbv zeta. unfold iterate.
      rewrite (bind_returned _ _ _ _ _ (eq_refl : ret evs w3 = (Returned evs, w3))).
      destruct (upcoming_loop_displays h args evs "" 0%Z w3 Hwf ltac:(lia))
        as (out & Hloop & Hshown & Hquiet).
      rewrite Z.sub_0_r in Hshown.
      rewrite (bind_returned _ _ _ _ _ Hloop).
      set (w4 := mkWorld (trace w3 ++ out) (clock_reads w3)).
      rewrite (bind_returned _ _ _ _ _
                 (eq_refl : ret _ w4 = (Returned (maxDisplay_of args <? Z.of_nat (length evs))%Z, w4))).
      destruct (Z.ltb_spec (maxDisplay_of args) (Z.of_nat (length evs))) as [Hmore|Hfits].
      + exists (out ++ [more_notice (Z.of_nat (length evs) - maxDisplay_of args);
                        Log (Mark.bulb ++ " Use --max to increase limit or remove --summary for more details")])%list.
        split; [|split; [|split]].
        * unfold minus, bind, ret, console_log, emit, w4. cbn [trace clock_reads].
          now rewrite <- !app_assoc.
        * rewrite displayed_app, Hshown. cbn. lia.
        * intros _. apply in_or_app. right. now left.
        * lia.
      + exists out. split; [|split; [|split]]; auto. lia.
    - assert (evs = []) by (destruct evs; [reflexivity | simpl in Hnone; lia]). subst evs.
      eexists. split; [reflexivity|]. repeat split. simpl. lia. }
  destruct Hbody as (tail & Hbody & Hshown & Hmore & Hfits).
  exists (header :: tail).
  split; [|split; [reflexivity | split; [exact Hshown | split]]].
  - unfold showUpcoming. apply try_catch_returned.
    rewrite (bind_returned _ _ _ _ _ Hnew). cbv zeta.
    rewrite (bind_returned _ _ _ _ _ Hfetch). rewrite Hjson.
    rewrite (bind_returned _ _ _ _ _
               (eq_refl : console_log _ w2 = (Returned tt, w3))).
    unfold prop. rewrite Hobj, Hitems.
    rewrite (bind_returned _ _ _ _ _ (eq_refl : ret _ w3 = (Returned _, w3))).
    etransitivity; [exact Hbody|]. unfold w3. cbn [trace clock_reads].
    now rewrite <- app_assoc.
  - intros H. right. now apply Hmore.
  - intros H. cbn [existsb]. rewrite (Hfits H). reflexivity.
Qed.

Lemma upcoming_display_limit_witness :
  exists out : list Effect,
    showUpcoming Demo.busy Demo.busy_args start_world
    = (Returned tt,
       mkWorld (trace Demo.busy_fetched ++ out) (clock_reads Demo.busy_fetched))
    /\ displayed out = 10
    /\ In (more_notice 13) out.
Proof.
  destruct (upcoming_display_limit Demo.busy Demo.busy_args
              (mkClient "https://www.googleapis.com/calendar/v3")
              (Demo.events 23)
              (repeat (Demo.event "e" "Standup" (VStr "confirmed")) 23)
              start_world
              (mkWorld [CallHasToken "google-calendar"] 0)
              Demo.busy_fetched)
    as (out & Hrun & _ & Hshown & Hmore & _).
  - vm_compute. reflexivity.
  - vm_compute. reflexivity.
  - vm_compute. reflexivity.
  - vm_compute. reflexivity.
  - apply Forall_forall. intros ev Hev. apply repeat_spec in Hev. now subst.
  - exists out. split; [exact Hrun | split; [exact Hshown|]].
    apply Hmore. vm_compute. reflexivity.
Defined.

(** The scenario of the specification, run: 23 events fetched under
    [--summary], 10 displayed, and the notice says 13; the limit of
    [--max] plays no part. *)
Example upcoming_14_summary :
  fst (run Demo.busy ["upcoming"; "14"; "--summary"]) = Returned tt
  /\ displayed (snd (run Demo.busy ["upcoming"; "14"; "--summary"])) = 10
  /\ nth_error (snd (run Demo.busy ["upcoming"; "14"; "--summary"])) 14
     = Some (Log "... and 13 more events")
  /\ displayed (snd (run Demo.busy ["upcoming"; "14"; "--max"; "5"])) = 23.
Proof.
  split; [|split; [|split]]; vm_compute; reflexivity.
Qed.

(* ===================================================================== *)
(** * Further properties of the code *)
(* ===================================================================== *)

(** ** The argument parser: spellings, composition, plain tokens *)

Lemma split_acc_whole (sep : ascii) (a acc : string) :
  has_char sep a = false -> Str.split_acc sep a acc = [acc ++ a].
Proof.
  revert acc. induction a as [|c a IH]; intros acc Hno; simpl in *.
  - f_equal. clear. induction acc; simpl; congruence.
  - apply orb_false_iff in Hno as [Hc Ha]. rewrite Hc, IH by assumption.
    f_equal. clear. induction acc; simpl; congruence.
Qed.

Lemma long_key_alone (key : string) :
  has_char "=" key = false -> long_key_value ("--" ++ key) = (key, None).
Proof.
  intros Hk. unfold long_key_value, Str.split. cbn [Str.slice append].
  now rewrite split_acc_whole.
Qed.

Lemma long_key_with_value (key value : string) :
  has_char "=" key = false -> has_char "=" value = false ->
  long_key_value ("--" ++ key ++ "=" ++ value) = (key, Some value).
Proof.
  intros Hk Hv. unfold long_key_value, Str.split. cbn [Str.slice append].
  change (key ++ "=" ++ value) with (key ++ String "=" value).
  rewrite split_acc_until by assumption.
  now rewrite split_acc_whole.
Qed.

Lemma starts_with_dash (s : string) : Str.startsWith ("-" ++ s) "-" = true.
Proof. unfold Str.startsWith. simpl. apply prefix_empty. Qed.

Lemma starts_with_two_dashes (s : string) : Str.startsWith ("--" ++ s) "--" = true.
Proof. unfold Str.startsWith. simpl. apply prefix_empty. Qed.

Lemma short_is_not_long (s : string) :
  plain s -> Str.startsWith ("-" ++ s) "--" = false.
Proof.
  unfold plain, Str.startsWith. intros Hs.
  change (String.prefix "-" s = false). exact Hs.
Qed.

(** X1.  The three spellings of an option with a value, [--key=value],
    [--key value] and [-key value], leave the parser in the same state,
    whatever was parsed before and whatever follows: the key and the value
    hold no [=], and neither starts with a dash. *)
Theorem option_spellings_agree :
  forall (key value : string) (rest : list string) (parsed : ParsedArguments),
    has_char "=" key = false -> has_char "=" value = false ->
    plain key -> plain value ->
    parseArgs_loop (("--" ++ key ++ "=" ++ value) :: rest) parsed
    = parseArgs_loop rest (set_option parsed key (VStr value))
    /\ parseArgs_loop (("--" ++ key) :: value :: rest) parsed
       = parseArgs_loop rest (set_option parsed key (VStr value))
    /\ parseArgs_loop (("-" ++ key) :: value :: rest) parsed
       = parseArgs_loop rest (set_option parsed key (VStr value)).
Proof.
  intros key value rest parsed Hk Hv Hpk Hpv.
  unfold plain in Hpv. split; [|split].
  - cbn [parseArgs_loop].
    change ("--" ++ key ++ "=" ++ value) with ("-" ++ ("-" ++ key ++ "=" ++ value)) at 1.
    rewrite starts_with_dash, starts_with_two_dashes.
    now rewrite long_key_with_value.
  - cbn [parseArgs_loop].
    change ("--" ++ key) with ("-" ++ ("-" ++ key)) at 1.
    rewrite starts_with_dash, starts_with_two_dashes.
    rewrite long_key_alone by assumption. now rewrite Hpv.
  - cbn [parseArgs_loop].
    rewrite starts_with_dash, short_is_not_long by assumption.
    cbn [Str.slice append]. now rewrite Hpv.
Qed.

Lemma option_spellings_agree_witness :
  parseArgs ["today"; "--max=5"] = parseArgs ["today"; "--max"; "5"]
  /\ parseArgs ["today"; "--max"; "5"] = parseArgs ["today"; "-max"; "5"].
Proof.
  destruct (option_spellings_agree "max" "5" [] (mkParsed (Some "today") [] []))
    as (H1 & H2 & H3); try reflexivity.
  split.
  - transitivity (parseArgs_loop [] (set_option (mkParsed (Some "today") [] []) "max" (VStr "5")));
      [exact H1 | symmetry; exact H2].
  - transitivity (parseArgs_loop [] (set_option (mkParsed (Some "today") [] []) "max" (VStr "5")));
      [exact H2 | symmetry; exact H3].
Defined.

Lemma parseArgs_loop_cons (arg : string) (rest : list string)
  (parsed : ParsedArguments) :
  parseArgs_loop (arg :: rest) parsed
  = if Str.startsWith arg "-" then
      if Str.startsWith arg "--" then
        let (key, value) := long_key_value arg in
        match value with
        | Some v => parseArgs_loop rest (set_option parsed key (VStr v))
        | None =>
            match rest with
            | next :: rest' =>
                if negb (Str.startsWith next "-")
                then parseArgs_loop rest' (set_option parsed key (VStr next))
                else parseArgs_loop rest (set_option parsed key (VBool true))
            | [] => parseArgs_loop rest (set_option parsed key (VBool true))
            end
        end
      else
        match rest with
        | next :: rest' =>
            if negb (Str.startsWith next "-")
            then parseArgs_loop rest' (set_option parsed (Str.slice arg 1) (VStr next))
            else parseArgs_loop rest (set_option parsed (Str.slice arg 1) (VBool true))
        | [] => parseArgs_loop rest (set_option parsed (Str.slice arg 1) (VBool true))
        end
    else parseArgs_loop rest (add_plain parsed arg).
Proof. reflexivity. Qed.

(** An option token at the end of the list is parsed after, and apart
    from, everything before it. *)
Lemma parseArgs_loop_append_option (token : string) :
  Str.startsWith token "-" = true ->
  forall (n : nat) (args : list string) (parsed : ParsedArguments),
    length args <= n ->
    parseArgs_loop (args ++ [token]) parsed
    = parseArgs_loop [token] (parseArgs_loop args parsed).
Proof.
  intros Hdash. induction n as [|n IH]; intros [|arg rest] parsed Hlen;
    try reflexivity; try (simpl in Hlen; lia).
  assert (Hrest : length rest <= n) by (simpl in Hlen; lia).
  assert (Hvalue : forall (q : ParsedArguments) (k : string),
    match (rest ++ [token])%list with
    | next :: rest' =>
        if negb (Str.startsWith next "-")
        then parseArgs_loop rest' (set_option q k (VStr next))
        else parseArgs_loop (rest ++ [token]) (set_option q k (VBool true))
    | [] => parseArgs_loop (rest ++ [token]) (set_option q k (VBool true))
    end
    = parseArgs_loop [token]
        match rest with
        | next :: rest' =>
            if negb (Str.startsWith next "-")
            then parseArgs_loop rest' (set_option q k (VStr next))
            else parseArgs_loop rest (set_option q k (VBool true))
        | [] => parseArgs_loop rest (set_option q k (VBool true))
        end).
  { intros q k. destruct rest as [|next rest'].
    - cbn [app]. rewrite Hdash. reflexivity.
    - cbn [app]. destruct (Str.startsWith next "-"); cbn [negb].
      + change (next :: (rest' ++ [token]))%list with ((next :: rest') ++ [token])%list.
        now apply IH.
      + apply IH. simpl in Hrest. lia. }
  change ((arg :: rest) ++ [token])%list with (arg :: (rest ++ [token]))%list.
  rewrite (parseArgs_loop_cons arg (rest ++ [token])), (parseArgs_loop_cons arg rest).
  destruct (Str.startsWith arg "-"); [|now apply IH].
  destruct (Str.startsWith arg "--"); [|apply Hvalue].
  destruct (long_key_value arg) as [key [v|]]; [now apply IH | apply Hvalue].
Qed.

(** X2.  An option token at the end of the command line never changes how
    the tokens before it are parsed, and a final [--key=value] decides the
    value of [key], whatever came before. *)
Theorem parseArgs_trailing_option :
  forall (args : list string) (token : string),
    Str.startsWith token "-" = true ->
    parseArgs (args ++ [token]) = parseArgs_loop [token] (parseArgs args)
    /\ forall key value : string,
         token = "--" ++ key ++ "=" ++ value ->
         has_char "=" key = false -> has_char "=" value = false ->
         String.eqb key "__proto__" = false ->
         command (parseArgs (args ++ [token])) = command (parseArgs args)
         /\ positional (parseArgs (args ++ [token])) = positional (parseArgs args)
         /\ Obj.get (options (parseArgs (args ++ [token]))) key = VStr value.
Proof.
  intros args token Hdash.
  assert (Happ : parseArgs (args ++ [token]) = parseArgs_loop [token] (parseArgs args)).
  { unfold parseArgs. now apply (parseArgs_loop_append_option token Hdash (length args)). }
  split; [exact Happ|].
  intros key value -> Hk Hv Hproto. rewrite Happ.
  cbn [parseArgs_loop]. rewrite Hdash.
  change ("--" ++ key ++ "=" ++ value) with ("--" ++ (key ++ "=" ++ value)) at 1 3 5.
  rewrite starts_with_two_dashes.
  change ("--" ++ (key ++ "=" ++ value)) with ("--" ++ key ++ "=" ++ value).
  rewrite long_key_with_value by assumption.
  unfold set_option. rewrite Hproto. cbn [command positional options].
  now rewrite get_set_same.
Qed.

Lemma parseArgs_trailing_option_witness :
  parseArgs (["today"; "--max"; "5"] ++ ["--max=7"])
  = parseArgs_loop ["--max=7"] (parseArgs ["today"; "--max"; "5"])
  /\ Obj.get (options (parseArgs (["today"; "--max"; "5"] ++ ["--max=7"]))) "max"
     = VStr "7".
Proof.
  destruct (parseArgs_trailing_option ["today"; "--max"; "5"] "--max=7" eq_refl)
    as [Happ Hlast].
  split; [exact Happ|].
  apply (Hlast "max" "7"); reflexivity.
Defined.

Lemma parseArgs_loop_plain (ps : list string) :
  Forall plain ps ->
  forall (c : string) (acc : list string) (o : JSObject),
    parseArgs_loop ps (mkParsed (Some c) acc o) = mkParsed (Some c) (acc ++ ps) o.
Proof.
  induction 1 as [|x ps Hx Hps IH]; intros c acc o.
  - simpl. now rewrite app_nil_r.
  - cbn [parseArgs_loop]. unfold plain in Hx. rewrite Hx.
    unfold add_plain. cbn [command positional options].
    rewrite IH. now rewrite <- app_assoc.
Qed.

(** X3.  On a command line without option tokens the first token is the
    command and the others are the positional arguments, all of them and
    in their order; no option is set. *)
Theorem parseArgs_plain_tokens :
  forall (c : string) (ps : list string),
    plain c -> Forall plain ps ->
    parseArgs (c :: ps) = mkParsed (Some c) ps [].
Proof.
  intros c ps Hc Hps. unfold parseArgs. cbn [parseArgs_loop].
  unfold plain in Hc. rewrite Hc. unfold add_plain. cbn [command positional options].
  now rewrite parseArgs_loop_plain.
Qed.

Lemma parseArgs_plain_tokens_witness :
  parseArgs ["event"; "abc"; "def"] = mkParsed (Some "event") ["abc"; "def"] [].
Proof.
  apply parseArgs_plain_tokens; [reflexivity | repeat constructor].
Defined.

(** ** The query string: separators, emptiness, decoding *)

Lemma count_char_append (c : ascii) (a b : string) :
  count_char c (a ++ b) = count_char c a + count_char c b.
Proof. induction a as [|x a IH]; simpl; [reflexivity | rewrite IH; lia]. Qed.

(** One encoded character holds neither [&] nor [=]. *)
Lemma encode_char_separators (a : ascii) :
  count_char "&" (if Uri.unreserved a then String a EmptyString else Uri.percent a) = 0
  /\ count_char "=" (if Uri.unreserved a then String a EmptyString else Uri.percent a) = 0.
Proof. destruct a as [[] [] [] [] [] [] [] []]; split; reflexivity. Qed.

Lemma encode_separators (s : string) :
  count_char "&" (Uri.encode s) = 0 /\ count_char "=" (Uri.encode s) = 0.
Proof.
  induction s as [|a s [IH1 IH2]]; [split; reflexivity|].
  cbn [Uri.encode]. rewrite !count_char_append, IH1, IH2.
  destruct (encode_char_separators a) as [-> ->]. split; reflexivity.
Qed.

Lemma query_part_separators (k : string) (v : JSValue) :
  count_char "&" (query_part k v) = 0 /\ count_char "=" (query_part k v) = 1.
Proof.
  unfold query_part, encodeURIComponent, Uri.encodeURIComponent.
  rewrite !count_char_append.
  destruct (encode_separators (to_string (VStr k))) as [-> ->].
  destruct (encode_separators (to_string v)) as [-> ->].
  split; reflexivity.
Qed.

Lemma join_separators (parts : list string) :
  Forall (fun p => count_char "&" p = 0 /\ count_char "=" p = 1) parts ->
  count_char "&" (Str.join "&" parts) = length parts - 1
  /\ count_char "=" (Str.join "&" parts) = length parts.
Proof.
  unfold Str.join. induction 1 as [|p parts [Hp1 Hp2] Hparts [IH1 IH2]];
    [split; reflexivity|].
  destruct parts as [|q parts].
  - simpl. rewrite Hp1, Hp2. split; reflexivity.
  - change (String.concat "&" (p :: q :: parts))
      with (p ++ "&" ++ String.concat "&" (q :: parts)).
    rewrite !count_char_append, Hp1, Hp2, IH1, IH2.
    simpl. split; lia.
Qed.

Lemma query_parts_sent (params : JSObject) :
  query_parts params
  = map (fun kv => query_part (fst kv) (snd kv)) (sent_entries params).
Proof. unfold query_parts, sent_entries. now rewrite fold_push_part. Qed.

Lemma query_parts_separators (params : JSObject) :
  Forall (fun p => count_char "&" p = 0 /\ count_char "=" p = 1)
         (map (fun kv => query_part (fst kv) (snd kv)) (sent_entries params)).
Proof.
  apply Forall_forall. intros p Hp. apply in_map_iff in Hp as ([k v] & <- & _).
  apply query_part_separators.
Qed.

Lemma query_string_equals (params : JSObject) :
  count_char "=" (buildQueryString params) = length (sent_entries params).
Proof.
  unfold buildQueryString. rewrite query_parts_sent.
  destruct (join_separators _ (query_parts_separators params)) as [_ H].
  now rewrite length_map in H.
Qed.

(** X4.  In the query string the separators can be trusted: whatever the
    keys and values hold, each entry that is sent contributes exactly one
    [=], and [&] occurs only between entries. *)
Theorem buildQueryString_separators :
  forall params : JSObject,
    count_char "=" (buildQueryString params) = length (sent_entries params)
    /\ count_char "&" (buildQueryString params) = length (sent_entries params) - 1.
Proof.
  intros params. split; [apply query_string_equals|].
  unfold buildQueryString. rewrite query_parts_sent.
  destruct (join_separators _ (query_parts_separators params)) as [H _].
  now rewrite length_map in H.
Qed.

(** X5.  The query string is empty exactly when there is nothing to send:
    the mapping is empty or all its values are null or undefined. *)
Theorem buildQueryString_empty :
  forall params : JSObject,
    buildQueryString params = ""
    <-> Forall (fun kv => nullish (snd kv) = true) (Obj.entries params).
Proof.
  intros params. split.
  - intros Hempty. pose proof (query_string_equals params) as Heq.
    rewrite Hempty in Heq. simpl in Heq.
    unfold sent_entries in Heq. symmetry in Heq. apply length_zero_iff_nil in Heq.
    apply Forall_forall. intros kv Hin.
    destruct (nullish (snd kv)) eqn:E; [reflexivity|].
    assert (Hsent : In kv (filter (fun kv => negb (nullish (snd kv))) (Obj.entries params)))
      by (apply filter_In; split; [assumption | now rewrite E]).
    rewrite Heq in Hsent. contradiction.
  - intros Hall. unfold buildQueryString. rewrite query_parts_sent.
    unfold sent_entries. replace (filter _ (Obj.entries params)) with (@nil (string * JSValue)); [reflexivity|].
    symmetry. induction Hall as [|kv l Hkv Hl IH]; [reflexivity|].
    simpl. now rewrite Hkv.
Qed.

Lemma buildQueryString_empty_witness :
  buildQueryString (Obj.literal [("timeMin", VUndefined); ("pageToken", VNull)]) = "".
Proof.
  apply (proj2 (buildQueryString_empty
                  (Obj.literal [("timeMin", VUndefined); ("pageToken", VNull)]))).
  vm_compute. repeat constructor.
Defined.

Lemma percent_decode_char (a : ascii) (rest : string) :
  percent_decode ((if Uri.unreserved a then String a EmptyString else Uri.percent a) ++ rest)
  = String a (percent_decode rest).
Proof. destruct a as [[] [] [] [] [] [] [] []]; reflexivity. Qed.

Lemma percent_decode_encode (s : string) : percent_decode (Uri.encode s) = s.
Proof.
  induction s as [|a s IH]; [reflexivity|].
  cbn [Uri.encode]. now rewrite percent_decode_char, IH.
Qed.

Lemma split_at_first_equals (a a' b b' : string) :
  count_char "=" a = 0 -> count_char "=" a' = 0 ->
  a ++ "=" ++ b = a' ++ "=" ++ b' -> a = a' /\ b = b'.
Proof.
  revert a'. induction a as [|c a IH]; intros [|c' a'] Ha Ha' Heq; simpl in *.
  - injection Heq as <-. now split.
  - injection Heq as <- _. discriminate.
  - injection Heq as -> _. discriminate.
  - injection Heq as <- Heq.
    destruct (Ascii.eqb c "="); [discriminate|].
    destruct (IH a' Ha Ha' Heq) as [-> ->]. now split.
Qed.

(** X6.  Percent-encoding loses nothing: decoding an encoded text gives
    the text back, so two entries with different keys or different value
    texts never produce the same [key=value] part. *)
Theorem query_part_injective :
  (forall s : string, percent_decode (Uri.encode s) = s)
  /\ forall (k k' : string) (v v' : JSValue),
       query_part k v = query_part k' v' -> k = k' /\ to_string v = to_string v'.
Proof.
  split; [exact percent_decode_encode|].
  intros k k' v v'. unfold query_part, encodeURIComponent, Uri.encodeURIComponent.
  cbn [to_string]. intros Heq.
  apply split_at_first_equals in Heq as [Hk Hv];
    try apply encode_separators.
  split.
  - rewrite <- (percent_decode_encode k), Hk. apply percent_decode_encode.
  - rewrite <- (percent_decode_encode (to_string v)), Hv. apply percent_decode_encode.
Qed.

Lemma query_part_injective_witness :
  "q" = "q" /\ to_string (VStr "5") = to_string (VNum (Int 5)).
Proof.
  apply (proj2 query_part_injective "q" "q" (VStr "5") (VNum (Int 5))).
  reflexivity.
Defined.

(** ** The service client: one request, its errors, its parameters *)

Lemma request_world (h : Host) (c : Client) (endpoint : string) (w : World) :
  snd (CalendarClient.request h c endpoint w)
  = mkWorld (trace w ++ [fetch_of c endpoint]) (clock_reads w).
Proof.
  unfold CalendarClient.request, try_catch, bind, emit, fetch_of. cbv zeta.
  destruct (authenticatedFetch h "google-calendar" (baseUrl c ++ endpoint))
    as [e|response]; unfold throw.
  - now destruct (Str.includes (message e) "Network permission denied").
  - destruct (ok response); cbn [negb]; unfold CalendarClient.response_json;
      destruct (json response) as [e|body]; unfold throw, ret;
      try (now destruct (Str.includes (message e) "Network permission denied"));
      try reflexivity.
    unfold prop. destruct (nullish body); unfold throw, ret;
      now destruct (Str.includes _ "Network permission denied").
Qed.

(** X7.  [request] calls [authenticatedFetch] exactly once, for its own
    endpoint and with the 15 second timeout, prints nothing and reads no
    clock, however it ends; it never ends the process, and what it
    returns is always the decoded body of a response that was [ok]. *)
Theorem request_single_fetch :
  forall (h : Host) (c : Client) (endpoint : string) (w : World),
    snd (CalendarClient.request h c endpoint w)
    = mkWorld (trace w ++ [fetch_of c endpoint]) (clock_reads w)
    /\ (forall code, fst (CalendarClient.request h c endpoint w) <> Exited code)
    /\ fst (CalendarClient.request h c endpoint w) <> Unmodelled
    /\ (forall body,
          fst (CalendarClient.request h c endpoint w) = Returned body ->
          exists response,
            authenticatedFetch h "google-calendar" (baseUrl c ++ endpoint) = inr response
            /\ ok response = true /\ json response = inr body).
Proof.
  intros h c endpoint w.
  unfold CalendarClient.request, try_catch, bind, emit, fetch_of. cbv zeta.
  destruct (authenticatedFetch h "google-calendar" (baseUrl c ++ endpoint))
    as [e|response] eqn:Hfetch; unfold throw.
  - destruct (Str.includes (message e) "Network permission denied");
      repeat split; try discriminate.
  - destruct (ok response) eqn:Hok; cbn [negb]; unfold CalendarClient.response_json.
    + destruct (json response) as [e|body] eqn:Hjson; unfold throw, ret.
      * destruct (Str.includes (message e) "Network permission denied");
          repeat split; try discriminate.
      * repeat split; try discriminate.
        intros b [= <-]. exists response. now repeat split.
    + destruct (json response) as [e|body] eqn:Hjson; unfold throw, ret.
      * destruct (Str.includes (message e) "Network permission denied");
          repeat split; try discriminate.
      * unfold prop. destruct (nullish body); unfold throw, ret;
          destruct (Str.includes _ "Network permission denied");
          repeat split; try discriminate.
Qed.

(** X8.  For a failure response with a JSON body, the error [request]
    throws carries the message of the body's [error] (or, when it names
    none, [HTTP <status>: <statusText>]), the HTTP status, the [error]'s
    code and the whole body. *)
Theorem request_error_fields :
  forall (h : Host) (c : Client) (endpoint : string) (response : Response)
         (body : JSValue) (w : World),
    authenticatedFetch h "google-calendar" (baseUrl c ++ endpoint) = inr response ->
    ok response = false -> json response = inr body -> nullish body = false ->
    Str.includes
      (to_string (js_or (get_opt (get_prop body "error") "message")
                        (VStr (http_message response))))
      "Network permission denied" = false ->
    CalendarClient.request h c endpoint w
    = (Thrown (mkError
                 (to_string (js_or (get_opt (get_prop body "error") "message")
                                   (VStr (http_message response))))
                 (VNum (Int (status response)))
                 (get_opt (get_prop body "error") "code")
                 body),
       mkWorld (trace w ++ [fetch_of c endpoint]) (clock_reads w))
    /\ (truthy (get_opt (get_prop body "error") "message") = false ->
        message (mkError
                   (to_string (js_or (get_opt (get_prop body "error") "message")
                                     (VStr (http_message response))))
                   (VNum (Int (status response)))
                   (get_opt (get_prop body "error") "code") body)
        = http_message response).
Proof.
  intros h c endpoint response body w Hfetch Hok Hjson Hbody Hnet.
  split.
  - unfold CalendarClient.request, try_catch, bind, emit, fetch_of. cbv zeta.
    rewrite Hfetch, Hok. cbn [negb]. unfold CalendarClient.response_json.
    rewrite Hjson. unfold ret, prop. rewrite Hbody. unfold ret, throw.
    cbn [message]. unfold http_message in Hnet. now rewrite Hnet.
  - intros Hnone. cbn [message]. unfold js_or. now rewrite Hnone.
Qed.

Lemma request_error_fields_witness :
  CalendarClient.request
    (Demo.host (fun _ => inr (mkResponse false 500 "Internal Server Error"
                                (inr (VObj [("error", VObj [("code", VNum (Int 500))])])))))
    (mkClient "https://www.googleapis.com/calendar/v3") "/users/me/calendarList?x"
    start_world
  = (Thrown (mkError "HTTP 500: Internal Server Error" (VNum (Int 500)) (VNum (Int 500))
               (VObj [("error", VObj [("code", VNum (Int 500))])])),
     mkWorld [CallFetch "google-calendar"
                "https://www.googleapis.com/calendar/v3/users/me/calendarList?x" 15000] 0).
Proof.
  apply (request_error_fields
           (Demo.host (fun _ => inr (mkResponse false 500 "Internal Server Error"
                                       (inr (VObj [("error", VObj [("code", VNum (Int 500))])])))))
           (mkClient "https://www.googleapis.com/calendar/v3") "/users/me/calendarList?x"
           (mkResponse false 500 "Internal Server Error"
              (inr (VObj [("error", VObj [("code", VNum (Int 500))])])))
           (VObj [("error", VObj [("code", VNum (Int 500))])]) start_world);
    reflexivity.
Defined.



Lemma listEvents_params_entries (options : JSObject) :
  Obj.entries (CalendarClient.listEvents_params options)
  = [ ("timeMin", Obj.get options "timeMin");
      ("timeMax", Obj.get options "timeMax");
      ("q", Obj.get options "query");
      ("maxResults", js_or (Obj.get options "maxResults") (VNum (Int 250)));
      ("singleEvents", VBool (CalendarClient.not_false (Obj.get options "singleEvents")));
      ("orderBy", js_or (Obj.get options "orderBy") (VStr "startTime"));
      ("showDeleted", js_or (Obj.get options "showDeleted") (VBool false)) ].
Proof. reflexivity. Qed.

(** X10.  Whatever options [listEvents] is given, its request carries
    [maxResults], [singleEvents], [orderBy] and [showDeleted]; the limit
    sent is never 0, NaN or empty, and recurring events are expanded
    unless the caller passed [singleEvents: false] itself. *)
Theorem listEvents_always_sends_defaults :
  forall options : JSObject,
    (forall k, In k listing_defaults ->
               In k (keys (sent_entries (CalendarClient.listEvents_params options))))
    /\ truthy (Obj.get (CalendarClient.listEvents_params options) "maxResults") = true
    /\ (Obj.get (CalendarClient.listEvents_params options) "singleEvents" = VBool false
        <-> Obj.get options "singleEvents" = VBool false)
    /\ truthy (Obj.get (CalendarClient.listEvents_params options) "orderBy") = true.
Proof.
  intros options.
  assert (Hor : forall a b, truthy b = true -> truthy (js_or a b) = true).
  { intros a b Hb. unfold js_or. now destruct (truthy a) eqn:E. }
  split; [|split; [|split]].
  - intros k Hk. unfold sent_entries. rewrite listEvents_params_entries.
    unfold keys. apply in_map_iff.
    destruct Hk as [<-|[<-|[<-|[<-|[]]]]].
    + exists ("maxResults", js_or (Obj.get options "maxResults") (VNum (Int 250))).
      split; [reflexivity|]. apply filter_In. split; [simpl; tauto|].
      cbn [snd]. now rewrite js_or_not_nullish.
    + exists ("singleEvents", VBool (CalendarClient.not_false (Obj.get options "singleEvents"))).
      split; [reflexivity|]. apply filter_In. split; [simpl; tauto | reflexivity].
    + exists ("orderBy", js_or (Obj.get options "orderBy") (VStr "startTime")).
      split; [reflexivity|]. apply filter_In. split; [simpl; tauto|].
      cbn [snd]. now rewrite js_or_not_nullish.
    + exists ("showDeleted", js_or (Obj.get options "showDeleted") (VBool false)).
      split; [reflexivity|]. apply filter_In. split; [simpl; tauto|].
      cbn [snd]. now rewrite js_or_not_nullish.
  - change (truthy (js_or (Obj.get options "maxResults") (VNum (Int 250))) = true).
    now apply Hor.
  - change (VBool (CalendarClient.not_false (Obj.get options "singleEvents")) = VBool false
            <-> Obj.get options "singleEvents" = VBool false).
    destruct (Obj.get options "singleEvents") as [| |[]| | | |]; simpl;
      split; intros H; try discriminate; reflexivity.
  - change (truthy (js_or (Obj.get options "orderBy") (VStr "startTime")) = true).
    now apply Hor.
Qed.

(** X11.  The text given to the client's [searchEvents] is never sent:
    [listEvents] takes the [q] parameter from [options.query], and
    [searchEvents] stores the text under [q].  Unless the caller's options
    hold a [query] of their own, the request has no [q] parameter at all. *)
Theorem searchEvents_query_not_sent :
  forall (query : JSValue) (options : JSObject),
    Obj.lookup "query" options = None ->
    Obj.get (CalendarClient.listEvents_params
               (CalendarClient.searchEvents_options query options)) "q" = VUndefined
    /\ ~ In "q" (keys (sent_entries (CalendarClient.listEvents_params
                                       (CalendarClient.searchEvents_options query options)))).
Proof.
  intros query options Hnone.
  assert (Hq : Obj.get (CalendarClient.searchEvents_options query options) "query"
               = VUndefined).
  { unfold CalendarClient.searchEvents_options.
    rewrite get_spread_absent by (now apply lookup_None). reflexivity. }
  split.
  - change (Obj.get (CalendarClient.searchEvents_options query options) "query" = VUndefined).
    exact Hq.
  - unfold sent_entries. rewrite listEvents_params_entries, Hq.
    unfold keys. intros Hin. apply in_map_iff in Hin as ([k v] & Hk & Hin).
    simpl in Hk. subst k. apply filter_In in Hin as [Hin Hv].
    simpl in Hin.
    destruct Hin as [H|[H|[H|[H|[H|[H|[H|[]]]]]]]]; try discriminate H.
    injection H as <-. discriminate Hv.
Qed.

Lemma searchEvents_query_not_sent_witness :
  Obj.get (CalendarClient.listEvents_params
             (CalendarClient.searchEvents_options (VStr "meeting")
                (Obj.literal [("calendar", VStr "primary"); ("maxResults", VNum (Int 50))])))
          "q" = VUndefined.
Proof.
  apply (searchEvents_query_not_sent (VStr "meeting")
           (Obj.literal [("calendar", VStr "primary"); ("maxResults", VNum (Int 50))])).
  reflexivity.
Defined.

(** The command line [search meeting] on the wire: no [q] parameter. *)
Example search_meeting :
  run (Demo.host (fun _ => Demo.ok_response (Demo.events 0))) ["search"; "meeting"; "--json"]
  = (Returned tt,
     [ CallHasToken "google-calendar";
       CallFetch "google-calendar"
         ("https://www.googleapis.com/calendar/v3/calendars/primary/events"
          ++ "?maxResults=50&singleEvents=true&orderBy=startTime&showDeleted=false")
         15000;
       LogJson (Demo.events 0) ]).
Proof. vm_compute. reflexivity. Qed.

Lemma request_single_fetch_witness :
  exists response,
    authenticatedFetch (Demo.host (fun _ => Demo.ok_response (Demo.events 1)))
      "google-calendar" ("https://www.googleapis.com/calendar/v3" ++ "/x")
    = inr response
    /\ ok response = true /\ json response = inr (Demo.events 1).
Proof.
  destruct (request_single_fetch (Demo.host (fun _ => Demo.ok_response (Demo.events 1)))
              (mkClient "https://www.googleapis.com/calendar/v3") "/x" start_world)
    as (_ & _ & _ & Hbody).
  apply Hbody. reflexivity.
Defined.

Lemma listEvents_always_sends_defaults_witness :
  In "orderBy" (keys (sent_entries (CalendarClient.listEvents_params Demo.zero_max)))
  /\ Obj.get (CalendarClient.listEvents_params
                (Obj.literal [("singleEvents", VBool false)])) "singleEvents"
     = VBool false.
Proof.
  split.
  - destruct (listEvents_always_sends_defaults Demo.zero_max) as (Hkeys & _).
    apply Hkeys. simpl. tauto.
  - destruct (listEvents_always_sends_defaults (Obj.literal [("singleEvents", VBool false)]))
      as (_ & _ & Hsingle & _).
    apply Hsingle. reflexivity.
Defined.

(** X12.  [getUpcomingEvents] reads the clock once and asks for the
    window from that instant to [days] times 24 hours later; the caller's
    options replace neither end unless they hold a [timeMin] or [timeMax]
    of their own.  When that later instant is not a date (the day count is
    NaN or out of range) it throws [Invalid time value] before any
    request. *)
Theorem getUpcomingEvents_window :
  forall (h : Host) (c : Client) (days : JSNum) (calendarId : JSValue)
         (options : JSObject) (w : World),
    time_clip (Int (clock h (clock_reads w))) = Some (clock h (clock_reads w)) ->
    (forall t_end,
        time_clip (CalendarClient.days_after (clock h (clock_reads w)) days) = Some t_end ->
        CalendarClient.getUpcomingEvents h c days calendarId options w
        = CalendarClient.listEvents h c
            (CalendarClient.default_arg calendarId (VStr "primary"))
            (CalendarClient.getUpcomingEvents_options
               (iso_text h (clock h (clock_reads w))) (iso_text h t_end) options)
            (mkWorld (trace w) (S (clock_reads w)))
        /\ (Obj.lookup "timeMin" options = None ->
            Obj.get (CalendarClient.listEvents_params
                       (CalendarClient.getUpcomingEvents_options
                          (iso_text h (clock h (clock_reads w))) (iso_text h t_end) options))
                    "timeMin" = VStr (iso_text h (clock h (clock_reads w))))
        /\ (Obj.lookup "timeMax" options = None ->
            Obj.get (CalendarClient.listEvents_params
                       (CalendarClient.getUpcomingEvents_options
                          (iso_text h (clock h (clock_reads w))) (iso_text h t_end) options))
                    "timeMax" = VStr (iso_text h t_end)))
    /\ (time_clip (CalendarClient.days_after (clock h (clock_reads w)) days) = None ->
        CalendarClient.getUpcomingEvents h c days calendarId options w
        = (Thrown (new_Error "Invalid time value"),
           mkWorld (trace w) (S (clock_reads w)))).
Proof.
  intros h c days calendarId options w Hnow. split.
  - intros t_end Hend. split; [|split].
    + unfold CalendarClient.getUpcomingEvents, bind, CalendarClient.now. cbv zeta.
      rewrite Hnow, Hend. reflexivity.
    + intros Hnone.
      change (Obj.get (CalendarClient.getUpcomingEvents_options
                         (iso_text h (clock h (clock_reads w))) (iso_text h t_end) options)
                      "timeMin" = VStr (iso_text h (clock h (clock_reads w)))).
      unfold CalendarClient.getUpcomingEvents_options.
      rewrite get_spread_absent by (now apply lookup_None). reflexivity.
    + intros Hnone.
      change (Obj.get (CalendarClient.getUpcomingEvents_options
                         (iso_text h (clock h (clock_reads w))) (iso_text h t_end) options)
                      "timeMax" = VStr (iso_text h t_end)).
      unfold CalendarClient.getUpcomingEvents_options.
      rewrite get_spread_absent by (now apply lookup_None). reflexivity.
  - intros Hend.
    unfold CalendarClient.getUpcomingEvents, bind, CalendarClient.now. cbv zeta.
    rewrite Hnow, Hend. reflexivity.
Qed.

Lemma getUpcomingEvents_window_witness :
  Obj.get (CalendarClient.listEvents_params
             (CalendarClient.getUpcomingEvents_options
                (iso_text Demo.busy 1767225600000) (iso_text Demo.busy 1767830400000)
                Demo.zero_max))
          "timeMax" = VStr "@1767830400000"
  /\ CalendarClient.getUpcomingEvents Demo.busy
       (mkClient "https://www.googleapis.com/calendar/v3") (Int 99999999999)
       (VStr "primary") Demo.zero_max start_world
     = (Thrown (new_Error "Invalid time value"), mkWorld [] 1).
Proof.
  split.
  - destruct (getUpcomingEvents_window Demo.busy
                (mkClient "https://www.googleapis.com/calendar/v3") (Int 7)
                (VStr "primary") Demo.zero_max start_world eq_refl) as [Hwin _].
    destruct (Hwin 1767830400000%Z eq_refl) as (_ & _ & Hmax).
    apply Hmax. reflexivity.
  - destruct (getUpcomingEvents_window Demo.busy
                (mkClient "https://www.googleapis.com/calendar/v3") (Int 99999999999)
                (VStr "primary") Demo.zero_max start_world eq_refl) as [_ Hbad].
    apply Hbad. reflexivity.
Defined.

(** ** The event formatter: the normalized record and the summary line *)

Lemma attendeeCount_of_list (event : JSValue) :
  attendee_list (get_prop event "attendees") = true ->
  get_prop (VObj (EventFormatter.format_fields event)) "attendees"
  = VArr (attendees_of event)
  /\ get_prop (VObj (EventFormatter.format_fields event)) "attendeeCount"
     = VNum (Int (Z.of_nat (length (attendees_of event)))).
Proof.
  read_normalized event "attendees" (js_or (get_prop event "attendees") (VArr [])).
  read_normalized event "attendeeCount"
    (get_prop (js_or (get_prop event "attendees") (VArr [])) "length").
  intros Hlist. unfold attendees_of.
  destruct (get_prop event "attendees"); try discriminate; split; reflexivity.
Qed.

(** X13.  Whatever the event holds, the record [format] builds has the
    sixteen fields in their fixed order, a title that is never empty
    (the placeholder stands in), a description and a location that are
    never null, and an attendee list that is never missing; [isAllDay]
    says exactly that the start has no [dateTime]; and when the event's
    attendees are a list, or absent, [attendeeCount] is the length of the
    list. *)
Theorem format_fields_invariants :
  forall event : JSValue,
    keys (EventFormatter.format_fields event) = normalized_keys
    /\ truthy (get_prop (VObj (EventFormatter.format_fields event)) "summary") = true
    /\ nullish (get_prop (VObj (EventFormatter.format_fields event)) "description") = false
    /\ nullish (get_prop (VObj (EventFormatter.format_fields event)) "location") = false
    /\ truthy (get_prop (VObj (EventFormatter.format_fields event)) "attendees") = true
    /\ get_prop (VObj (EventFormatter.format_fields event)) "isAllDay"
       = VBool (negb (truthy (get_opt (get_prop event "start") "dateTime")))
    /\ (attendee_list (get_prop event "attendees") = true ->
        get_prop (VObj (EventFormatter.format_fields event)) "attendees"
        = VArr (attendees_of event)
        /\ get_prop (VObj (EventFormatter.format_fields event)) "attendeeCount"
           = VNum (Int (Z.of_nat (length (attendees_of event))))).
Proof.
  intros event.
  assert (Hor : forall a b, truthy b = true -> truthy (js_or a b) = true).
  { intros a b Hb. unfold js_or. now destruct (truthy a) eqn:E. }
  split; [reflexivity|].
  read_normalized event "summary" (js_or (get_prop event "summary") (VStr "(No title)")).
  read_normalized event "description" (js_or (get_prop event "description") (VStr "")).
  read_normalized event "location" (js_or (get_prop event "location") (VStr "")).
  read_normalized event "attendees" (js_or (get_prop event "attendees") (VArr [])).
  read_normalized event "attendeeCount"
    (get_prop (js_or (get_prop event "attendees") (VArr [])) "length").
  split; [now apply Hor|].
  split; [now apply js_or_not_nullish|].
  split; [now apply js_or_not_nullish|].
  split; [now apply Hor|].
  split; [reflexivity|].
  intros Hlist. unfold attendees_of.
  destruct (get_prop event "attendees"); try discriminate; split; reflexivity.
Qed.

Lemma format_fields_invariants_witness :
  get_prop (VObj (EventFormatter.format_fields Demo.lunch)) "attendees" = VArr []
  /\ get_prop (VObj (EventFormatter.format_fields Demo.lunch)) "attendeeCount"
     = VNum (Int 0).
Proof.
  destruct (format_fields_invariants Demo.lunch) as (_ & _ & _ & _ & _ & _ & H).
  apply H. reflexivity.
Defined.

Lemma formatTimeRange_returns (h : Host) (event : JSValue) (w : World) :
  nullish event = false ->
  EventFormatter.formatTimeRange h event w
  = (Returned
       (if truthy (get_opt (get_prop event "start") "dateTime")
        then time_text h (get_opt (get_prop event "start") "dateTime") ++ " - "
             ++ formatTime h (js_or (get_opt (get_prop event "end") "dateTime")
                                    (get_opt (get_prop event "end") "date"))
        else "All day"),
     w).
Proof.
  intros Hev.
  unfold EventFormatter.formatTimeRange, EventFormatter.format, bind, ret.
  rewrite Hev.
  read_normalized event "isAllDay"
    (VBool (negb (truthy (get_opt (get_prop event "start") "dateTime")))).
  read_normalized event "start"
    (js_or (get_opt (get_prop event "start") "dateTime")
           (get_opt (get_prop event "start") "date")).
  read_normalized event "end"
    (js_or (get_opt (get_prop event "end") "dateTime")
           (get_opt (get_prop event "end") "date")).
  cbn [truthy]. unfold js_or at 1, formatTime at 1.
  destruct (truthy (get_opt (get_prop event "start") "dateTime")) eqn:E;
    cbn [negb]; [now rewrite E | reflexivity].
Qed.

(** X14.  [formatTimeRange] answers [All day] exactly for the events whose
    start has no [dateTime], an event without any start among them; for
    the others it joins the two clock times with [ - ], the second one
    empty when the event has no end.  Only a null or undefined event makes
    it throw. *)
Theorem formatTimeRange_cases :
  forall (h : Host) (event : JSValue) (w : World),
    (nullish event = false ->
     EventFormatter.formatTimeRange h event w
     = (Returned
          (if truthy (get_opt (get_prop event "start") "dateTime")
           then time_text h (get_opt (get_prop event "start") "dateTime") ++ " - "
                ++ formatTime h (js_or (get_opt (get_prop event "end") "dateTime")
                                       (get_opt (get_prop event "end") "date"))
           else "All day"),
        w))
    /\ (nullish event = true ->
        EventFormatter.formatTimeRange h event w
        = (Thrown (TypeError_read event "start"), w)).
Proof.
  intros h event w. split; intros Hev.
  - now apply formatTimeRange_returns.
  - unfold EventFormatter.formatTimeRange, EventFormatter.format, bind, throw.
    now rewrite Hev.
Qed.

Lemma formatTimeRange_cases_witness :
  EventFormatter.formatTimeRange Demo.busy Demo.lunch start_world
  = (Returned "All day", start_world)
  /\ EventFormatter.formatTimeRange Demo.busy Demo.meeting start_world
     = (Returned "2026-01-02T10:00:00Z - 2026-01-02T11:00:00Z", start_world)
  /\ EventFormatter.formatTimeRange Demo.busy (VObj []) start_world
     = (Returned "All day", start_world).
Proof.
  split; [|split].
  - apply (formatTimeRange_cases Demo.busy Demo.lunch start_world). reflexivity.
  - apply (formatTimeRange_cases Demo.busy Demo.meeting start_world). reflexivity.
  - apply (formatTimeRange_cases Demo.busy (VObj []) start_world). reflexivity.
Defined.

Lemma js_length_append (a b : string) :
  Str.js_length (a ++ b) = Str.js_length a + Str.js_length b.
Proof. induction a as [|c a IH]; simpl; [reflexivity | rewrite IH; lia]. Qed.

Lemma js_length_spaces (n : nat) : Str.js_length (Str.spaces n) = n.
Proof. induction n as [|n IH]; simpl; [reflexivity | now rewrite IH]. Qed.

Lemma js_length_padEnd (s : string) (n : nat) :
  Str.js_length (Str.padEnd s n) = Nat.max (Str.js_length s) n.
Proof. unfold Str.padEnd. rewrite js_length_append, js_length_spaces. lia. Qed.

(** X15.  With the three display options off, [formatSummary] gives the
    one base line and nothing after it, whatever the event holds: the
    time range, padded so that it fills at least 20 columns, a space and
    the title. *)
Theorem formatSummary_options_off :
  forall (h : Host) (event showLocation showAttendees showStatus : JSValue)
         (w : World),
    nullish event = false ->
    truthy showLocation = false -> truthy showAttendees = false ->
    truthy showStatus = false ->
    exists timeRange : string,
      EventFormatter.formatTimeRange h event w = (Returned timeRange, w)
      /\ EventFormatter.formatSummary h event showLocation showAttendees showStatus w
         = (Returned (Str.padEnd timeRange 20 ++ " "
                      ++ to_string (js_or (get_prop event "summary") (VStr "(No title)"))),
            w)
      /\ 20 <= Str.js_length (Str.padEnd timeRange 20).
Proof.
  intros h event showLocation showAttendees showStatus w Hev Hl Ha Hs.
  pose proof (formatTimeRange_returns h event w Hev) as Hrange. eexists. split; [exact Hrange|]. split.
  - unfold EventFormatter.formatSummary.
    unfold bind at 1. unfold EventFormatter.format at 1. rewrite Hev. unfold ret at 1.
    rewrite (bind_returned _ _ _ _ _ Hrange).
    unfold EventFormatter.and_then. rewrite Ha, Hl, Hs. cbn [andb].
    unfold bind, ret.
    read_normalized event "summary" (js_or (get_prop event "summary") (VStr "(No title)")).
    reflexivity.
  - rewrite js_length_padEnd. lia.
Qed.

Lemma formatSummary_options_off_witness :
  EventFormatter.formatSummary Demo.busy Demo.lunch (VBool false) VUndefined VUndefined
    start_world
  = (Returned "All day              Lunch", start_world).
Proof.
  destruct (formatSummary_options_off Demo.busy Demo.lunch (VBool false) VUndefined
              VUndefined start_world eq_refl eq_refl eq_refl eq_refl)
    as (timeRange & Hrange & Hsum & _).
  assert (timeRange = "All day") by (vm_compute in Hrange; congruence).
  subst timeRange. exact Hsum.
Defined.

(** X16.  On an event record [formatSummary] always returns, and its
    text is the base line followed by the line of the location (when that
    option is on and the location is not empty), the line of the attendee
    count (when that option is on and there is at least one attendee; the
    count is the length of the list) and the line of the status (when that
    option is on and the status is not [confirmed]), in this order. *)
Theorem formatSummary_lines :
  forall (h : Host) (event showLocation showAttendees showStatus : JSValue)
         (w : World),
    EventRecord event = true ->
    exists timeRange : string,
      EventFormatter.formatTimeRange h event w = (Returned timeRange, w)
      /\ EventFormatter.formatSummary h event showLocation showAttendees showStatus w
         = (Returned
              ((((Str.padEnd timeRange 20 ++ " "
                  ++ to_string (js_or (get_prop event "summary") (VStr "(No title)")))
                 ++ (if truthy showLocation
                        && truthy (js_or (get_prop event "location") (VStr ""))
                     then location_line (js_or (get_prop event "location") (VStr ""))
                     else ""))
                ++ (if truthy showAttendees
                       && (0 <? Z.of_nat (length (attendees_of event)))%Z
                    then attendees_line (VNum (Int (Z.of_nat (length (attendees_of event)))))
                    else ""))
               ++ (if truthy showStatus && strict_ne (get_prop event "status") "confirmed"
                   then status_line (get_prop event "status")
                   else "")),
            w).
Proof.
  intros h event showLocation showAttendees showStatus w Hwf.
  assert (Hev : nullish event = false) by (now destruct event).
  assert (Hatt : attendee_list (get_prop event "attendees") = true).
  { destruct event; try discriminate. cbn in Hwf.
    now apply andb_true_iff in Hwf as [_ Hwf]. }
  pose proof (formatTimeRange_returns h event w Hev) as Hrange. eexists. split; [exact Hrange|].
  destruct (attendeeCount_of_list event Hatt) as [_ Hcount'].
  unfold EventFormatter.formatSummary.
  unfold bind at 1. unfold EventFormatter.format at 1. rewrite Hev. unfold ret at 1.
  rewrite (bind_returned _ _ _ _ _ Hrange).
  rewrite Hcount'.
  read_normalized event "summary" (js_or (get_prop event "summary") (VStr "(No title)")).
  read_normalized event "location" (js_or (get_prop event "location") (VStr "")).
  read_normalized event "status" (get_prop event "status").
  unfold EventFormatter.and_then, gt, bind, ret.
  assert (Happ : forall s : string, s ++ "" = s)
    by (induction s as [|c s IH]; simpl; congruence).
  destruct (truthy showAttendees); cbn [andb];
    [destruct (0 <? Z.of_nat (length (attendees_of event)))%Z|];
    destruct (truthy showLocation && truthy (js_or (get_prop event "location") (VStr "")));
    destruct (truthy showStatus && strict_ne (get_prop event "status") "confirmed");
    rewrite ?Happ; reflexivity.
Qed.

Lemma formatSummary_lines_witness :
  EventFormatter.formatSummary Demo.busy Demo.meeting (VBool true) (VBool true)
    (VBool true) start_world
  = (Returned "2026-01-02T10:00:00Z - 2026-01-02T11:00:00Z Standup", start_world).
Proof.
  destruct (formatSummary_lines Demo.busy Demo.meeting (VBool true) (VBool true)
              (VBool true) start_world eq_refl) as (timeRange & Hrange & Hsum).
  assert (timeRange = "2026-01-02T10:00:00Z - 2026-01-02T11:00:00Z")
    by (vm_compute in Hrange; congruence).
  subst timeRange. rewrite Hsum. vm_compute. reflexivity.
Defined.

(** ** Disciplines: the rules of sequencing *)

Create HintDb flow discriminated.

Lemma app_nil_frame (w : World) : trace w = (trace w ++ [])%list.
Proof. now rewrite app_nil_r. Qed.

Lemma orderly_ret {A} (a : A) : orderly (ret a).
Proof. intros w. exists []. split; [apply app_nil_frame | now split]. Qed.

Lemma orderly_throw {A} (e : JSError) : orderly (@throw A e).
Proof. intros w. exists []. split; [apply app_nil_frame | now split]. Qed.

Lemma orderly_unmodelled {A} : orderly (@unmodelled A).
Proof. intros w. exists []. split; [apply app_nil_frame | now split]. Qed.

Lemma orderly_emit (e : Effect) :
  is_err e = false -> is_envelope e = false -> orderly (emit e).
Proof.
  intros He Hv w. exists [e]. cbn. rewrite He, Hv. now repeat split.
Qed.

Lemma orderly_console_log (line : string) : orderly (console_log line).
Proof. now apply orderly_emit. Qed.

Lemma orderly_bind {A B} (m : M A) (k : A -> M B) :
  orderly m -> (forall a, orderly (k a)) -> orderly (bind m k).
Proof.
  intros Hm Hk w. unfold bind. destruct (Hm w) as (o1 & Ht1 & Hv1 & Ho1).
  destruct (m w) as [[a|e|c|] w1]; cbn [fst snd] in *.
  - destruct (Hk a w1) as (o2 & Ht2 & Hv2 & Ho2).
    exists (o1 ++ o2)%list. rewrite Ht2, Ht1, app_assoc, forallb_app, Hv1, Hv2.
    split; [reflexivity | split; [reflexivity|]].
    destruct (fst (k a w1)); auto.
    + now rewrite existsb_app, Ho1, Ho2.
    + destruct Ho2 as [-> Ho2]. split; [reflexivity|].
      rewrite existsb_app, Ho2. apply orb_true_r.
  - exists o1. now repeat split.
  - exists o1. now repeat split.
  - exists o1. now repeat split.
Qed.

Lemma fails_orderly {A} (m : M A) : fails m -> orderly m.
Proof.
  intros Hm w. destruct (Hm w) as (out & Ht & Hv & Ho). exists out.
  split; [assumption | split; [assumption|]].
  destruct (fst (m w)); tauto.
Qed.

Lemma stops_framed {A} (m : M A) : stops m -> framed m.
Proof.
  intros Hm w. destruct (Hm w) as (out & Ht & Hv & Ho). exists out.
  split; [assumption | split; [assumption|]].
  destruct (fst (m w)); tauto.
Qed.

Lemma orderly_framed {A} (m : M A) : orderly m -> framed m.
Proof.
  intros Hm w. destruct (Hm w) as (out & Ht & Hv & Ho). exists out.
  split; [assumption | split; [assumption|]].
  destruct (fst (m w)); tauto.
Qed.

Lemma framed_console_error (line : string) : framed (console_error line).
Proof. intros w. exists [Err line]. now repeat split. Qed.

Lemma stops_throw {A} (e : JSError) : stops (@throw A e).
Proof. intros w. exists []. split; [apply app_nil_frame | now split]. Qed.

Lemma stops_exit {A} : stops (@process_exit A 1).
Proof. intros w. exists []. split; [apply app_nil_frame | now split]. Qed.

Lemma stops_bind {A B} (m : M A) (k : A -> M B) :
  framed m -> (forall a, stops (k a)) -> stops (bind m k).
Proof.
  intros Hm Hk w. unfold bind. destruct (Hm w) as (o1 & Ht1 & Hv1 & Ho1).
  destruct (m w) as [[a|e|c|] w1]; cbn [fst snd] in *.
  - destruct (Hk a w1) as (o2 & Ht2 & Hv2 & Ho2).
    exists (o1 ++ o2)%list. rewrite Ht2, Ht1, app_assoc, forallb_app, Hv1, Hv2.
    now repeat split.
  - exists o1. now repeat split.
  - exists o1. now repeat split.
  - exists o1. now repeat split.
Qed.

(** A line on standard error, then something that never returns. *)
Lemma fails_error {A} (line : string) (m : M A) :
  stops m -> fails (console_error line ;; m).
Proof.
  intros Hm w. unfold bind, console_error, emit.
  destruct (Hm (mkWorld (trace w ++ [Err line]) (clock_reads w)))
    as (out & Ht & Hv & Ho). cbn [trace] in Ht.
  exists (Err line :: out). rewrite Ht, <- app_assoc.
  split; [reflexivity | split; [exact Hv|]].
  destruct (fst (m _)); try tauto; now split.
Qed.

Lemma fails_throw {A} (e : JSError) : fails (@throw A e).
Proof. intros w. exists []. split; [apply app_nil_frame | now split]. Qed.

Lemma orderly_try_catch {A} (m : M A) (handler : JSError -> M A) :
  orderly m -> (forall e, fails (handler e)) -> orderly (try_catch m handler).
Proof.
  intros Hm Hh w. unfold try_catch. destruct (Hm w) as (o1 & Ht1 & Hv1 & Ho1).
  destruct (m w) as [[a|e|c|] w1]; cbn [fst snd] in *.
  - exists o1. now repeat split.
  - destruct (Hh e w1) as (o2 & Ht2 & Hv2 & Ho2).
    exists (o1 ++ o2)%list. rewrite Ht2, Ht1, app_assoc, forallb_app, Hv1, Hv2.
    split; [reflexivity | split; [reflexivity|]].
    destruct (fst (handler e w1)); try tauto.
    destruct Ho2 as [-> Ho2]. split; [reflexivity|].
    rewrite existsb_app, Ho2. apply orb_true_r.
  - exists o1. now repeat split.
  - exists o1. now repeat split.
Qed.

Lemma offline_ret {A} (a : A) : offline (ret a).
Proof. intros w. exists []. split; [apply app_nil_frame | reflexivity]. Qed.

Lemma offline_throw {A} (e : JSError) : offline (@throw A e).
Proof. intros w. exists []. split; [apply app_nil_frame | reflexivity]. Qed.

Lemma offline_exit {A} (code : Z) : offline (@process_exit A code).
Proof. intros w. exists []. split; [apply app_nil_frame | reflexivity]. Qed.

Lemma offline_unmodelled {A} : offline (@unmodelled A).
Proof. intros w. exists []. split; [apply app_nil_frame | reflexivity]. Qed.

Lemma offline_emit (e : Effect) : capability_call e = false -> offline (emit e).
Proof. intros He w. exists [e]. cbn. now rewrite He. Qed.

Lemma offline_console_log (line : string) : offline (console_log line).
Proof. now apply offline_emit. Qed.

Lemma offline_console_error (line : string) : offline (console_error line).
Proof. now apply offline_emit. Qed.

Lemma offline_bind {A B} (m : M A) (k : A -> M B) :
  offline m -> (forall a, offline (k a)) -> offline (bind m k).
Proof.
  intros Hm Hk w. unfold bind. destruct (Hm w) as (o1 & Ht1 & Hc1).
  destruct (m w) as [[a|e|c|] w1]; cbn [fst snd] in *;
    try (exists o1; now split).
  destruct (Hk a w1) as (o2 & Ht2 & Hc2).
  exists (o1 ++ o2)%list. now rewrite Ht2, Ht1, app_assoc, existsb_app, Hc1, Hc2.
Qed.

Lemma offline_try_catch {A} (m : M A) (handler : JSError -> M A) :
  offline m -> (forall e, offline (handler e)) -> offline (try_catch m handler).
Proof.
  intros Hm Hh w. unfold try_catch. destruct (Hm w) as (o1 & Ht1 & Hc1).
  destruct (m w) as [[a|e|c|] w1]; cbn [fst snd] in *;
    try (exists o1; now split).
  destruct (Hh e w1) as (o2 & Ht2 & Hc2).
  exists (o1 ++ o2)%list. now rewrite Ht2, Ht1, app_assoc, existsb_app, Hc1, Hc2.
Qed.

Lemma caught_ret {A} (a : A) : caught (ret a).
Proof. intros w e. discriminate. Qed.

Lemma caught_exit {A} (code : Z) : caught (@process_exit A code).
Proof. intros w e. discriminate. Qed.

Lemma caught_emit (x : Effect) : caught (emit x).
Proof. intros w e. discriminate. Qed.

Lemma caught_bind {A B} (m : M A) (k : A -> M B) :
  caught m -> (forall a, caught (k a)) -> caught (bind m k).
Proof.
  intros Hm Hk w e. unfold bind. specialize (Hm w).
  destruct (m w) as [[a|e'|c|] w1]; cbn [fst] in *; try discriminate.
  - apply Hk.
  - exfalso. now apply (Hm e').
Qed.

Lemma caught_try_catch {A} (m : M A) (handler : JSError -> M A) :
  (forall e, caught (handler e)) -> caught (try_catch m handler).
Proof.
  intros Hh w e. unfold try_catch.
  destruct (m w) as [[a|e'|c|] w1]; cbn [fst]; try discriminate.
  apply Hh.
Qed.

#[local] Hint Resolve orderly_ret orderly_throw orderly_unmodelled orderly_console_log
  fails_orderly stops_framed orderly_framed framed_console_error stops_throw
  stops_exit fails_throw offline_ret offline_throw offline_exit offline_unmodelled
  offline_console_log offline_console_error caught_ret caught_exit caught_emit : flow.

(** One step of a proof by the rules: sequencing, handlers, and the
    branches of a conditional. *)
Ltac flow_step :=
  cbv beta zeta;
  match goal with
  | |- orderly (bind (console_error _) _) => apply fails_orderly, fails_error
  | |- fails (bind (console_error _) _) => apply fails_error
  | |- orderly (bind _ _) => apply orderly_bind; [|intros ?]
  | |- orderly (try_catch _ _) => apply orderly_try_catch; [|intros ?]
  | |- stops (bind _ _) => apply stops_bind; [|intros ?]
  | |- offline (bind _ _) => apply offline_bind; [|intros ?]
  | |- offline (try_catch _ _) => apply offline_try_catch; [|intros ?]
  | |- caught (bind _ _) => apply caught_bind; [|intros ?]
  | |- caught (try_catch _ _) => apply caught_try_catch; intros ?
  | |- ?P (if ?b then _ else _) => destruct b
  | |- ?P (match ?x with _ => _ end) => destruct x
  | |- _ => solve [auto with flow]
  end.

Ltac flow := repeat flow_step.

(** ** Disciplines of the building blocks *)

Lemma orderly_prop (v : JSValue) (k : string) : orderly (prop v k).
Proof. unfold prop. flow. Qed.

Lemma offline_prop (v : JSValue) (k : string) : offline (prop v k).
Proof. unfold prop. flow. Qed.

Lemma orderly_gt (v : JSValue) (n : Z) : orderly (gt v n).
Proof. unfold gt. flow. Qed.

Lemma offline_gt (v : JSValue) (n : Z) : offline (gt v n).
Proof. unfold gt. flow. Qed.

Lemma orderly_minus (v : JSValue) (n : Z) : orderly (minus v n).
Proof. unfold minus. flow. Qed.

Lemma offline_minus (v : JSValue) (n : Z) : offline (minus v n).
Proof. unfold minus. flow. Qed.

Lemma orderly_iterate (v : JSValue) (expr : string) : orderly (iterate v expr).
Proof. unfold iterate. flow. Qed.

Lemma offline_iterate (v : JSValue) (expr : string) : offline (iterate v expr).
Proof. unfold iterate. flow. Qed.

#[local] Hint Resolve orderly_prop offline_prop orderly_gt offline_gt orderly_minus
  offline_minus orderly_iterate offline_iterate : flow.

Lemma orderly_for_each {A} (l : list A) (body : A -> M unit) :
  (forall x, orderly (body x)) -> orderly (for_each l body).
Proof. intros Hbody. induction l; cbn [for_each]; flow. Qed.

Lemma offline_for_each {A} (l : list A) (body : A -> M unit) :
  (forall x, offline (body x)) -> offline (for_each l body).
Proof. intros Hbody. induction l; cbn [for_each]; flow. Qed.

Lemma orderly_now (h : Host) : orderly (CalendarClient.now h).
Proof. intros w. exists []. cbn. rewrite app_nil_r. now repeat split. Qed.

Lemma offline_now (h : Host) : offline (CalendarClient.now h).
Proof. intros w. exists []. cbn. rewrite app_nil_r. now split. Qed.

Lemma orderly_toISOString (h : Host) (d : option Z) :
  orderly (CalendarClient.toISOString h d).
Proof. unfold CalendarClient.toISOString. flow. Qed.

Lemma offline_toISOString (h : Host) (d : option Z) :
  offline (CalendarClient.toISOString h d).
Proof. unfold CalendarClient.toISOString. flow. Qed.

#[local] Hint Resolve orderly_now offline_now orderly_toISOString offline_toISOString
  : flow.

Lemma orderly_and_then (flag : JSValue) (test : M bool) :
  orderly test -> orderly (EventFormatter.and_then flag test).
Proof. intros Ht. unfold EventFormatter.and_then. flow. Qed.

Lemma offline_and_then (flag : JSValue) (test : M bool) :
  offline test -> offline (EventFormatter.and_then flag test).
Proof. intros Ht. unfold EventFormatter.and_then. flow. Qed.

#[local] Hint Resolve orderly_and_then offline_and_then : flow.

Lemma orderly_format (event : JSValue) : orderly (EventFormatter.format event).
Proof. unfold EventFormatter.format. flow. Qed.

Lemma offline_format (event : JSValue) : offline (EventFormatter.format event).
Proof. unfold EventFormatter.format. flow. Qed.

#[local] Hint Resolve orderly_format offline_format : flow.

Lemma orderly_formatTimeRange (h : Host) (event : JSValue) :
  orderly (EventFormatter.formatTimeRange h event).
Proof. unfold EventFormatter.formatTimeRange. flow. Qed.

Lemma offline_formatTimeRange (h : Host) (event : JSValue) :
  offline (EventFormatter.formatTimeRange h event).
Proof. unfold EventFormatter.formatTimeRange. flow. Qed.

#[local] Hint Resolve orderly_formatTimeRange offline_formatTimeRange : flow.

Lemma orderly_formatSummary (h : Host) (event a b c : JSValue) :
  orderly (EventFormatter.formatSummary h event a b c).
Proof. unfold EventFormatter.formatSummary. flow. Qed.

Lemma offline_formatSummary (h : Host) (event a b c : JSValue) :
  offline (EventFormatter.formatSummary h event a b c).
Proof. unfold EventFormatter.formatSummary. flow. Qed.

#[local] Hint Resolve orderly_formatSummary offline_formatSummary : flow.

Lemma orderly_non_empty (items : JSValue) : orderly (non_empty items).
Proof. unfold non_empty. flow. Qed.

Lemma offline_non_empty (items : JSValue) : offline (non_empty items).
Proof. unfold non_empty. flow. Qed.

Lemma orderly_find_with (k : string) (l : list JSValue) : orderly (find_with k l).
Proof. induction l; cbn [find_with]; flow. Qed.

Lemma offline_find_with (k : string) (l : list JSValue) : offline (find_with k l).
Proof. induction l; cbn [find_with]; flow. Qed.

#[local] Hint Resolve orderly_non_empty offline_non_empty orderly_find_with
  offline_find_with : flow.

Lemma orderly_array_find (items : JSValue) (expr k : string) :
  orderly (array_find items expr k).
Proof. unfold array_find. flow. Qed.

Lemma offline_array_find (items : JSValue) (expr k : string) :
  offline (array_find items expr k).
Proof. unfold array_find. flow. Qed.

Lemma orderly_print_calendar (args : ParsedArguments) (cal : JSValue) :
  orderly (print_calendar args cal).
Proof. unfold print_calendar. flow. Qed.

Lemma offline_print_calendar (args : ParsedArguments) (cal : JSValue) :
  offline (print_calendar args cal).
Proof. unfold print_calendar. flow. Qed.

Lemma orderly_print_event (h : Host) (args : ParsedArguments) (event : JSValue) :
  orderly (print_event h args event).
Proof. unfold print_event. flow. Qed.

Lemma offline_print_event (h : Host) (args : ParsedArguments) (event : JSValue) :
  offline (print_event h args event).
Proof. unfold print_event. flow. Qed.

Lemma orderly_print_match (h : Host) (args : ParsedArguments) (event : JSValue) :
  orderly (print_match h args event).
Proof. unfold print_match. flow. Qed.

Lemma offline_print_match (h : Host) (args : ParsedArguments) (event : JSValue) :
  offline (print_match h args event).
Proof. unfold print_match. flow. Qed.

Lemma orderly_print_attendee (attendee : JSValue) : orderly (print_attendee attendee).
Proof. unfold print_attendee. flow. Qed.

Lemma offline_print_attendee (attendee : JSValue) : offline (print_attendee attendee).
Proof. unfold print_attendee. flow. Qed.

Lemma orderly_slice10 (attendees : JSValue) : orderly (slice10 attendees).
Proof. unfold slice10. flow. Qed.

Lemma offline_slice10 (attendees : JSValue) : offline (slice10 attendees).
Proof. unfold slice10. flow. Qed.

Lemma orderly_set_time (h : Host) (k : string) (v : JSValue) (options : JSObject) :
  orderly (set_time h k v options).
Proof. unfold set_time. flow. Qed.

Lemma offline_set_time (h : Host) (k : string) (v : JSValue) (options : JSObject) :
  offline (set_time h k v options).
Proof. unfold set_time. flow. Qed.

#[local] Hint Resolve orderly_array_find offline_array_find orderly_print_calendar
  offline_print_calendar orderly_print_event offline_print_event orderly_print_match
  offline_print_match orderly_print_attendee offline_print_attendee orderly_slice10
  offline_slice10 orderly_set_time offline_set_time orderly_for_each offline_for_each
  : flow.

Lemma orderly_upcoming_loop (h : Host) (args : ParsedArguments) (events : list JSValue) :
  forall (currentDate : string) (count : Z),
    orderly (upcoming_loop h args events currentDate count).
Proof. induction events; intros currentDate count; cbn [upcoming_loop]; flow. Qed.

Lemma offline_upcoming_loop (h : Host) (args : ParsedArguments) (events : list JSValue) :
  forall (currentDate : string) (count : Z),
    offline (upcoming_loop h args events currentDate count).
Proof. induction events; intros currentDate count; cbn [upcoming_loop]; flow. Qed.

Lemma orderly_printHelp : orderly printHelp.
Proof. unfold printHelp. flow. Qed.

Lemma offline_printHelp : offline printHelp.
Proof. unfold printHelp. flow. Qed.

#[local] Hint Resolve orderly_upcoming_loop offline_upcoming_loop orderly_printHelp
  offline_printHelp : flow.

(** *** The client *)

Lemma orderly_constructor (h : Host) : orderly (CalendarClient.constructor h).
Proof.
  unfold CalendarClient.constructor. flow.
  apply orderly_emit; reflexivity.
Qed.

Lemma orderly_response_json (h : Host) (response : Response) :
  orderly (CalendarClient.response_json response).
Proof. unfold CalendarClient.response_json. flow. Qed.

#[local] Hint Resolve orderly_constructor orderly_response_json : flow.

Lemma orderly_request (h : Host) (c : Client) (endpoint : string) :
  orderly (CalendarClient.request h c endpoint).
Proof.
  unfold CalendarClient.request. flow.
  apply orderly_emit; reflexivity.
Qed.

#[local] Hint Resolve orderly_request : flow.

Lemma orderly_listCalendars (h : Host) (c : Client) (options : JSObject) :
  orderly (CalendarClient.listCalendars h c options).
Proof. unfold CalendarClient.listCalendars. flow. Qed.

Lemma orderly_listEvents (h : Host) (c : Client) (calendarId : JSValue)
  (options : JSObject) :
  orderly (CalendarClient.listEvents h c calendarId options).
Proof. unfold CalendarClient.listEvents. flow. Qed.

Lemma orderly_getEvent (h : Host) (c : Client) (calendarId eventId : JSValue) :
  orderly (CalendarClient.getEvent h c calendarId eventId).
Proof. unfold CalendarClient.getEvent. flow. Qed.

Lemma orderly_getCalendar (h : Host) (c : Client) (calendarId : JSValue) :
  orderly (CalendarClient.getCalendar h c calendarId).
Proof. unfold CalendarClient.getCalendar. flow. Qed.

#[local] Hint Resolve orderly_listCalendars orderly_listEvents orderly_getEvent
  orderly_getCalendar : flow.

Lemma orderly_getTodayEvents (h : Host) (c : Client) (calendarId : JSValue)
  (options : JSObject) :
  orderly (CalendarClient.getTodayEvents h c calendarId options).
Proof. unfold CalendarClient.getTodayEvents. flow. Qed.

Lemma orderly_getUpcomingEvents (h : Host) (c : Client) (days : JSNum)
  (calendarId : JSValue) (options : JSObject) :
  orderly (CalendarClient.getUpcomingEvents h c days calendarId options).
Proof. unfold CalendarClient.getUpcomingEvents. flow. Qed.

Lemma orderly_client_searchEvents (h : Host) (c : Client) (query : JSValue)
  (options : JSObject) :
  orderly (CalendarClient.searchEvents h c query options).
Proof. unfold CalendarClient.searchEvents. flow. Qed.

#[local] Hint Resolve orderly_getTodayEvents orderly_getUpcomingEvents
  orderly_client_searchEvents : flow.

(** ** Disciplines of the command handlers *)

Lemma orderly_emit_json (v : JSValue) : orderly (emit (LogJson v)).
Proof. now apply orderly_emit. Qed.

Lemma offline_emit_json (v : JSValue) : offline (emit (LogJson v)).
Proof. now apply offline_emit. Qed.

Lemma offline_emit_envelope (v : JSValue) : offline (emit (ErrJson v)).
Proof. now apply offline_emit. Qed.

#[local] Hint Resolve orderly_emit_json offline_emit_json offline_emit_envelope : flow.

Lemma orderly_checkAuth (h : Host) : orderly (checkAuth h).
Proof. unfold checkAuth. flow. Qed.

Lemma orderly_listCalendars_command (h : Host) (args : ParsedArguments) :
  orderly (listCalendars h args).
Proof. unfold listCalendars. flow. Qed.

Lemma orderly_showToday (h : Host) (args : ParsedArguments) :
  orderly (showToday h args).
Proof. unfold showToday. flow. Qed.

Lemma orderly_showUpcoming (h : Host) (args : ParsedArguments) :
  orderly (showUpcoming h args).
Proof. unfold showUpcoming. flow. Qed.

Lemma orderly_searchEvents (h : Host) (args : ParsedArguments) :
  orderly (searchEvents h args).
Proof. unfold searchEvents. flow. Qed.

Lemma orderly_showEvent (h : Host) (args : ParsedArguments) :
  orderly (showEvent h args).
Proof. unfold showEvent. flow. Qed.

#[local] Hint Resolve orderly_checkAuth orderly_listCalendars_command orderly_showToday
  orderly_showUpcoming orderly_searchEvents orderly_showEvent : flow.

Lemma orderly_dispatch (h : Host) (parsed : ParsedArguments) :
  orderly (dispatch h parsed).
Proof. unfold dispatch. flow. Qed.

Lemma caught_console_error (line : string) : caught (console_error line).
Proof. apply caught_emit. Qed.

Lemma caught_console_log (line : string) : caught (console_log line).
Proof. apply caught_emit. Qed.

#[local] Hint Resolve caught_console_error caught_console_log : flow.

(** No command handler lets an exception out: each one catches it,
    reports it and ends the process. *)
Lemma caught_dispatch (h : Host) (parsed : ParsedArguments) :
  caught (dispatch h parsed).
Proof.
  unfold dispatch, checkAuth, listCalendars, showToday, showUpcoming,
    searchEvents, showEvent.
  flow.
Qed.

Lemma orderly_try_catch_caught {A} (m : M A) (handler : JSError -> M A) :
  orderly m -> caught m -> orderly (try_catch m handler).
Proof.
  intros Hm Hc w. unfold try_catch. specialize (Hm w). specialize (Hc w).
  destruct (m w) as [[a|e|c|] w1]; cbn [fst snd] in *; try exact Hm.
  exfalso. now apply (Hc e).
Qed.

Lemma orderly_main (h : Host) (argv : list string) : orderly (main h argv).
Proof.
  unfold main. cbv zeta.
  destruct (no_command (parseArgs argv) || command_is (parseArgs argv) "help"
            || truthy (opt (parseArgs argv) "help")).
  - apply orderly_printHelp.
  - apply orderly_try_catch_caught; [apply orderly_dispatch | apply caught_dispatch].
Qed.

Lemma caught_main (h : Host) (argv : list string) : caught (main h argv).
Proof. unfold main, printHelp. flow. Qed.

Lemma run_main (h : Host) (argv : list string) :
  fst (run h argv) = fst (main h argv start_world)
  /\ snd (run h argv) = trace (snd (main h argv start_world)).
Proof. unfold run. now destruct (main h argv start_world). Qed.

(** ** The whole process: how it ends and what it prints *)

(** X17.  On every command line and with every host, no exception leaves
    [main], and when the process is ended by [process.exit] the status is
    1: the exit status is 0 or 1. *)
Theorem process_exit_status :
  forall (h : Host) (argv : list string),
    (forall e, fst (run h argv) <> Thrown e)
    /\ (forall code, fst (run h argv) = Exited code -> code = 1%Z)
    /\ (fst (run h argv) = Unmodelled
        \/ exit_status (fst (run h argv)) = Some 0%Z
        \/ exit_status (fst (run h argv)) = Some 1%Z).
Proof.
  intros h argv. destruct (run_main h argv) as [-> _].
  assert (Hcaught := caught_main h argv start_world).
  destruct (orderly_main h argv start_world) as (out & _ & _ & Hend).
  destruct (fst (main h argv start_world)) as [u|e|code|].
  - split; [discriminate | split; [discriminate | right; left; reflexivity]].
  - exfalso. now apply (Hcaught e).
  - destruct Hend as [-> _].
    split; [discriminate | split; [now intros ? [= <-] | right; right; reflexivity]].
  - split; [discriminate | split; [discriminate | left; reflexivity]].
Qed.

Lemma process_exit_status_witness :
  fst (run Demo.busy ["frobnicate"]) = Exited 1.
Proof.
  destruct (process_exit_status Demo.busy ["frobnicate"]) as (_ & Hcode & _).
  destruct (fst (run Demo.busy ["frobnicate"])) as [u|e|code|] eqn:E;
    try (vm_compute in E; discriminate).
  now rewrite (Hcode code eq_refl).
Defined.

(** X18.  Standard error tells failure from success: a process that
    returns has written nothing on standard error, and a process ended
    with status 1 has written at least one line there. *)
Theorem stderr_iff_failure :
  forall (h : Host) (argv : list string),
    (forall u, fst (run h argv) = Returned u ->
               existsb is_err (snd (run h argv)) = false)
    /\ (forall code, fst (run h argv) = Exited code ->
                     existsb is_err (snd (run h argv)) = true).
Proof.
  intros h argv. destruct (run_main h argv) as [-> ->].
  destruct (orderly_main h argv start_world) as (out & Htrace & _ & Hend).
  rewrite Htrace. cbn [start_world trace app].
  destruct (fst (main h argv start_world)) as [u|e|code|].
  - split; [intros _ _; exact Hend | discriminate].
  - split; discriminate.
  - split; [discriminate | intros _ _; apply Hend].
  - split; discriminate.
Qed.

Lemma stderr_iff_failure_witness :
  existsb is_err (snd (run Demo.busy ["upcoming"; "14"; "--summary"])) = false
  /\ existsb is_err (snd (run Demo.busy ["list"; "primary"])) = true.
Proof.
  split.
  - destruct (stderr_iff_failure Demo.busy ["upcoming"; "14"; "--summary"]) as [Hok _].
    apply (Hok tt). vm_compute. reflexivity.
  - destruct (stderr_iff_failure Demo.busy ["list"; "primary"]) as [_ Hbad].
    apply (Hbad 1%Z). vm_compute. reflexivity.
Defined.


(** ** The capability calls of a run *)

Lemma capability_call_split (e : Effect) :
  capability_call e = is_token_check e || is_fetch e.
Proof. now destruct e. Qed.

Lemma offline_counts (out : list Effect) :
  existsb capability_call out = false ->
  existsb is_token_check out = false /\ existsb is_fetch out = false
  /\ length (filter is_token_check out) = 0 /\ length (filter is_fetch out) = 0.
Proof.
  induction out as [|x out IH]; [now repeat split|].
  cbn [existsb filter]. rewrite capability_call_split.
  intros [[Ht Hf]%orb_false_iff Hout]%orb_false_iff.
  destruct (IH Hout) as (H1 & H2 & H3 & H4).
  rewrite Ht, Hf, H1, H2. now repeat split.
Qed.

Lemma filter_none {A} (f : A -> bool) (l : list A) :
  existsb f l = false -> filter f l = [].
Proof.
  induction l as [|x l IH]; [reflexivity|]. cbn.
  intros [Hx Hl]%orb_false_iff. rewrite Hx. now apply IH.
Qed.

Lemma single_offline {A} (m : M A) : offline m -> single m.
Proof.
  intros Hm w. destruct (Hm w) as (out & Ht & Hc). exists out.
  destruct (offline_counts out Hc) as (H1 & _ & _ & H4).
  split; [assumption | split; [assumption | lia]].
Qed.

Lemma single_bind_first {A B} (m : M A) (k : A -> M B) :
  offline m -> (forall a, single (k a)) -> single (bind m k).
Proof.
  intros Hm Hk w. unfold bind. destruct (Hm w) as (o1 & Ht1 & Hc1).
  destruct (offline_counts o1 Hc1) as (H1 & H2 & H3 & H4).
  destruct (m w) as [[a|e|c|] w1]; cbn [fst snd] in *;
    try (exists o1; split; [assumption | split; [assumption | lia]]).
  destruct (Hk a w1) as (o2 & Ht2 & Hn2 & Hf2).
  exists (o1 ++ o2)%list.
  rewrite Ht2, Ht1, app_assoc, existsb_app, filter_app, length_app, H1, Hn2, H4.
  now repeat split.
Qed.

Lemma single_bind_last {A B} (m : M A) (k : A -> M B) :
  single m -> (forall a, offline (k a)) -> single (bind m k).
Proof.
  intros Hm Hk w. unfold bind. destruct (Hm w) as (o1 & Ht1 & Hn1 & Hf1).
  destruct (m w) as [[a|e|c|] w1]; cbn [fst snd] in *;
    try (exists o1; now repeat split).
  destruct (Hk a w1) as (o2 & Ht2 & Hc2).
  destruct (offline_counts o2 Hc2) as (H1 & H2 & H3 & H4).
  exists (o1 ++ o2)%list.
  rewrite Ht2, Ht1, app_assoc, existsb_app, filter_app, length_app, H1, Hn1, H4.
  split; [reflexivity | split; [reflexivity | lia]].
Qed.

Lemma single_request (h : Host) (c : Client) (endpoint : string) :
  single (CalendarClient.request h c endpoint).
Proof.
  intros w. exists [fetch_of c endpoint].
  rewrite request_world.
  now repeat split.
Qed.

#[local] Hint Resolve single_request : flow.

Ltac single_step :=
  cbv beta zeta;
  match goal with
  | |- single (bind _ _) =>
      first [ apply single_bind_first; [solve [flow] | intros ?]
            | apply single_bind_last; [solve [auto with flow] | intros ?; solve [flow]] ]
  | |- single (if ?b then _ else _) => destruct b
  | |- single (match ?x with _ => _ end) => destruct x
  | |- single _ => first [solve [auto with flow] | apply single_offline; solve [flow]]
  end.

Lemma single_listCalendars (h : Host) (c : Client) (options : JSObject) :
  single (CalendarClient.listCalendars h c options).
Proof. unfold CalendarClient.listCalendars. repeat single_step. Qed.

Lemma single_listEvents (h : Host) (c : Client) (calendarId : JSValue)
  (options : JSObject) :
  single (CalendarClient.listEvents h c calendarId options).
Proof. unfold CalendarClient.listEvents. repeat single_step. Qed.

Lemma single_getEvent (h : Host) (c : Client) (calendarId eventId : JSValue) :
  single (CalendarClient.getEvent h c calendarId eventId).
Proof. unfold CalendarClient.getEvent. repeat single_step. Qed.

#[local] Hint Resolve single_listCalendars single_listEvents single_getEvent : flow.

Lemma single_getTodayEvents (h : Host) (c : Client) (calendarId : JSValue)
  (options : JSObject) :
  single (CalendarClient.getTodayEvents h c calendarId options).
Proof. unfold CalendarClient.getTodayEvents. repeat single_step. Qed.

Lemma single_getUpcomingEvents (h : Host) (c : Client) (days : JSNum)
  (calendarId : JSValue) (options : JSObject) :
  single (CalendarClient.getUpcomingEvents h c days calendarId options).
Proof. unfold CalendarClient.getUpcomingEvents. repeat single_step. Qed.

Lemma single_client_searchEvents (h : Host) (c : Client) (query : JSValue)
  (options : JSObject) :
  single (CalendarClient.searchEvents h c query options).
Proof. unfold CalendarClient.searchEvents. repeat single_step. Qed.

#[local] Hint Resolve single_getTodayEvents single_getUpcomingEvents
  single_client_searchEvents : flow.

Lemma net_offline (h : Host) {A} (m : M A) : offline m -> net_discipline h m.
Proof.
  intros Hm w. destruct (Hm w) as (out & Ht & Hc). exists out.
  split; [assumption|]. exists out, []. rewrite app_nil_r.
  destruct (offline_counts out Hc) as (H1 & H2 & H3 & H4).
  split; [reflexivity | split; [assumption | split; [lia|]]].
  split; [reflexivity | split; [simpl; lia | discriminate]].
Qed.

(** The client is constructed first; what follows makes at most one
    request. *)
Lemma net_constructor_bind (h : Host) {B} (k : Client -> M B) :
  (forall c, single (k c)) -> net_discipline h (bind (CalendarClient.constructor h) k).
Proof.
  intros Hk w. unfold bind, CalendarClient.constructor.
  destruct (token_system h) eqn:Hsys; cbn [negb].
  - unfold bind, emit. destruct (hasToken h "google-calendar") eqn:Htok; cbn [negb].
    + unfold ret.
      destruct (Hk (mkClient "https://www.googleapis.com/calendar/v3")
                  (mkWorld (trace w ++ [CallHasToken "google-calendar"]) (clock_reads w)))
        as (out & Ht & Hn & Hf).
      cbn [trace] in Ht. exists (CallHasToken "google-calendar" :: out).
      split; [now rewrite Ht, <- app_assoc|].
      exists [CallHasToken "google-calendar"], out.
      now repeat split.
    + eexists. split; [cbn; rewrite <- !app_assoc; cbn [app]; reflexivity|].
      eexists _, []. rewrite app_nil_r.
      split; [reflexivity|].
      split; [reflexivity | split; [cbn; lia|]].
      split; [reflexivity | split; [cbn; lia | discriminate]].
  - exists []. split; [apply app_nil_frame|]. exists [], [].
    split; [reflexivity | split; [reflexivity | split; [simpl; lia|]]].
    split; [reflexivity | split; [simpl; lia | discriminate]].
Qed.

Lemma net_try_catch (h : Host) {A} (m : M A) (handler : JSError -> M A) :
  net_discipline h m -> (forall e, offline (handler e)) ->
  net_discipline h (try_catch m handler).
Proof.
  intros Hm Hh w. unfold try_catch. specialize (Hm w).
  destruct (m w) as [[a|e|c|] w1]; cbn [fst snd] in *; try exact Hm.
  destruct Hm as (o1 & Ht1 & before & after & -> & Hb1 & Hb2 & Ha1 & Ha2 & Hok).
  destruct (Hh e w1) as (o2 & Ht2 & Hc2).
  destruct (offline_counts o2 Hc2) as (H1 & H2 & H3 & H4).
  exists ((before ++ after) ++ o2)%list.
  split; [rewrite Ht2, Ht1; symmetry; apply app_assoc|].
  exists before, (after ++ o2)%list.
  rewrite !existsb_app, filter_app, length_app, Ha1, H1, H4, H2, !orb_false_r.
  split; [symmetry; apply app_assoc | split; [assumption | split; [assumption|]]].
  split; [reflexivity | split; [lia | assumption]].
Qed.

Ltac net_handler :=
  apply net_try_catch;
  [ repeat match goal with
           | |- net_discipline _ (match ?x with _ => _ end) => destruct x
           end;
    first [ apply net_constructor_bind; intros ?; repeat single_step
          | apply net_offline; solve [flow] ]
  | intros ?; solve [flow] ].

Lemma net_dispatch (h : Host) (parsed : ParsedArguments) :
  net_discipline h (dispatch h parsed).
Proof.
  unfold dispatch.
  repeat match goal with
         | |- net_discipline _ (if ?b then _ else _) => destruct b
         end;
    try (unfold checkAuth, listCalendars, showToday, showUpcoming, searchEvents,
           showEvent; net_handler).
  apply net_offline. flow.
Qed.

Lemma net_main (h : Host) (argv : list string) : net_discipline h (main h argv).
Proof.
  unfold main. cbv zeta.
  destruct (no_command (parseArgs argv) || command_is (parseArgs argv) "help"
            || truthy (opt (parseArgs argv) "help")).
  - apply net_offline. flow.
  - apply net_try_catch; [apply net_dispatch | intros e; flow].
Qed.

(** X20.  In one run the program asks [hasToken] at most once and calls
    [authenticatedFetch] at most once, in this order; the request is made
    only when the token system exists and [hasToken] has answered yes. *)
Theorem one_request_after_credential_check :
  forall (h : Host) (argv : list string),
    credential_first h (snd (run h argv))
    /\ length (filter is_token_check (snd (run h argv))) <= 1
    /\ length (filter is_fetch (snd (run h argv))) <= 1
    /\ (existsb is_fetch (snd (run h argv)) = true ->
        token_system h = true /\ hasToken h "google-calendar" = true).
Proof.
  intros h argv. destruct (run_main h argv) as [_ ->].
  destruct (net_main h argv start_world) as (out & -> & Hout).
  cbn [start_world trace app]. split; [exact Hout|].
  destruct Hout as (before & after & -> & Hb1 & Hb2 & Ha1 & Ha2 & Hok).
  rewrite !filter_app, !length_app, existsb_app, Hb1.
  rewrite (filter_none _ _ Hb1), (filter_none _ _ Ha1). cbn [length orb].
  split; [lia | split; [lia|]].
  intros Hfetch. now destruct (Hok Hfetch) as (? & ? & _).
Qed.

Lemma one_request_after_credential_check_witness :
  token_system Demo.busy = true /\ hasToken Demo.busy "google-calendar" = true.
Proof.
  destruct (one_request_after_credential_check Demo.busy ["today"])
    as (_ & _ & _ & Hok).
  apply Hok. vm_compute. reflexivity.
Defined.


(** ** The request paths *)

Lemma encode_char_delimiters (a : ascii) :
  delimiters (if Uri.unreserved a then String a EmptyString else Uri.percent a)
  = (0, 0, 0).
Proof. destruct a as [[] [] [] [] [] [] [] []]; reflexivity. Qed.

Lemma delimiters_append (a b : string) :
  delimiters (a ++ b)
  = (fst (fst (delimiters a)) + fst (fst (delimiters b)),
     snd (fst (delimiters a)) + snd (fst (delimiters b)),
     snd (delimiters a) + snd (delimiters b)).
Proof. unfold delimiters. now rewrite !count_char_append. Qed.

Lemma encode_delimiters (s : string) : delimiters (Uri.encode s) = (0, 0, 0).
Proof.
  induction s as [|a s IH]; [reflexivity|].
  cbn [Uri.encode]. now rewrite delimiters_append, IH, encode_char_delimiters.
Qed.

Lemma query_part_delimiters (k : string) (v : JSValue) :
  delimiters (query_part k v) = (0, 0, 0).
Proof.
  unfold query_part, encodeURIComponent, Uri.encodeURIComponent.
  now rewrite !delimiters_append, !encode_delimiters.
Qed.

Lemma join_delimiters (parts : list string) :
  Forall (fun p => delimiters p = (0, 0, 0)) parts ->
  delimiters (Str.join "&" parts) = (0, 0, 0).
Proof.
  unfold Str.join. induction 1 as [|p parts Hp Hparts IH]; [reflexivity|].
  destruct parts as [|q parts]; [exact Hp|].
  change (String.concat "&" (p :: q :: parts))
    with (p ++ "&" ++ String.concat "&" (q :: parts)).
  now rewrite !delimiters_append, Hp, IH.
Qed.

Lemma buildQueryString_delimiters (params : JSObject) :
  delimiters (buildQueryString params) = (0, 0, 0).
Proof.
  unfold buildQueryString. rewrite query_parts_sent. apply join_delimiters.
  apply Forall_forall. intros p Hp. apply in_map_iff in Hp as ([k v] & <- & _).
  apply query_part_delimiters.
Qed.

(** X21.  No identifier and no option can change the shape of a request
    path: whatever the calendar id, the event id and the options hold
    (slashes, question marks, hash signs), the path [getCalendar] asks for
    has two [/], the path of [getEvent] four, neither has a [?] or a [#];
    the paths of [listEvents] and [listCalendars] have three [/] and the
    one [?] that starts the query string. *)
Theorem request_paths_keep_their_shape :
  forall (h : Host) (c : Client) (calendarId eventId : JSValue) (options : JSObject),
    (exists endpoint,
        CalendarClient.getCalendar h c calendarId = CalendarClient.request h c endpoint
        /\ delimiters endpoint = (2, 0, 0))
    /\ (exists endpoint,
           CalendarClient.getEvent h c calendarId eventId
           = CalendarClient.request h c endpoint
           /\ delimiters endpoint = (4, 0, 0))
    /\ (exists endpoint,
           CalendarClient.listEvents h c calendarId options
           = CalendarClient.request h c endpoint
           /\ delimiters endpoint = (3, 1, 0))
    /\ (exists endpoint,
           CalendarClient.listCalendars h c options = CalendarClient.request h c endpoint
           /\ delimiters endpoint = (3, 1, 0)).
Proof.
  intros h c calendarId eventId options.
  split; [|split; [|split]]; eexists; (split; [reflexivity|]);
    unfold encodeURIComponent, Uri.encodeURIComponent;
    rewrite !delimiters_append, ?encode_delimiters, ?buildQueryString_delimiters;
    reflexivity.
Qed.


(** ** Standard output under [--json] *)

Lemma silent_ret {A} (a : A) : silent (ret a).
Proof. now intros w. Qed.

Lemma silent_throw {A} (e : JSError) : silent (@throw A e).
Proof. now intros w. Qed.

Lemma silent_now (h : Host) : silent (CalendarClient.now h).
Proof. now intros w. Qed.

Lemma silent_toISOString (h : Host) (d : option Z) :
  silent (CalendarClient.toISOString h d).
Proof. intros w. now destruct d. Qed.

Lemma silent_bind {A B} (m : M A) (k : A -> M B) :
  silent m -> (forall a, silent (k a)) -> silent (bind m k).
Proof.
  intros Hm Hk w. unfold bind. specialize (Hm w).
  destruct (m w) as [[a|e|c|] w1]; cbn [snd] in *; try assumption.
  now rewrite Hk.
Qed.

Lemma silent_set_time (h : Host) (k : string) (v : JSValue) (options : JSObject) :
  silent (set_time h k v options).
Proof.
  unfold set_time. destruct (truthy v); [|apply silent_ret].
  apply silent_bind; [apply silent_toISOString | intros a; apply silent_ret].
Qed.

Lemma mute_from_same {A} (w : World) (r : Outcome A * World) :
  trace (snd r) = trace w -> mute_from w r.
Proof. intros Hr. exists []. now rewrite app_nil_r. Qed.

Lemma mute_from_trans {A B} (w w1 : World) (r : Outcome A * World)
  (r1 : Outcome B * World) :
  mute_from w r1 -> snd r1 = w1 -> mute_from w1 r -> mute_from w r.
Proof.
  intros (o1 & Ht1 & Ho1) <- (o2 & Ht2 & Ho2). exists (o1 ++ o2)%list.
  rewrite Ht2, Ht1, app_assoc, existsb_app, Ho1, Ho2. now split.
Qed.

Lemma request_returned (h : Host) (c : Client) (endpoint : string) (w : World)
  (body : JSValue) :
  fst (CalendarClient.request h c endpoint w) = Returned body ->
  body_of_fetch h c endpoint body.
Proof.
  unfold CalendarClient.request, try_catch, bind, emit, body_of_fetch. cbv zeta.
  destruct (authenticatedFetch h "google-calendar" (baseUrl c ++ endpoint))
    as [e|response]; unfold throw.
  - now destruct (Str.includes (message e) "Network permission denied").
  - destruct (ok response) eqn:Hok; cbn [negb]; unfold CalendarClient.response_json;
      destruct (json response) as [e|b] eqn:Hjson; unfold throw, ret;
      try (now destruct (Str.includes (message e) "Network permission denied")).
    + intros [= <-]. now exists response.
    + unfold prop. destruct (nullish b); unfold throw, ret;
        now destruct (Str.includes _ "Network permission denied").
Qed.

Lemma delivers_request (h : Host) (c : Client) (endpoint : string) :
  delivers h (CalendarClient.request h c endpoint).
Proof.
  intros w. pose proof (request_world h c endpoint w) as Hw.
  pose proof (request_returned h c endpoint w) as Hr.
  destruct (CalendarClient.request h c endpoint w) as [[body|e|code|] w1];
    cbn [fst snd] in *; subst w1;
    try (now exists [fetch_of c endpoint]).
  exists c, endpoint. split; [reflexivity | now apply Hr].
Qed.

Lemma delivers_bind_silent (h : Host) {A} (m : M A) (k : A -> M JSValue) :
  silent m -> (forall a, delivers h (k a)) -> delivers h (bind m k).
Proof.
  intros Hm Hk w. unfold bind. specialize (Hm w).
  destruct (m w) as [[a|e|c|] w1]; cbn [fst snd] in *;
    try (now apply mute_from_same).
  specialize (Hk a w1). unfold mute_from in *. rewrite Hm in Hk. exact Hk.
Qed.

Lemma delivers_listEvents (h : Host) (c : Client) (calendarId : JSValue)
  (options : JSObject) :
  delivers h (CalendarClient.listEvents h c calendarId options).
Proof. apply delivers_request. Qed.

Lemma delivers_listCalendars (h : Host) (c : Client) (options : JSObject) :
  delivers h (CalendarClient.listCalendars h c options).
Proof. apply delivers_request. Qed.

Lemma delivers_getEvent (h : Host) (c : Client) (calendarId eventId : JSValue) :
  delivers h (CalendarClient.getEvent h c calendarId eventId).
Proof. apply delivers_request. Qed.

Lemma delivers_getTodayEvents (h : Host) (c : Client) (calendarId : JSValue)
  (options : JSObject) :
  delivers h (CalendarClient.getTodayEvents h c calendarId options).
Proof.
  unfold CalendarClient.getTodayEvents. cbv zeta.
  apply delivers_bind_silent; [apply silent_now | intros t].
  apply delivers_bind_silent; [apply silent_toISOString | intros timeMin].
  apply delivers_bind_silent; [apply silent_toISOString | intros timeMax].
  apply delivers_listEvents.
Qed.

Lemma delivers_getUpcomingEvents (h : Host) (c : Client) (days : JSNum)
  (calendarId : JSValue) (options : JSObject) :
  delivers h (CalendarClient.getUpcomingEvents h c days calendarId options).
Proof.
  unfold CalendarClient.getUpcomingEvents. cbv zeta.
  apply delivers_bind_silent; [apply silent_now | intros t].
  apply delivers_bind_silent; [apply silent_toISOString | intros timeMin].
  apply delivers_bind_silent; [apply silent_toISOString | intros timeMax].
  apply delivers_listEvents.
Qed.

Lemma delivers_client_searchEvents (h : Host) (c : Client) (query : JSValue)
  (options : JSObject) :
  delivers h (CalendarClient.searchEvents h c query options).
Proof. apply delivers_request. Qed.

Lemma prints_body_deliver (h : Host) (m : M JSValue) :
  delivers h m -> prints_body h (bind m (fun body => emit (LogJson body))).
Proof.
  intros Hm w. unfold bind. specialize (Hm w).
  destruct (m w) as [[body|e|code|] w1]; cbn [fst snd] in *; try exact Hm.
  destruct Hm as (c & endpoint & Ht & Hbody). exists c, endpoint, body.
  cbn [emit fst snd trace]. rewrite Ht, <- app_assoc. now split.
Qed.

Lemma prints_body_bind_silent (h : Host) {A} (m : M A) (k : A -> M unit) :
  silent m -> (forall a, prints_body h (k a)) -> prints_body h (bind m k).
Proof.
  intros Hm Hk w. unfold bind. specialize (Hm w).
  destruct (m w) as [[a|e|c|] w1]; cbn [fst snd] in *;
    try (now apply mute_from_same).
  specialize (Hk a w1). unfold mute_from in *. rewrite Hm in Hk. exact Hk.
Qed.

Lemma mute_fail_error_exit (line : string) :
  mute_fail (console_error line ;; @process_exit unit 1).
Proof.
  intros w. split; [|discriminate]. exists [Err line]. now split.
Qed.

Lemma json_only_fail (h : Host) (m : M unit) (w : World) :
  mute_from w (m w) -> (forall a, fst (m w) <> Returned a) ->
  match fst (m w) with
  | Returned _ =>
      exists c endpoint body,
        trace (snd (m w))
        = (trace w ++ [CallHasToken "google-calendar"; fetch_of c endpoint;
                       LogJson body])%list
        /\ body_of_fetch h c endpoint body
  | _ => mute_from w (m w)
  end.
Proof.
  intros Hmute Hfail. destruct (fst (m w)) as [a| | |]; try assumption.
  now destruct (Hfail a).
Qed.

Lemma mute_constructor (h : Host) (w : World) :
  mute_from w (CalendarClient.constructor h w).
Proof.
  unfold CalendarClient.constructor. destruct (token_system h); cbn [negb].
  - unfold bind, emit. destruct (hasToken h "google-calendar"); cbn [negb].
    + now exists [CallHasToken "google-calendar"].
    + eexists. split; [cbn; rewrite <- !app_assoc; cbn [app]; reflexivity|].
      reflexivity.
  - now apply mute_from_same.
Qed.

Lemma constructor_returned (h : Host) (w w1 : World) (c : Client) :
  CalendarClient.constructor h w = (Returned c, w1) ->
  trace w1 = (trace w ++ [CallHasToken "google-calendar"])%list.
Proof.
  unfold CalendarClient.constructor. destruct (token_system h); cbn [negb];
    [|discriminate].
  unfold bind, emit. destruct (hasToken h "google-calendar"); cbn [negb];
    [|discriminate].
  now intros [= _ <-].
Qed.

(** A handler that builds its client, prints the body it gets and ends
    the process in its [catch]. *)
Lemma json_only_client (h : Host) (k : Client -> M unit) (handler : JSError -> M unit) :
  (forall c, prints_body h (k c)) -> (forall e, mute_fail (handler e)) ->
  json_only h (try_catch (bind (CalendarClient.constructor h) k) handler).
Proof.
  intros Hk Hh w.
  pose proof (mute_constructor h w) as Hmute.
  pose proof (constructor_returned h w) as Hret.
  assert (Hcatch : forall e w1 (r : Outcome unit * World),
             mute_from w r -> snd r = w1 ->
             match fst (handler e w1) with
             | Returned _ =>
                 exists c endpoint body,
                   trace (snd (handler e w1))
                   = (trace w ++ [CallHasToken "google-calendar"; fetch_of c endpoint;
                                  LogJson body])%list
                   /\ body_of_fetch h c endpoint body
             | _ => mute_from w (handler e w1)
             end).
  { intros e w1 r Hr Hw1. destruct (Hh e w1) as [Hm Hf].
    apply (json_only_fail h (fun _ => handler e w1) w); [|exact Hf].
    exact (mute_from_trans w w1 _ r Hr Hw1 Hm). }
  unfold try_catch, bind.
  destruct (CalendarClient.constructor h w) as [[c|e|code|] w1]; cbn [fst snd] in *;
    try exact Hmute.
  - specialize (Hret w1 c eq_refl). specialize (Hk c w1).
    destruct (k c w1) as [[[]|e|code|] w2] eqn:Ek; cbn [fst snd] in *.
    + destruct Hk as (cl & endpoint & body & Ht & Hb). exists cl, endpoint, body.
      split; [|exact Hb]. rewrite Ht, Hret, <- app_assoc. reflexivity.
    + apply (Hcatch e w2 (k c w1)); [|now rewrite Ek].
      rewrite Ek. exact (mute_from_trans w w1 _ _ Hmute eq_refl Hk).
    + exact (mute_from_trans w w1 _ _ Hmute eq_refl Hk).
    + exact (mute_from_trans w w1 _ _ Hmute eq_refl Hk).
  - exact (Hcatch e w1 (@Thrown unit e, w1) Hmute eq_refl).
Qed.

Lemma json_only_usage (h : Host) (a b : string) (handler : JSError -> M unit) :
  json_only h (try_catch (console_error a ;; console_error b ;; process_exit 1) handler).
Proof.
  intros w. apply (json_only_fail h); [|discriminate].
  exists [Err a; Err b]. split; [|reflexivity].
  cbn. now rewrite <- app_assoc.
Qed.

Section JsonHandlers.

Variable h : Host.
Variable args : ParsedArguments.
Hypothesis Hjson : truthy (opt args "json") = true.

Lemma json_only_listCalendars : json_only h (listCalendars h args).
Proof.
  unfold listCalendars. rewrite Hjson. cbv beta iota zeta.
  apply json_only_client; [intros c | intros e; apply mute_fail_error_exit].
  apply prints_body_deliver, delivers_listCalendars.
Qed.

Lemma json_only_showToday : json_only h (showToday h args).
Proof.
  unfold showToday. rewrite Hjson. cbv beta iota zeta.
  apply json_only_client; [intros c | intros e; apply mute_fail_error_exit].
  apply prints_body_deliver, delivers_getTodayEvents.
Qed.

Lemma json_only_showUpcoming : json_only h (showUpcoming h args).
Proof.
  unfold showUpcoming. rewrite Hjson. cbv beta iota zeta.
  apply json_only_client; [intros c | intros e; apply mute_fail_error_exit].
  apply prints_body_deliver, delivers_getUpcomingEvents.
Qed.

Lemma json_only_searchEvents : json_only h (searchEvents h args).
Proof.
  unfold searchEvents. rewrite Hjson. cbv beta iota zeta.
  destruct (positional args) as [|query rest]; [apply json_only_usage|].
  apply json_only_client; [intros c | intros e; apply mute_fail_error_exit].
  apply prints_body_bind_silent; [apply silent_set_time | intros o1].
  apply prints_body_bind_silent; [apply silent_set_time | intros o2].
  apply prints_body_deliver, delivers_client_searchEvents.
Qed.

Lemma json_only_showEvent : json_only h (showEvent h args).
Proof.
  unfold showEvent. rewrite Hjson. cbv beta iota zeta.
  destruct (positional args) as [|eventId rest]; [apply json_only_usage|].
  apply json_only_client; [intros c | intros e; apply mute_fail_error_exit].
  apply prints_body_deliver, delivers_getEvent.
Qed.

End JsonHandlers.

Lemma json_only_dispatch (h : Host) (parsed : ParsedArguments) :
  listing_command parsed = true -> truthy (opt parsed "json") = true ->
  json_only h (dispatch h parsed).
Proof.
  intros Hlist Hjson. unfold dispatch.
  destruct (command_is parsed "auth") eqn:Eauth.
  { exfalso. destruct parsed as [[cmd|] pos opts]; [|discriminate Eauth].
    apply String.eqb_eq in Eauth. subst cmd. discriminate Hlist. }
  destruct (command_is parsed "calendars") eqn:E1; [now apply json_only_listCalendars|].
  destruct (command_is parsed "today") eqn:E2; [now apply json_only_showToday|].
  destruct (command_is parsed "upcoming") eqn:E3; [now apply json_only_showUpcoming|].
  destruct (command_is parsed "search") eqn:E4; [now apply json_only_searchEvents|].
  destruct (command_is parsed "event") eqn:E5; [now apply json_only_showEvent|].
  destruct (command_is parsed "list") eqn:E6.
  - apply json_only_showUpcoming. unfold opt, force_year. cbn [options].
    rewrite get_set_other; [exact Hjson | discriminate].
  - unfold listing_command in Hlist. cbn [existsb] in Hlist.
    rewrite E1, E2, E3, E4, E5, E6 in Hlist. discriminate Hlist.
Qed.

(** X22.  Under [--json] the standard output of a listing command can be
    handed to a JSON reader as it is: when the process ends with status 0
    it has checked the credential, made one request and printed one JSON
    value, the decoded body of the response, unchanged and with nothing
    before or after it; when it ends otherwise, standard output is
    empty. *)
Theorem json_output_is_the_response_body :
  forall (h : Host) (argv : list string),
    listing_command (parseArgs argv) = true ->
    truthy (opt (parseArgs argv) "help") = false ->
    truthy (opt (parseArgs argv) "json") = true ->
    match fst (run h argv) with
    | Returned _ =>
        exists c endpoint body,
          snd (run h argv)
          = [CallHasToken "google-calendar"; fetch_of c endpoint; LogJson body]
          /\ body_of_fetch h c endpoint body
    | _ => existsb is_stdout (snd (run h argv)) = false
    end.
Proof.
  intros h argv Hlist Hhelp Hjson.
  destruct (run_main h argv) as [-> ->].
  assert (Hmain : main h argv start_world = dispatch h (parseArgs argv) start_world).
  { unfold main. cbv zeta. rewrite Hhelp.
    assert (Hcmd : no_command (parseArgs argv) = false
                   /\ command_is (parseArgs argv) "help" = false).
    { unfold listing_command, command_is, no_command in *.
      destruct (command (parseArgs argv)) as [cmd|]; [|discriminate Hlist].
      cbn [existsb] in Hlist.
      destruct (String.eqb_spec cmd "") as [->|_]; [discriminate Hlist|].
      destruct (String.eqb_spec cmd "help") as [->|_]; [discriminate Hlist|].
      now split. }
    destruct Hcmd as [-> ->]. cbn [orb].
    unfold try_catch. pose proof (caught_dispatch h (parseArgs argv) start_world) as Hc.
    destruct (dispatch h (parseArgs argv) start_world) as [[a|e|code|] w1];
      try reflexivity.
    now destruct (Hc e). }
  rewrite Hmain.
  pose proof (json_only_dispatch h (parseArgs argv) Hlist Hjson start_world) as Hd.
  destruct (fst (dispatch h (parseArgs argv) start_world)); try exact Hd;
    destruct Hd as (out & -> & Hout); exact Hout.
Qed.

Lemma json_output_is_the_response_body_witness :
  exists c endpoint body,
    snd (run Demo.busy ["today"; "--json"])
    = [CallHasToken "google-calendar"; fetch_of c endpoint; LogJson body]
    /\ body_of_fetch Demo.busy c endpoint body.
Proof.
  pose proof (json_output_is_the_response_body Demo.busy ["today"; "--json"]
                eq_refl eq_refl eq_refl) as H.
  assert (E : fst (run Demo.busy ["today"; "--json"]) = Returned tt)
    by (vm_compute; reflexivity).
  rewrite E in H. exact H.
Defined.


(** ** Asking for help *)

Lemma parseArgs_trailing_flag (args : list string) :
  parseArgs (args ++ ["--help"])
  = set_option (parseArgs args) "help" (VBool true).
Proof.
  unfold parseArgs.
  rewrite (parseArgs_loop_append_option "--help" eq_refl (length args)) by lia.
  reflexivity.
Qed.

(** X23.  A final [--help] wins over everything before it: whatever the
    command, its arguments and its options are, the process prints the
    help text and nothing else, calls neither capability and ends with
    status 0. *)
Theorem trailing_help_prints_help_only :
  forall (h : Host) (args : list string),
    run h (args ++ ["--help"]) = (Returned tt, [Log help_text])
    /\ exit_status (fst (run h (args ++ ["--help"]))) = Some 0%Z.
Proof.
  intros h args.
  assert (Hrun : run h (args ++ ["--help"]) = (Returned tt, [Log help_text])).
  { unfold run, main. cbv zeta. rewrite parseArgs_trailing_flag.
    replace (truthy (opt (set_option (parseArgs args) "help" (VBool true)) "help"))
      with true.
    - now rewrite orb_true_r.
    - unfold opt, set_option. cbn [String.eqb Ascii.eqb Bool.eqb options].
      now rewrite get_set_same. }
  rewrite Hrun. split; reflexivity.
Qed.


(** ** The attendees of [event] *)

Lemma prints_run {A} (m : M A) (a : A) (lines : list Effect) (w : World) :
  prints m a lines ->
  m w = (Returned a, mkWorld (trace w ++ lines) (clock_reads w)).
Proof.
  intros Hm. destruct (Hm w) as (Ho & Ht & Hc).
  destruct (m w) as [o [t c]]. cbn in *. now subst.
Qed.

Lemma prints_ret {A} (a : A) : prints (ret a) a [].
Proof. intros w. cbn. now rewrite app_nil_r. Qed.

Lemma prints_log (line : string) : prints (console_log line) tt [Log line].
Proof. now intros w. Qed.

Lemma prints_bind {A B} (m : M A) (k : A -> M B) (a : A) (b : B)
  (l1 l2 : list Effect) :
  prints m a l1 -> prints (k a) b l2 -> prints (bind m k) b (l1 ++ l2).
Proof.
  intros Hm Hk w. unfold bind. destruct (Hm w) as (Ho & Ht & Hc).
  destruct (m w) as [o w1]. cbn [fst snd] in *. subst o.
  destruct (Hk w1) as (Ho' & Ht' & Hc').
  rewrite Ho', Ht', Ht, Hc', Hc, app_assoc. now repeat split.
Qed.

Lemma prints_when (c : bool) (m : M unit) (lines : list Effect) :
  prints m tt lines ->
  prints (if c then m else ret tt) tt (if c then lines else []).
Proof. intros Hm. destruct c; [exact Hm | apply prints_ret]. Qed.

Lemma prints_for_each {A} (body : A -> M unit) (line : A -> Effect) (l : list A) :
  Forall (fun x => prints (body x) tt [line x]) l ->
  prints (for_each l body) tt (map line l).
Proof.
  induction 1 as [|x l Hx Hl IH]; [apply prints_ret|].
  cbn [for_each map]. change (line x :: map line l) with ([line x] ++ map line l)%list.
  now apply (prints_bind _ _ tt).
Qed.

Lemma prints_print_attendee (attendee : JSValue) :
  nullish attendee = false ->
  prints (print_attendee attendee) tt [attendee_line attendee].
Proof.
  intros Hobj w. unfold print_attendee, prop, bind, ret. rewrite Hobj.
  now repeat split.
Qed.

Lemma prints_format (event : JSValue) :
  nullish event = false ->
  prints (EventFormatter.format event) (VObj (EventFormatter.format_fields event)) [].
Proof. intros Hev. unfold EventFormatter.format. rewrite Hev. apply prints_ret. Qed.

Lemma prints_formatTimeRange (h : Host) (event : JSValue) :
  nullish event = false ->
  exists timeRange, prints (EventFormatter.formatTimeRange h event) timeRange [].
Proof.
  intros Hev. eexists. intros w.
  rewrite (formatTimeRange_returns h event w Hev). cbn. now rewrite app_nil_r.
Qed.

Lemma attendee_line_is_one (attendee : JSValue) :
  is_attendee_line (attendee_line attendee) = true
  /\ is_attendees_notice (attendee_line attendee) = false.
Proof. split; [apply prefix_append | reflexivity]. Qed.

Lemma attendee_lines_filter (l : list JSValue) :
  filter is_attendee_line (map attendee_line l) = map attendee_line l
  /\ existsb is_attendees_notice (map attendee_line l) = false.
Proof.
  induction l as [|a l [IH1 IH2]]; [now split|].
  cbn [map filter existsb]. destruct (attendee_line_is_one a) as [-> ->].
  now rewrite IH1, IH2.
Qed.

(** The attendees section: its heading, a line for each of the first ten
    attendees, and the notice when there are more. *)
Lemma attendees_section (l : list JSValue) :
  Forall (fun a => nullish a = false) (firstn 10 l) ->
  exists section : list Effect,
    prints
      (if (0 <? Z.of_nat (length l))%Z then
         console_log (Str.nl ++ "Attendees ("
                      ++ to_string (get_prop (VArr l) "length") ++ "):") ;;
         shown <- slice10 (VArr l) ;;
         for_each shown print_attendee ;;
         more <- gt (get_prop (VArr l) "length") 10 ;;
         if more then
           rest <- minus (get_prop (VArr l) "length") 10 ;;
           console_log ("  ... and " ++ to_string (VNum rest) ++ " more")
         else ret tt
       else ret tt) tt section
    /\ filter is_attendee_line section = map attendee_line (firstn 10 l)
    /\ (10 < length l -> In (attendees_notice (Z.of_nat (length l) - 10)) section)
    /\ (length l <= 10 -> existsb is_attendees_notice section = false).
Proof.
  intros Hl.
  assert (Hshown : prints (for_each (firstn 10 l) print_attendee) tt
                     (map attendee_line (firstn 10 l))).
  { apply prints_for_each. eapply Forall_impl; [|exact Hl].
    intros a Ha. now apply prints_print_attendee. }
  destruct (attendee_lines_filter (firstn 10 l)) as [Hfilter Hnone].
  destruct (Z.ltb_spec 0 (Z.of_nat (length l))) as [Hsome|Hempty].
  - set (heading := Log (Str.nl ++ "Attendees ("
                         ++ to_string (get_prop (VArr l) "length") ++ "):")).
    change (get_prop (VArr l) "length") with (VNum (Int (Z.of_nat (length l)))).
    cbn [gt minus slice10].
    destruct (Z.ltb_spec 10 (Z.of_nat (length l))) as [Hmore|Hfits].
    + exists ([heading] ++ [] ++ map attendee_line (firstn 10 l) ++ []
              ++ [] ++ [attendees_notice (Z.of_nat (length l) - 10)])%list.
      split; [|split; [|split]].
      * apply (prints_bind _ _ tt); [apply prints_log|].
        apply (prints_bind _ _ (firstn 10 l)); [apply prints_ret|].
        apply (prints_bind _ _ tt); [exact Hshown|].
        apply (prints_bind _ _ true); [apply prints_ret|].
        apply (prints_bind _ _ (Int (Z.of_nat (length l) - 10))); [apply prints_ret|].
        apply prints_log.
      * cbn [app]. change (filter is_attendee_line (heading :: ?x))
          with (filter is_attendee_line x).
        cbn [filter]. unfold heading. cbn -[firstn map attendee_line].
        rewrite filter_app, Hfilter. cbn. now rewrite app_nil_r.
      * intros _. cbn [app In]. right. apply in_or_app. right. now left.
      * lia.
    + exists ([heading] ++ [] ++ map attendee_line (firstn 10 l) ++ [] ++ [])%list.
      split; [|split; [|split]].
      * apply (prints_bind _ _ tt); [apply prints_log|].
        apply (prints_bind _ _ (firstn 10 l)); [apply prints_ret|].
        apply (prints_bind _ _ tt); [exact Hshown|].
        apply (prints_bind _ _ false); [apply prints_ret|].
        apply prints_ret.
      * cbn [app]. rewrite app_nil_r. cbn [filter]. exact Hfilter.
      * lia.
      * intros _. cbn [app]. rewrite app_nil_r. cbn [existsb]. exact Hnone.
  - assert (l = []) by (destruct l; [reflexivity | simpl in Hempty; lia]). subst l.
    exists []. split; [apply prints_ret|]. repeat split. simpl. lia.
Qed.


(** X24.  The details of an event show its first ten attendees and no
    more: for every event whose attendees are a list (or are absent), the
    attendee lines of [event] are the lines of the first ten attendees, in
    their order; when the list is longer, one line says exactly how many
    are not shown, and a list of ten or fewer gets no such line.  The
    attendees after the tenth are not read at all. *)
Theorem event_attendees_display_limit :
  forall (h : Host) (args : ParsedArguments) (eventId : string) (rest : list string)
         (client : Client) (event : JSValue) (w0 w1 w2 : World),
    truthy (opt args "json") = false ->
    positional args = eventId :: rest ->
    CalendarClient.constructor h w0 = (Returned client, w1) ->
    CalendarClient.getEvent h client (calendar_of args) (VStr eventId) w1
    = (Returned event, w2) ->
    nullish event = false ->
    attendee_list (get_prop event "attendees") = true ->
    Forall (fun a => nullish a = false) (firstn 10 (attendees_of event)) ->
    exists out : list Effect,
      showEvent h args w0
      = (Returned tt, mkWorld (trace w2 ++ out) (clock_reads w2))
      /\ filter is_attendee_line out = map attendee_line (firstn 10 (attendees_of event))
      /\ (10 < length (attendees_of event) ->
          In (attendees_notice (Z.of_nat (length (attendees_of event)) - 10)) out)
      /\ (length (attendees_of event) <= 10 ->
          existsb is_attendees_notice out = false).
Proof.
  intros h args eventId rest client event w0 w1 w2 Hjson Hpos Hnew Hfetch Hev Hlist Hl.
  destruct (attendeeCount_of_list event Hlist) as [Hattendees _].
  destruct (prints_formatTimeRange h event Hev) as [timeRange Htime].
  destruct (attendees_section (attendees_of event) Hl)
    as (section & Hsection & Hshown & Hmore & Hfits).
  eexists. split; [|split; [|split]].
  - unfold showEvent. rewrite Hpos. apply try_catch_returned.
    rewrite (bind_returned _ _ _ _ _ Hnew). cbv zeta.
    rewrite (bind_returned _ _ _ _ _ Hfetch). rewrite Hjson.
    apply prints_run.
    eapply prints_bind; [now apply prints_format|]. cbv beta.
    rewrite Hattendees.
    eapply prints_bind; [apply prints_log|].
    eapply prints_bind; [apply prints_log|].
    eapply prints_bind; [exact Htime|].
    eapply prints_bind; [apply prints_log|].
    eapply prints_bind; [apply prints_log|].
    eapply prints_bind; [apply prints_when, prints_log|].
    eapply prints_bind; [apply prints_when, prints_log|].
    eapply (prints_bind _ _ (0 <? Z.of_nat (length (attendees_of event)))%Z);
      [apply prints_ret|].
    eapply prints_bind; [exact Hsection|].
    eapply prints_bind; [apply prints_log|].
    eapply prints_bind; [apply prints_log|].
    eapply prints_bind; [apply prints_log|].
    apply prints_when, prints_log.
  - rewrite !filter_app, Hshown.
    destruct (truthy (get_prop (VObj (EventFormatter.format_fields event)) "location")),
      (truthy (get_prop (VObj (EventFormatter.format_fields event)) "description")),
      (truthy (get_prop (VObj (EventFormatter.format_fields event)) "htmlLink"));
      cbn -[firstn map attendee_line EventFormatter.format_fields];
      now rewrite app_nil_r.
  - intros Hlong. specialize (Hmore Hlong).
    do 9 (apply in_or_app; right).
    apply in_or_app. left. exact Hmore.
  - intros Hshort. rewrite !existsb_app, (Hfits Hshort).
    destruct (truthy (get_prop (VObj (EventFormatter.format_fields event)) "location")),
      (truthy (get_prop (VObj (EventFormatter.format_fields event)) "description")),
      (truthy (get_prop (VObj (EventFormatter.format_fields event)) "htmlLink"));
      reflexivity.
Qed.


Lemma event_attendees_display_limit_witness :
  exists out : list Effect,
    showEvent crowded (parseArgs ["event"; "p1"]) start_world
    = (Returned tt,
       mkWorld ([CallHasToken "google-calendar";
                 fetch_of (mkClient "https://www.googleapis.com/calendar/v3")
                          "/calendars/primary/events/p1"] ++ out) 0)
    /\ length (filter is_attendee_line out) = 10
    /\ In (attendees_notice 2) out.
Proof.
  destruct (event_attendees_display_limit crowded (parseArgs ["event"; "p1"]) "p1" []
              (mkClient "https://www.googleapis.com/calendar/v3") crowded_event
              start_world
              (mkWorld [CallHasToken "google-calendar"] 0)
              (mkWorld [CallHasToken "google-calendar";
                        fetch_of (mkClient "https://www.googleapis.com/calendar/v3")
                                 "/calendars/primary/events/p1"] 0))
    as (out & Hrun & Hshown & Hmore & _).
  - vm_compute. reflexivity.
  - vm_compute. reflexivity.
  - vm_compute. reflexivity.
  - vm_compute. reflexivity.
  - reflexivity.
  - reflexivity.
  - apply Forall_forall. intros a Ha.
    change (firstn 10 (attendees_of crowded_event))
      with (repeat (VObj [("email", VStr "guest@example.com")]) 10) in Ha.
    apply repeat_spec in Ha. now subst.
  - exists out. split; [exact Hrun | split].
    + rewrite Hshown. reflexivity.
    + apply Hmore. cbn. lia.
Defined.


(** ** The request of [search] *)

Lemma get_set_same_base (k k1 : string) (v : JSValue) (o o' : JSObject) :
  Obj.get o k = Obj.get o' k ->
  Obj.get (Obj.set k1 v o) k = Obj.get (Obj.set k1 v o') k.
Proof.
  intros Hbase. destruct (String.eqb_spec k k1) as [->|Hne].
  - now rewrite !get_set_same.
  - now rewrite !get_set_other.
Qed.

Lemma get_spread_same_base (k : string) (src o o' : JSObject) :
  Obj.get o k = Obj.get o' k ->
  Obj.get (Obj.spread o src) k = Obj.get (Obj.spread o' src) k.
Proof.
  revert o o'. induction src as [|[k1 v1] src IH]; intros o o' Hbase; [exact Hbase|].
  unfold Obj.spread in *. cbn [fold_left fst snd].
  now apply IH, get_set_same_base.
Qed.

(** Only the key [q] of the options [searchEvents] builds depends on the
    search text. *)
Lemma searchEvents_options_other (query query' : JSValue) (options : JSObject)
  (k : string) :
  k <> "q" ->
  Obj.get (CalendarClient.searchEvents_options query options) k
  = Obj.get (CalendarClient.searchEvents_options query' options) k.
Proof.
  intros Hk. unfold CalendarClient.searchEvents_options.
  apply get_spread_same_base.
  unfold Obj.literal. cbn [fold_left fst snd].
  do 3 apply get_set_same_base.
  now rewrite !get_set_other.
Qed.

Lemma client_searchEvents_any_text (h : Host) (c : Client) (query query' : JSValue)
  (options : JSObject) :
  CalendarClient.searchEvents h c query options
  = CalendarClient.searchEvents h c query' options.
Proof.
  unfold CalendarClient.searchEvents, CalendarClient.listEvents,
    CalendarClient.listEvents_params. cbv zeta.
  rewrite (searchEvents_options_other query query' options "timeMin") by discriminate.
  rewrite (searchEvents_options_other query query' options "timeMax") by discriminate.
  rewrite (searchEvents_options_other query query' options "query") by discriminate.
  rewrite (searchEvents_options_other query query' options "maxResults") by discriminate.
  rewrite (searchEvents_options_other query query' options "singleEvents") by discriminate.
  rewrite (searchEvents_options_other query query' options "orderBy") by discriminate.
  rewrite (searchEvents_options_other query query' options "showDeleted") by discriminate.
  reflexivity.
Qed.

Lemma same_requests_bind {A B} (m : M A) (k k' : A -> M B) (handler : JSError -> M B) :
  (forall a, same_requests (k a) (k' a) handler) ->
  same_requests (bind m k) (bind m k') handler.
Proof.
  intros Hk w. unfold try_catch, bind.
  destruct (m w) as [[a|e|c|] w1]; try reflexivity.
  exact (Hk a w1).
Qed.

Lemma offline_requests {A} (m : M A) (w : World) :
  offline m ->
  filter is_fetch (trace (snd (m w))) = filter is_fetch (trace w).
Proof.
  intros Hm. destruct (Hm w) as (out & -> & Hout).
  destruct (offline_counts out Hout) as (_ & Hfetch & _).
  now rewrite filter_app, (filter_none _ _ Hfetch), app_nil_r.
Qed.

Lemma same_requests_offline {A} (m m' : M A) (handler : JSError -> M A) :
  offline m -> offline m' -> (forall e, offline (handler e)) ->
  same_requests m m' handler.
Proof.
  intros Hm Hm' Hh w.
  rewrite !offline_requests; [reflexivity | |]; now apply offline_try_catch.
Qed.

(** X25.  The request of [search] does not depend on what is searched
    for.  The client's [searchEvents] is the same computation for every
    search text, whatever the options; and two runs of the [search]
    handler that differ in their positional arguments only make the same
    requests. *)
Theorem search_request_ignores_the_text :
  (forall (h : Host) (c : Client) (query query' : JSValue) (options : JSObject),
      CalendarClient.searchEvents h c query options
      = CalendarClient.searchEvents h c query' options)
  /\ (forall (h : Host) (cmd : option string) (opts : JSObject)
             (q q' : string) (rest rest' : list string) (w : World),
         filter is_fetch (trace (snd (searchEvents h (mkParsed cmd (q :: rest) opts) w)))
         = filter is_fetch
             (trace (snd (searchEvents h (mkParsed cmd (q' :: rest') opts) w)))).
Proof.
  split; [exact client_searchEvents_any_text|].
  intros h cmd opts q q' rest rest' w.
  unfold searchEvents, calendar_of, max_or, opt. cbn [positional options].
  apply same_requests_bind. intros client. cbv zeta.
  apply same_requests_bind. intros o1.
  apply same_requests_bind. intros o2.
  rewrite (client_searchEvents_any_text h client (VStr q) (VStr q') o2).
  apply same_requests_bind. intros events.
  apply same_requests_offline; [flow | flow | intros e; flow].
Qed.
